(** * Achievement & Streak Engine

    A shallow embedding of the gamification and streak services
    (awardPoints, checkAndAwardBadges, getLeaderboard, getUserRank,
    updateWorkoutStreak, checkStreakMilestones, checkAndResetStreak)
    and of the Mongoose collections they read and write, followed by the
    properties of the engine. Around them: the reads of the two services
    (getUserAchievements, getStreakStats, getStreakHistory), the helper
    getDateRange, the nightly streak check, WorkoutPlan.completeDay, and
    the scoring steps of the handlers completeWorkoutDay and
    logBiometricData.

    Modelling conventions.
    - JavaScript numbers that hold counters, points and timestamps are
      exact integers ([Z]); a [Date] is its millisecond timestamp.
    - date-fns [startOfDay]/[endOfDay]/[subDays] are taken in UTC, every
      day having 86,400,000 ms.
    - A collection is the list of its documents in storage order, except
      [User], which is a finite map keyed by [_id].
    - [async] code is sequential: every [await] on the store is one call of
      [dbop], which either goes through or throws, as decided by the fault
      plan carried in the world. A call does not see the clock advance.
    - [logger.info]/[logger.error] have no effect on the modelled state. *)

From Stdlib Require Import ZArith Lia.
From stdpp Require Import base option list gmap strings sorting.

Local Open Scope Z_scope.

(** ** Dates *)

Definition msPerDay : Z := 1000 * 60 * 60 * 24.

Definition startOfDay (t : Z) : Z := t `div` msPerDay * msPerDay.
Definition endOfDay (t : Z) : Z := startOfDay t + msPerDay - 1.
Definition subDays (t n : Z) : Z := t - n * msPerDay.

(** ** Documents *)

Definition UserId := nat.
Definition BadgeId := nat.
Bind Scope nat_scope with UserId BadgeId.

Inductive AccountStatus := active | inactive | suspended.

Record EarnedBadge := mkEarnedBadge {
  badgeId : BadgeId;
  earnedAt : Z
}.

Record User := mkUser {
  name : string;
  currentWorkoutStreak : Z;
  longestWorkoutStreak : Z;
  totalPoints : Z;
  badges : list EarnedBadge;
  lastWorkoutDate : option Z;
  accountStatus : AccountStatus
}.

Definition set_currentWorkoutStreak (v : Z) (u : User) : User :=
  mkUser (name u) v (longestWorkoutStreak u) (totalPoints u) (badges u)
         (lastWorkoutDate u) (accountStatus u).
Definition set_longestWorkoutStreak (v : Z) (u : User) : User :=
  mkUser (name u) (currentWorkoutStreak u) v (totalPoints u) (badges u)
         (lastWorkoutDate u) (accountStatus u).
Definition set_totalPoints (v : Z) (u : User) : User :=
  mkUser (name u) (currentWorkoutStreak u) (longestWorkoutStreak u) v (badges u)
         (lastWorkoutDate u) (accountStatus u).
Definition set_badges (v : list EarnedBadge) (u : User) : User :=
  mkUser (name u) (currentWorkoutStreak u) (longestWorkoutStreak u) (totalPoints u) v
         (lastWorkoutDate u) (accountStatus u).
Definition set_lastWorkoutDate (v : option Z) (u : User) : User :=
  mkUser (name u) (currentWorkoutStreak u) (longestWorkoutStreak u) (totalPoints u)
         (badges u) v (accountStatus u).

(** A freshly registered user: the schema defaults. *)
Definition newUser (n : string) : User := mkUser n 0 0 0 [] None active.

Inductive ActivityType :=
  | workout_completed | meal_logged | biometric_logged | goal_created
  | goal_completed | badge_earned | streak_updated | community_post
  | expert_booking | profile_updated | points_earned
  | workout_plan_generated | meal_plan_generated | feedback_provided
  | streak_milestone.

Definition ActivityType_eqb (a b : ActivityType) : bool :=
  match a, b with
  | workout_completed, workout_completed | meal_logged, meal_logged
  | biometric_logged, biometric_logged | goal_created, goal_created
  | goal_completed, goal_completed | badge_earned, badge_earned
  | streak_updated, streak_updated | community_post, community_post
  | expert_booking, expert_booking | profile_updated, profile_updated
  | points_earned, points_earned
  | workout_plan_generated, workout_plan_generated
  | meal_plan_generated, meal_plan_generated
  | feedback_provided, feedback_provided
  | streak_milestone, streak_milestone => true
  | _, _ => false
  end.

(** The template strings of the descriptions, kept structured. *)
Inductive Description :=
  | DescEarnedPoints (points : Z) (reason : string)
      (* `Earned ${points} points: ${reason}` *)
  | DescEarnedBadge (badgeName : string)
      (* `Earned badge: ${badge.name}` *)
  | DescReachedStreak (streak : Z)
      (* `Reached ${streak}-day streak` *)
  | DescText (text : string).

Record ActivityLog := mkActivityLog {
  al_userId : UserId;
  al_activityType : ActivityType;
  al_description : Description;
  al_relatedId : option nat;
  al_motivation : bool;          (* metadata.postType === 'motivation' *)
  al_pointsEarned : Z;
  al_createdAt : Z
}.

Inductive NotificationType := nt_streak_milestone | nt_badge_earned.
Inductive Priority := high | medium.

Inductive NotificationText :=
  | StreakMilestoneText (streak : Z)   (* `🔥 ${streak}-Day Streak!` *)
  | StreakBrokenText (oldStreak : Z)   (* '😔 Streak Broken', `Your ${oldStreak}-day ...` *)
  | BadgeEarnedText (badgeName : string).  (* '🎉 New Badge Earned!' *)

Record Notification := mkNotification {
  n_userId : UserId;
  n_type : NotificationType;
  n_text : NotificationText;
  n_relatedId : option nat;
  n_priority : Priority
}.

Inductive CriteriaType := ct_streak | ct_count | ct_value | ct_custom.

Record Badge := mkBadge {
  b_id : BadgeId;
  b_name : string;
  criteria_type : CriteriaType;
  criteria_target : option Z;     (* absent for custom badges *)
  criteria_metric : string;
  b_points : Z;
  isActive : bool
}.

Inductive GoalType := gt_weight | gt_fitness | gt_nutrition | gt_mindfulness | gt_sleep | gt_custom.
Inductive GoalStatus := gs_active | gs_completed | gs_paused | gs_cancelled.

Record Goal := mkGoal {
  g_userId : UserId;
  g_type : GoalType;
  g_status : GoalStatus
}.

Inductive BiometricType :=
  | bt_weight | bt_heart_rate | bt_sleep_duration | bt_blood_pressure | bt_steps
  | bt_calories_consumed | bt_calories_burned | bt_water_intake | bt_body_fat
  | bt_muscle_mass | bt_mood | bt_stress_level | bt_exercise_duration.

Record BiometricData := mkBiometricData {
  bd_userId : UserId;
  bd_type : BiometricType;
  bd_value : Z;
  bd_date : Z
}.

(** ** The store and the world *)

Record DB := mkDB {
  users : gmap UserId User;
  badgeCatalog : list Badge;
  activityLogs : list ActivityLog;
  notifications : list Notification;
  goals : list Goal;
  biometrics : list BiometricData
}.

Record World := mkWorld {
  db : DB;
  clock : Z;
  faults : list bool      (* one entry per store call, [true] = it throws *)
}.

(** A world whose store never fails. *)
Definition quiet (d : DB) (t : Z) : World := mkWorld d t [].

Inductive Error :=
  | UserNotFound        (* new Error('User not found') *)
  | TypeError           (* a property read on null *)
  | PersistenceError.   (* the store rejected a call *)

Inductive Result (A : Type) :=
  | Ok (a : A)
  | Throw (e : Error).
Arguments Ok {A} a.
Arguments Throw {A} e.

Definition M (A : Type) : Type := World → Result A * World.

Definition ret {A} (a : A) : M A := λ w, (Ok a, w).
Definition throw {A} (e : Error) : M A := λ w, (Throw e, w).
Definition bind {A B} (m : M A) (k : A → M B) : M B :=
  λ w, match m w with
       | (Ok a, w') => k a w'
       | (Throw e, w') => (Throw e, w')
       end.
Definition try_catch {A} (m : M A) (h : Error → M A) : M A :=
  λ w, match m w with
       | (Ok a, w') => (Ok a, w')
       | (Throw e, w') => h e w'
       end.

Notation "x <- m ;; k" := (bind m (λ x, k))
  (at level 100, m at next level, right associativity).
Notation "m ;;; k" := (bind m (λ _, k))
  (at level 100, right associativity).

(** One round trip to the store. *)
Definition dbop : M unit :=
  λ w, match faults w with
       | [] => (Ok tt, w)
       | false :: fs => (Ok tt, mkWorld (db w) (clock w) fs)
       | true :: fs => (Throw PersistenceError, mkWorld (db w) (clock w) fs)
       end.

Definition query {A} (f : DB → A) : M A :=
  dbop ;;; λ w, (Ok (f (db w)), w).
Definition update (f : DB → Z → DB) : M unit :=
  dbop ;;; λ w, (Ok tt, mkWorld (f (db w) (clock w)) (clock w) (faults w)).

(** [new Date()] *)
Definition newDate : M Z := λ w, (Ok (clock w), w).

Definition with_users (v : gmap UserId User) (d : DB) : DB :=
  mkDB v (badgeCatalog d) (activityLogs d) (notifications d) (goals d) (biometrics d).
Definition with_activityLogs (v : list ActivityLog) (d : DB) : DB :=
  mkDB (users d) (badgeCatalog d) v (notifications d) (goals d) (biometrics d).
Definition with_notifications (v : list Notification) (d : DB) : DB :=
  mkDB (users d) (badgeCatalog d) (activityLogs d) v (goals d) (biometrics d).

(** ** Collection calls *)

Definition User_findById (userId : UserId) : M (option User) :=
  query (λ d, users d !! userId).

(** [user.save()] on a document fetched by [findById]. *)
Definition User_save (userId : UserId) (user : User) : M unit :=
  update (λ d _, with_users (<[userId := user]> (users d)) d).

(** The fields a caller passes to [ActivityLog.create]; [createdAt] is
    stamped by the store. *)
Record NewActivity := mkNewActivity {
  na_userId : UserId;
  na_activityType : ActivityType;
  na_description : Description;
  na_relatedId : option nat;
  na_motivation : bool;
  na_pointsEarned : Z
}.

Definition stamp (a : NewActivity) (t : Z) : ActivityLog :=
  mkActivityLog (na_userId a) (na_activityType a) (na_description a)
                (na_relatedId a) (na_motivation a) (na_pointsEarned a) t.

Definition ActivityLog_create (a : NewActivity) : M unit :=
  update (λ d t, with_activityLogs (activityLogs d ++ [stamp a t]) d).

Definition Notification_create (n : Notification) : M unit :=
  update (λ d _, with_notifications (notifications d ++ [n]) d).

(** The filter [{ userId, activityType, createdAt: { $gte, $lte } }]. *)
Definition loggedBetween (userId : UserId) (ty : ActivityType) (from to : Z)
    (e : ActivityLog) : bool :=
  bool_decide (al_userId e = userId) && ActivityType_eqb (al_activityType e) ty
  && (from <=? al_createdAt e) && (al_createdAt e <=? to).

Definition ActivityLog_findOne_between (userId : UserId) (ty : ActivityType)
    (from to : Z) : M (option ActivityLog) :=
  query (λ d, List.find (loggedBetween userId ty from to) (activityLogs d)).

(** * streakService *)

Definition includes (l : list Z) (x : Z) : bool := existsb (Z.eqb x) l.

Definition milestones : list Z := [3; 7; 14; 21; 30; 50; 100; 365].

Definition checkStreakMilestones (userId : UserId) (user : User) : M User :=
  if includes milestones (currentWorkoutStreak user) then
    (Notification_create
       (mkNotification userId nt_streak_milestone
          (StreakMilestoneText (currentWorkoutStreak user)) None high) ;;;
     if includes [7; 30; 100] (currentWorkoutStreak user) then
       (let bonusPoints :=
          if currentWorkoutStreak user =? 7 then 50
          else if currentWorkoutStreak user =? 30 then 200 else 500 in
        let user := set_totalPoints (totalPoints user + bonusPoints) user in
        ActivityLog_create
          (mkNewActivity userId streak_milestone
             (DescReachedStreak (currentWorkoutStreak user)) None false bonusPoints) ;;;
        ret user)
     else ret user)
  else ret user.

Definition isSome {A} (o : option A) : bool :=
  match o with Some _ => true | None => false end.

(** [user.lastWorkoutDate && startOfDay(user.lastWorkoutDate).getTime() === today.getTime()] *)
Definition loggedToday (user : User) (today : Z) : bool :=
  match lastWorkoutDate user with
  | Some d => startOfDay d =? today
  | None => false
  end.

Definition updateWorkoutStreak (userId : UserId) : M Z :=
  try_catch
    (o <- User_findById userId ;;
     match o with
     | None => throw UserNotFound
     | Some user =>
       now <- newDate ;;
       let today := startOfDay now in
       let yesterday := startOfDay (subDays today 1) in
       now1 <- newDate ;;
       todayWorkout <-
         ActivityLog_findOne_between userId workout_completed today (endOfDay now1) ;;
       if loggedToday user today then ret (currentWorkoutStreak user)
       else
         (yesterdayWorkout <-
            ActivityLog_findOne_between userId workout_completed
              yesterday (endOfDay yesterday) ;;
          if isSome todayWorkout then
            (let user :=
               if isSome yesterdayWorkout || negb (isSome (lastWorkoutDate user))
               then set_currentWorkoutStreak (currentWorkoutStreak user + 1) user
               else set_currentWorkoutStreak 1 user in
             let user :=
               if longestWorkoutStreak user <? currentWorkoutStreak user
               then set_longestWorkoutStreak (currentWorkoutStreak user) user
               else user in
             now2 <- newDate ;;
             let user := set_lastWorkoutDate (Some now2) user in
             user <- checkStreakMilestones userId user ;;
             User_save userId user ;;;
             ret (currentWorkoutStreak user))
          else ret (currentWorkoutStreak user))
     end)
    (λ error, throw error).

Definition checkAndResetStreak (userId : UserId) : M unit :=
  try_catch
    (o <- User_findById userId ;;
     match o with
     | None => ret tt
     | Some user =>
       match lastWorkoutDate user with
       | None => ret tt
       | Some lwd =>
         now <- newDate ;;
         let today := startOfDay now in
         let lastWorkout := startOfDay lwd in
         let daysSinceLastWorkout := (today - lastWorkout) `div` msPerDay in
         if (1 <? daysSinceLastWorkout) && (0 <? currentWorkoutStreak user) then
           (let oldStreak := currentWorkoutStreak user in
            let user := set_currentWorkoutStreak 0 user in
            User_save userId user ;;;
            Notification_create
              (mkNotification userId nt_streak_milestone
                 (StreakBrokenText oldStreak) None medium))
         else ret tt
       end
     end)
    (λ _, ret tt).

(** * gamificationService *)

Definition awardPoints (userId : UserId) (points : Z) (reason : string) : M Z :=
  try_catch
    (o <- User_findById userId ;;
     match o with
     | None => throw UserNotFound
     | Some user =>
       let user := set_totalPoints (totalPoints user + points) user in
       User_save userId user ;;;
       ActivityLog_create
         (mkNewActivity userId points_earned (DescEarnedPoints points reason)
            None false points) ;;;
       ret (totalPoints user)
     end)
    (λ error, throw error).

Definition Badge_find_active : M (list Badge) :=
  query (λ d, List.filter isActive (badgeCatalog d)).

Definition AccountStatus_eqb (a b : AccountStatus) : bool :=
  match a, b with
  | active, active | inactive, inactive | suspended, suspended => true
  | _, _ => false
  end.

Definition GoalType_eqb (a b : GoalType) : bool :=
  match a, b with
  | gt_weight, gt_weight | gt_fitness, gt_fitness | gt_nutrition, gt_nutrition
  | gt_mindfulness, gt_mindfulness | gt_sleep, gt_sleep | gt_custom, gt_custom => true
  | _, _ => false
  end.

Definition GoalStatus_eqb (a b : GoalStatus) : bool :=
  match a, b with
  | gs_active, gs_active | gs_completed, gs_completed
  | gs_paused, gs_paused | gs_cancelled, gs_cancelled => true
  | _, _ => false
  end.

Definition isWeight (t : BiometricType) : bool :=
  match t with bt_weight => true | _ => false end.
Definition isWaterIntake (t : BiometricType) : bool :=
  match t with bt_water_intake => true | _ => false end.

(** [ActivityLog.countDocuments({ userId, activityType })] *)
Definition ActivityLog_countDocuments (userId : UserId) (ty : ActivityType) : M Z :=
  query (λ d, Z.of_nat (length (List.filter
    (λ e, bool_decide (al_userId e = userId) && ActivityType_eqb (al_activityType e) ty)
    (activityLogs d)))).

(** [ActivityLog.countDocuments({ userId, activityType: 'community_post',
    'metadata.postType': 'motivation' })] *)
Definition ActivityLog_countMotivation (userId : UserId) : M Z :=
  query (λ d, Z.of_nat (length (List.filter
    (λ e, bool_decide (al_userId e = userId)
          && ActivityType_eqb (al_activityType e) community_post && al_motivation e)
    (activityLogs d)))).

(** [ActivityLog.findOne({ userId, activityType })] *)
Definition ActivityLog_findOne (userId : UserId) (ty : ActivityType) : M (option ActivityLog) :=
  query (λ d, List.find
    (λ e, bool_decide (al_userId e = userId) && ActivityType_eqb (al_activityType e) ty)
    (activityLogs d)).

(** [Goal.countDocuments({ userId, status })] *)
Definition Goal_countDocuments (userId : UserId) (st : GoalStatus) : M Z :=
  query (λ d, Z.of_nat (length (List.filter
    (λ g, bool_decide (g_userId g = userId) && GoalStatus_eqb (g_status g) st)
    (goals d)))).

(** [Goal.findOne({ userId, type, status })] *)
Definition Goal_findOne (userId : UserId) (ty : GoalType) (st : GoalStatus) : M (option Goal) :=
  query (λ d, List.find
    (λ g, bool_decide (g_userId g = userId) && GoalType_eqb (g_type g) ty
          && GoalStatus_eqb (g_status g) st)
    (goals d)).

(** The first document of a list that is least for [lt]: what
    [findOne(...).sort(...)] returns, ties going to storage order. *)
Fixpoint firstBy {A} (lt : A → A → bool) (l : list A) : option A :=
  match l with
  | [] => None
  | x :: rest =>
    match firstBy lt rest with
    | Some y => if lt y x then Some y else Some x
    | None => Some x
    end
  end.

(** [BiometricData.findOne({ userId, type: 'weight' }).sort({ date: 1 })] *)
Definition BiometricData_firstWeight (userId : UserId) : M (option BiometricData) :=
  query (λ d, firstBy (λ a b, bd_date a <? bd_date b)
    (List.filter (λ e, bool_decide (bd_userId e = userId) && isWeight (bd_type e))
       (biometrics d))).

(** [BiometricData.getLatestByType(userId, 'weight')], that is
    [findOne({ userId, type }).sort({ date: -1 })]. *)
Definition BiometricData_getLatestWeight (userId : UserId) : M (option BiometricData) :=
  query (λ d, firstBy (λ a b, bd_date b <? bd_date a)
    (List.filter (λ e, bool_decide (bd_userId e = userId) && isWeight (bd_type e))
       (biometrics d))).

(** [BiometricData.findOne({ userId, type: 'water_intake',
    date: { $gte: checkDate, $lt: nextDay } })] *)
Definition BiometricData_findWater (userId : UserId) (checkDate nextDay : Z)
    : M (option BiometricData) :=
  query (λ d, List.find
    (λ e, bool_decide (bd_userId e = userId) && isWaterIntake (bd_type e)
          && (checkDate <=? bd_date e) && (bd_date e <? nextDay))
    (biometrics d)).

(** [x >= badge.criteria.target]; the comparison with [undefined] is false. *)
Definition reaches (x : Z) (target : option Z) : bool :=
  match target with
  | Some t => t <=? x
  | None => false
  end.

(** The [for] loop of [calculateWaterStreak]; [fuel] is the number of
    iterations left. *)
Fixpoint waterStreakLoop (fuel : nat) (userId : UserId) (checkDate streak : Z) : M Z :=
  match fuel with
  | O => ret streak
  | S fuel' =>
    let nextDay := checkDate + msPerDay in
    waterIntake <- BiometricData_findWater userId checkDate nextDay ;;
    match waterIntake with
    | Some e =>
      if 2000 <=? bd_value e
      then waterStreakLoop fuel' userId (checkDate - msPerDay) (streak + 1)
      else ret streak
    | None => ret streak
    end
  end.

Definition calculateWaterStreak (userId : UserId) : M Z :=
  _user <- User_findById userId ;;
  now <- newDate ;;
  let today := startOfDay now in
  waterStreakLoop 365 userId today 0.

Definition checkStreakBadge (userId : UserId) (badge : Badge) : M bool :=
  user <- User_findById userId ;;
  if String.eqb (criteria_metric badge) "workout_streak" then
    match user with
    | Some user => ret (reaches (currentWorkoutStreak user) (criteria_target badge))
    | None => throw TypeError
    end
  else if String.eqb (criteria_metric badge) "water_goal_streak" then
    (waterStreak <- calculateWaterStreak userId ;;
     ret (reaches waterStreak (criteria_target badge)))
  else ret false.

Definition checkCountBadge (userId : UserId) (badge : Badge) : M bool :=
  if String.eqb (criteria_metric badge) "workouts_completed" then
    (totalWorkouts <- ActivityLog_countDocuments userId workout_completed ;;
     ret (reaches totalWorkouts (criteria_target badge)))
  else if String.eqb (criteria_metric badge) "meal_plans_completed" then
    (completedMealPlans <- ActivityLog_countDocuments userId meal_logged ;;
     ret (reaches completedMealPlans (criteria_target badge)))
  else if String.eqb (criteria_metric badge) "goals_completed" then
    (completedGoals <- Goal_countDocuments userId gs_completed ;;
     ret (reaches completedGoals (criteria_target badge)))
  else if String.eqb (criteria_metric badge) "encouragements_given" then
    (encouragements <- ActivityLog_countMotivation userId ;;
     ret (reaches encouragements (criteria_target badge)))
  else ret false.

Definition checkValueBadge (userId : UserId) (badge : Badge) : M bool :=
  _user <- User_findById userId ;;
  if String.eqb (criteria_metric badge) "weight_lost" then
    (firstWeight <- BiometricData_firstWeight userId ;;
     latestWeight <- BiometricData_getLatestWeight userId ;;
     match firstWeight, latestWeight with
     | Some f, Some l =>
       let weightLost := bd_value f - bd_value l in
       ret (reaches weightLost (criteria_target badge))
     | _, _ => ret false
     end)
  else ret false.

Definition checkCustomBadge (userId : UserId) (badge : Badge) : M bool :=
  _user <- User_findById userId ;;
  if String.eqb (criteria_metric badge) "goal_weight_reached" then
    (weightGoal <- Goal_findOne userId gt_weight gs_completed ;;
     ret (isSome weightGoal))
  else if String.eqb (criteria_metric badge) "community_joined" then
    (hasPosted <- ActivityLog_findOne userId community_post ;;
     ret (isSome hasPosted))
  else ret false.

(** The [switch (badge.criteria.type)] of [checkAndAwardBadges]. *)
Definition checkCriteria (userId : UserId) (badge : Badge) : M bool :=
  match criteria_type badge with
  | ct_streak => checkStreakBadge userId badge
  | ct_count => checkCountBadge userId badge
  | ct_value => checkValueBadge userId badge
  | ct_custom => checkCustomBadge userId badge
  end.

Definition includesId (l : list BadgeId) (x : BadgeId) : bool := existsb (Nat.eqb x) l.

(** The [for (const badge of allBadges)] loop: the in-memory [user]
    document and [newBadgesEarned] are threaded through. *)
Fixpoint awardLoop (userId : UserId) (earnedBadgeIds : list BadgeId)
    (allBadges : list Badge) (user : User) (newBadgesEarned : list Badge)
    : M (User * list Badge) :=
  match allBadges with
  | [] => ret (user, newBadgesEarned)
  | badge :: rest =>
    if includesId earnedBadgeIds (b_id badge)
    then awardLoop userId earnedBadgeIds rest user newBadgesEarned
    else
      (hasEarned <- checkCriteria userId badge ;;
       if hasEarned : bool then
         (now <- newDate ;;
          let user := set_badges (badges user ++ [mkEarnedBadge (b_id badge) now]) user in
          let user := set_totalPoints (totalPoints user + b_points badge) user in
          let newBadgesEarned := newBadgesEarned ++ [badge] in
          Notification_create
            (mkNotification userId nt_badge_earned (BadgeEarnedText (b_name badge))
               (Some (b_id badge)) high) ;;;
          ActivityLog_create
            (mkNewActivity userId badge_earned (DescEarnedBadge (b_name badge))
               (Some (b_id badge)) false (b_points badge)) ;;;
          awardLoop userId earnedBadgeIds rest user newBadgesEarned)
       else awardLoop userId earnedBadgeIds rest user newBadgesEarned)
  end.

(** The body of the [try] block of [checkAndAwardBadges]. *)
Definition checkAndAwardBadges_try (userId : UserId) : M (list Badge) :=
  o <- User_findById userId ;;
  match o with
  | None => throw UserNotFound
  | Some user =>
    allBadges <- Badge_find_active ;;
    let earnedBadgeIds := map badgeId (badges user) in
    r <- awardLoop userId earnedBadgeIds allBadges user [] ;;
    let user := r.1 in
    let newBadgesEarned := r.2 in
    (if (0 <? length newBadgesEarned)%nat then User_save userId user else ret tt) ;;;
    ret newBadgesEarned
  end.

Definition checkAndAwardBadges (userId : UserId) : M (list Badge) :=
  try_catch (checkAndAwardBadges_try userId) (λ _, ret []).

(** ** Leaderboard *)

Record LeaderboardRow := mkLeaderboardRow {
  rank : Z;
  row_userId : UserId;
  row_name : string;
  row_totalPoints : Z;
  currentStreak : Z;
  longestStreak : Z
}.

(** The [switch (metric)] of [getLeaderboard]: the field of [sortCriteria]. *)
Definition sortCriteria (metric : string) : User → Z :=
  if String.eqb metric "totalPoints" then totalPoints
  else if String.eqb metric "currentWorkoutStreak" then currentWorkoutStreak
  else if String.eqb metric "longestWorkoutStreak" then longestWorkoutStreak
  else totalPoints.

(** The order [{ field: -1 }] asks for: larger values first. *)
Definition descending (key : User → Z) (a b : UserId * User) : Prop :=
  key b.2 ≤ key a.2.

#[global] Instance descending_dec key a b : Decision (descending key a b).
Proof. unfold descending. apply _. Defined.

(** [.limit(n)]; a limit of 0 means no limit. *)
Definition limited {A} (limit : nat) (l : list A) : list A :=
  match limit with
  | O => l
  | _ => take limit l
  end.

Definition isActiveUser (p : UserId * User) : bool :=
  AccountStatus_eqb (accountStatus p.2) active.

Section Leaderboard.
(** The store gives no order to the documents of a collection: an
    unindexed scan returns them in some order of its own. *)
Variable naturalOrder : list (UserId * User) → list (UserId * User).

(** [User.find({ accountStatus: 'active' }).sort(sortCriteria).limit(limit)] *)
Definition User_find_active_sorted (key : User → Z) (limit : nat)
    : M (list (UserId * User)) :=
  query (λ d, limited limit
    (merge_sort (descending key)
       (List.filter isActiveUser (naturalOrder (map_to_list (users d)))))).

Definition getLeaderboard (limit : nat) (metric : string) : M (list LeaderboardRow) :=
  try_catch
    (leaderboard <- User_find_active_sorted (sortCriteria metric) limit ;;
     ret (imap (λ index p,
                  mkLeaderboardRow (Z.of_nat index + 1) p.1 (name p.2)
                    (totalPoints p.2) (currentWorkoutStreak p.2)
                    (longestWorkoutStreak p.2))
            leaderboard))
    (λ error, throw error).
End Leaderboard.

(** [User.countDocuments({ accountStatus: 'active', field: { $gt: v } })] *)
Definition User_countDocuments_gt (key : User → Z) (v : Z) : M Z :=
  query (λ d, Z.of_nat (length (List.filter
    (λ p, isActiveUser p && (v <? key p.2)) (map_to_list (users d))))).

Definition getUserRank (userId : UserId) (metric : string) : M Z :=
  try_catch
    (o <- User_findById userId ;;
     match o with
     | None => throw UserNotFound
     | Some user =>
       higherRankedCount <-
         (if String.eqb metric "totalPoints" then
            User_countDocuments_gt totalPoints (totalPoints user)
          else if String.eqb metric "currentWorkoutStreak" then
            User_countDocuments_gt currentWorkoutStreak (currentWorkoutStreak user)
          else
            User_countDocuments_gt totalPoints (totalPoints user)) ;;
       ret (higherRankedCount + 1)
     end)
    (λ error, throw error).

(** * streakService: statistics and history *)

(** [ActivityLog.countDocuments({ userId, activityType, createdAt: { $gte } })] *)
Definition ActivityLog_countDocuments_since (userId : UserId) (ty : ActivityType)
    (from : Z) : M Z :=
  query (λ d, Z.of_nat (length (List.filter
    (λ e, bool_decide (al_userId e = userId) && ActivityType_eqb (al_activityType e) ty
          && (from <=? al_createdAt e))
    (activityLogs d)))).

Inductive StreakStatus := streak_active | streak_inactive.

Record StreakStats := mkStreakStats {
  st_currentStreak : Z;
  st_longestStreak : Z;
  totalWorkoutDays : Z;
  st_lastWorkoutDate : option Z;
  recentWorkouts : Z;
      (* workoutFrequency is rendered from it:
         `${((recentWorkouts / 30) * 100).toFixed(1)}%` *)
  nextMilestone : option Z;
  daysToMilestone : option Z;
  streakStatus : StreakStatus
}.

(** [x || null] on an optional number: [undefined] and 0 give [null]. *)
Definition orNull (o : option Z) : option Z :=
  match o with
  | Some x => if x =? 0 then None else Some x
  | None => None
  end.

Definition getStreakStats (userId : UserId) : M StreakStats :=
  try_catch
    (o <- User_findById userId ;;
     match o with
     | None => throw UserNotFound
     | Some user =>
       totalWorkoutDays <- ActivityLog_countDocuments userId workout_completed ;;
       now <- newDate ;;
       let thirtyDaysAgo := subDays now 30 in
       recentWorkouts <-
         ActivityLog_countDocuments_since userId workout_completed thirtyDaysAgo ;;
       let nextMilestone :=
         orNull (List.find (λ m, currentWorkoutStreak user <? m) milestones) in
       let daysToMilestone :=
         match nextMilestone with
         | Some m => Some (m - currentWorkoutStreak user)
         | None => None
         end in
       ret (mkStreakStats (currentWorkoutStreak user) (longestWorkoutStreak user)
              totalWorkoutDays (lastWorkoutDate user) recentWorkouts
              nextMilestone daysToMilestone
              (if 0 <? currentWorkoutStreak user then streak_active else streak_inactive))
     end)
    (λ error, throw error).

Record HistoryEntry := mkHistoryEntry {
  h_date : Z;            (* the instant whose ISO string is reported *)
  hasWorkout : bool;
  dayOfWeek : string
}.

(** [toLocaleDateString('en-US', { weekday: 'short' })]; day 0 of the epoch
    is a Thursday. *)
Definition weekdayShort (t : Z) : string :=
  match (t `div` msPerDay + 4) `mod` 7 with
  | 0 => "Sun" | 1 => "Mon" | 2 => "Tue" | 3 => "Wed"
  | 4 => "Thu" | 5 => "Fri" | _ => "Sat"
  end.

Definition earlierFirst (a b : ActivityLog) : Prop := al_createdAt a ≤ al_createdAt b.

#[global] Instance earlierFirst_dec a b : Decision (earlierFirst a b).
Proof. unfold earlierFirst. apply _. Defined.

(** [ActivityLog.find({ userId, activityType, createdAt: { $gte, $lte } })
      .sort({ createdAt: 1 })] *)
Definition ActivityLog_find_between_sorted (userId : UserId) (ty : ActivityType)
    (from to : Z) : M (list ActivityLog) :=
  query (λ d, merge_sort earlierFirst
                (List.filter (loggedBetween userId ty from to) (activityLogs d))).

(** The [for (let i = 0; i < days; i++)] loop of [getStreakHistory], with
    [left] iterations to go. *)
Fixpoint historyLoop (workouts : list ActivityLog) (days : Z) (left : nat) (i : Z)
    (history : list HistoryEntry) : M (list HistoryEntry) :=
  match left with
  | O => ret history
  | S left' =>
    now <- newDate ;;
    let date := subDays now (days - 1 - i) in
    let dateStr := startOfDay date in
    let hasWorkout :=
      existsb (λ w, startOfDay (al_createdAt w) =? startOfDay date) workouts in
    historyLoop workouts days left' (i + 1)
      (history ++ [mkHistoryEntry dateStr hasWorkout (weekdayShort date)])
  end.

Definition getStreakHistory (userId : UserId) (days : nat) : M (list HistoryEntry) :=
  try_catch
    (now <- newDate ;;
     let startDate := startOfDay (subDays now (Z.of_nat days)) in
     now1 <- newDate ;;
     let endDate := endOfDay now1 in
     workouts <-
       ActivityLog_find_between_sorted userId workout_completed startDate endDate ;;
     historyLoop workouts (Z.of_nat days) days 0 [])
    (λ error, throw error).

(** * helpers *)

(** [getDateRange(days)], as the pair [(start, end)]. *)
Definition getDateRange (days : Z) : M (Z * Z) :=
  now <- newDate ;;
  let end_ := endOfDay now in
  let start := startOfDay (subDays end_ (days - 1)) in
  ret (start, end_).

(** * The nightly streak check *)

(** The callback of [scheduleStreakCheck]. *)
Fixpoint forEach_checkAndResetStreak (ids : list UserId) : M unit :=
  match ids with
  | [] => ret tt
  | userId :: rest =>
    checkAndResetStreak userId ;;; forEach_checkAndResetStreak rest
  end.

Section StreakCheck.
Variable naturalOrder : list (UserId * User) → list (UserId * User).

(** [User.find({ accountStatus: 'active', currentWorkoutStreak: { $gt: 0 } })
      .select('_id')] *)
Definition User_find_active_streaking : M (list UserId) :=
  query (λ d, (List.filter
                 (λ p, isActiveUser p && (0 <? currentWorkoutStreak p.2))
                 (naturalOrder (map_to_list (users d)))).*1).

Definition streakCheckJob : M unit :=
  try_catch
    (users <- User_find_active_streaking ;;
     forEach_checkAndResetStreak users)
    (λ _, ret tt).
End StreakCheck.

(** * Completing a workout day *)

(** The scoring steps of the [completeWorkoutDay] handler, once the plan
    is found, owned by the caller and marked: points, ledger entry, streak,
    badges. [description] is the rendered
    `Completed day ${dayNumber} of workout plan`. *)
Definition completeWorkoutDay_scoring (userId : UserId) (planId : nat)
    (description : string) : M unit :=
  awardPoints userId 15 "Completed workout day" ;;;
  ActivityLog_create
    (mkNewActivity userId workout_completed (DescText description)
       (Some planId) false 15) ;;;
  updateWorkoutStreak userId ;;;
  checkAndAwardBadges userId ;;;
  ret tt.

(** ** WorkoutPlan.completeDay *)

Inductive PlanStatus := plan_active | plan_completed | plan_paused.

Record DayPlan := mkDayPlan {
  dayNumber : Z;
  completed : bool;
  completedAt : option Z
}.

Record WorkoutPlan := mkWorkoutPlan {
  wp_userId : UserId;
  days : list DayPlan;
  wp_status : PlanStatus;
  endDate : option Z;
  completedDays : Z
}.

(** [day.completed = true; day.completedAt = new Date()] on the document
    [find] returned: the first day with that number. *)
Fixpoint markDay (n now : Z) (ds : list DayPlan) : list DayPlan :=
  match ds with
  | [] => []
  | d :: rest =>
    if dayNumber d =? n then mkDayPlan (dayNumber d) true (Some now) :: rest
    else d :: markDay n now rest
  end.

(** The body of [completeDay] before [this.save()], at clock reading [now]. *)
Definition completeDay (n now : Z) (plan : WorkoutPlan) : WorkoutPlan :=
  match List.find (λ d, dayNumber d =? n) (days plan) with
  | Some day =>
    if negb (completed day) then
      let ds := markDay n now (days plan) in
      let done := completedDays plan + 1 in
      if Z.of_nat (length ds) <=? done
      then mkWorkoutPlan (wp_userId plan) ds plan_completed (Some now) done
      else mkWorkoutPlan (wp_userId plan) ds (wp_status plan) (endDate plan) done
    else plan
  | None => plan
  end.

(** * gamificationService: achievements *)

Record Achievement := mkAchievement {
  a_badge : option Badge;     (* the populated [badgeId]; [null] when no such badge *)
  a_earnedAt : Z
}.

Record Achievements := mkAchievements {
  a_totalPoints : Z;
  a_badges : list Achievement;
  a_currentStreak : Z;
  a_longestStreak : Z;
  totalWorkouts : Z;
  completedGoals : Z;
  totalActivities : Z;
  a_rank : Z
}.

(** [.populate('badges.badgeId')]: each reference is replaced by the badge
    document with that id, or by [null]. *)
Definition populate_badges (earned : list EarnedBadge) : M (list Achievement) :=
  query (λ d, map (λ b, mkAchievement
                          (List.find (λ c, Nat.eqb (b_id c) (badgeId b)) (badgeCatalog d))
                          (earnedAt b))
              earned).

(** [User.findById(userId).populate('badges.badgeId')] *)
Definition User_findById_populated (userId : UserId)
    : M (option (User * list Achievement)) :=
  o <- User_findById userId ;;
  match o with
  | None => ret None
  | Some user => populated <- populate_badges (badges user) ;; ret (Some (user, populated))
  end.

(** [ActivityLog.countDocuments({ userId })] *)
Definition ActivityLog_countDocuments_all (userId : UserId) : M Z :=
  query (λ d, Z.of_nat (length (List.filter
    (λ e, bool_decide (al_userId e = userId)) (activityLogs d)))).

Definition getUserAchievements (userId : UserId) : M Achievements :=
  try_catch
    (user <- User_findById_populated userId ;;
     totalWorkouts <- ActivityLog_countDocuments userId workout_completed ;;
     completedGoals <- Goal_countDocuments userId gs_completed ;;
     totalActivities <- ActivityLog_countDocuments_all userId ;;
     match user with
     | None => throw TypeError        (* [user.totalPoints] on [null] *)
     | Some (user, populated) =>
       rank <- getUserRank userId "totalPoints" ;;
       ret (mkAchievements (totalPoints user) populated
              (currentWorkoutStreak user) (longestWorkoutStreak user)
              totalWorkouts completedGoals totalActivities rank)
     end)
    (λ error, throw error).

(** * biometricController: logging a measurement *)





(** * Properties *)

(** ** Running the store *)

Ltac unfold_store :=
  unfold User_findById, User_save, ActivityLog_create, Notification_create,
    ActivityLog_findOne_between, query, update, newDate, dbop, bind, ret, throw,
    try_catch in *.

(** One case split on the next entry of the fault plan. *)
Ltac fault_case :=
  match goal with
  | H : context [match ?fs with [] => _ | _ :: _ => _ end] |- _ =>
      is_var fs; destruct fs as [|[|] fs]; simpl in H
  | |- context [match ?fs with [] => _ | _ :: _ => _ end] =>
      is_var fs; destruct fs as [|[|] fs]; simpl
  end.

Lemma dbop_quiet d t : dbop (quiet d t) = (Ok tt, quiet d t).
Proof. reflexivity. Qed.

Lemma query_quiet {A} (f : DB → A) d t : query f (quiet d t) = (Ok (f d), quiet d t).
Proof. reflexivity. Qed.

Lemma update_quiet f d t : update f (quiet d t) = (Ok tt, quiet (f d t) t).
Proof. reflexivity. Qed.

(** Whatever a store call answers, the clock is where it was. *)
Lemma dbop_inv w r w' :
  dbop w = (r, w') → db w' = db w ∧ clock w' = clock w.
Proof.
  destruct w as [d t fs]. unfold dbop. simpl.
  destruct fs as [|[|] fs]; intros [= <- <-]; auto.
Qed.

Lemma query_inv {A} (f : DB → A) w r w' :
  query f w = (r, w') →
  db w' = db w ∧ clock w' = clock w ∧ ∀ a, r = Ok a → a = f (db w).
Proof.
  destruct w as [d t fs]. unfold query, bind, dbop. simpl.
  destruct fs as [|[|] fs]; intros [= <- <-]; simpl; repeat split; congruence.
Qed.

Lemma update_inv f w r w' :
  update f w = (r, w') →
  clock w' = clock w
  ∧ match r with
    | Ok _ => db w' = f (db w) (clock w)
    | Throw _ => db w' = db w
    end.
Proof.
  destruct w as [d t fs]. unfold update, bind, dbop. simpl.
  destruct fs as [|[|] fs]; intros [= <- <-]; simpl; auto.
Qed.

(** ** Badge evaluation swallows its errors *)

(** C10. [checkAndAwardBadges] never throws: whatever the world and the
    fault plan it returns a list, and when a step of its [try] block
    fails that list is empty, as when no badge was earned. *)
Theorem checkAndAwardBadges_never_throws (userId : UserId) (w : World) :
  (∃ l, (checkAndAwardBadges userId w).1 = Ok l)
  ∧ (∀ e w', checkAndAwardBadges_try userId w = (Throw e, w') →
             checkAndAwardBadges userId w = (Ok [], w')).
Proof.
  unfold checkAndAwardBadges, try_catch.
  destruct (checkAndAwardBadges_try userId w) as [[l|e] w1]; simpl.
  - split; [eauto | discriminate].
  - split; [eauto | intros e' w' [= <- <-]; reflexivity].
Qed.

(** ** Rank *)

(** The rank in the spec's words: one more than the number of active users
    strictly above [user] on the metric [key]. *)
Definition rankOf_spec (key : User → Z) (d : DB) (user : User) : Z :=
  1 + Z.of_nat (length (List.filter
        (λ p, isActiveUser p && (key user <? key p.2)) (map_to_list (users d)))).

Lemma getUserRank_quiet userId metric d t user :
  users d !! userId = Some user →
  getUserRank userId metric (quiet d t) =
    (Ok (rankOf_spec
           (if String.eqb metric "currentWorkoutStreak"
            then currentWorkoutStreak else totalPoints) d user),
     quiet d t).
Proof.
  intros Hu. unfold getUserRank, User_countDocuments_gt, rankOf_spec. unfold_store.
  simpl. rewrite Hu.
  destruct (String.eqb metric "totalPoints") eqn:E1.
  - apply String.eqb_eq in E1 as ->. simpl. f_equal. f_equal. lia.
  - destruct (String.eqb metric "currentWorkoutStreak"); simpl; f_equal; f_equal; lia.
Qed.

Lemma getUserRank_totalPoints userId d t user :
  users d !! userId = Some user →
  (getUserRank userId "totalPoints" (quiet d t)).1 = Ok (rankOf_spec totalPoints d user).
Proof. intros Hu. by rewrite (getUserRank_quiet _ _ _ _ _ Hu). Qed.

Lemma getUserRank_currentWorkoutStreak userId d t user :
  users d !! userId = Some user →
  (getUserRank userId "currentWorkoutStreak" (quiet d t)).1
  = Ok (rankOf_spec currentWorkoutStreak d user).
Proof. intros Hu. by rewrite (getUserRank_quiet _ _ _ _ _ Hu). Qed.

(** Two active users: the first leads on longest streak, the second on points. *)
Definition rankUserA : User := mkUser "a" 0 9 10 [] None active.
Definition rankUserB : User := mkUser "b" 0 3 20 [] None active.
Definition rankDb : DB :=
  mkDB {[ 1%nat := rankUserA; 2%nat := rankUserB ]} [] [] [] [] [].

(** C7. Asked for the rank on [longestWorkoutStreak], [getUserRank] falls
    into the [default] branch and ranks on [totalPoints]: the user with the
    longest streak of all is given rank 2, where the count-based rank on
    that metric is 1. *)
Theorem getUserRank_longestWorkoutStreak_ranks_on_points :
  (getUserRank 1 "longestWorkoutStreak" (quiet rankDb 0)).1 = Ok 2
  ∧ rankOf_spec longestWorkoutStreak rankDb rankUserA = 1
  ∧ rankOf_spec totalPoints rankDb rankUserA = 2.
Proof. vm_compute. auto. Qed.

(** ** Points and ledger *)

Definition pointsCredited (userId : UserId) (w w' : World) : Prop :=
  (totalPoints <$> users (db w') !! userId) ≠ (totalPoints <$> users (db w) !! userId).

Definition ledgerEntryPersisted (w w' : World) : Prop :=
  activityLogs (db w') ≠ activityLogs (db w).

(** The claim of atomicity, as a statement about [awardPoints]. *)
Definition awardPoints_atomic : Prop :=
  ∀ userId points reason w e w',
    awardPoints userId points reason w = (Throw e, w') →
    (pointsCredited userId w w' ↔ ledgerEntryPersisted w w').

Definition creditDb : DB := mkDB {[ 1%nat := newUser "a" ]} [] [] [] [] [].

(** The ledger write is the third store call; it fails here. *)
Definition creditWorld : World := mkWorld creditDb 0 [false; false; true].

Lemma awardPoints_ledger_failure :
  awardPoints 1 5 "Logged biometric data" creditWorld
  = (Throw PersistenceError,
     quiet (with_users {[ 1%nat := set_totalPoints 5 (newUser "a") ]} creditDb) 0).
Proof. vm_compute. reflexivity. Qed.

(** C8, as stated, fails: when the ledger write throws, the points are
    already saved and no ledger entry exists. *)
Lemma awardPoints_not_atomic : ¬ awardPoints_atomic.
Proof.
  intros Hat.
  destruct (Hat _ _ _ _ _ _ awardPoints_ledger_failure) as [Hlr _].
  apply Hlr; [| reflexivity].
  vm_compute. discriminate.
Qed.

(** C8, amended. When [awardPoints] throws, no ledger entry has been
    written; the user record is either untouched or holds exactly the
    credited total. So a ledger entry without its credit never occurs,
    while a credit without its ledger entry can. *)
Theorem awardPoints_throw userId points reason w e w' :
  awardPoints userId points reason w = (Throw e, w') →
  activityLogs (db w') = activityLogs (db w)
  ∧ (users (db w') = users (db w)
     ∨ ∃ u, users (db w) !! userId = Some u
            ∧ users (db w')
              = <[userId := set_totalPoints (totalPoints u + points) u]> (users (db w))).
Proof.
  destruct w as [d t fs]. unfold awardPoints. unfold_store. simpl.
  intros H.
  repeat (first
    [ fault_case
    | match type of H with
      | context [users d !! userId] =>
          destruct (users d !! userId) as [u|] eqn:Hu; simpl in H
      end ];
    try (injection H as <- <-; simpl; eauto)); try discriminate.
Qed.

Lemma awardPoints_throw_witness :
  activityLogs (db (awardPoints 1 5 "Logged biometric data" creditWorld).2)
  = activityLogs (db creditWorld).
Proof.
  exact (proj1 (awardPoints_throw 1%nat 5 "Logged biometric data" creditWorld
                  PersistenceError _ awardPoints_ledger_failure)).
Defined.

(** ** Calendar days *)

Lemma msPerDay_pos : 0 < msPerDay.
Proof. reflexivity. Qed.

Lemma startOfDay_mul k : startOfDay (k * msPerDay) = k * msPerDay.
Proof. unfold startOfDay. rewrite Z.div_mul; [done | discriminate]. Qed.

Lemma startOfDay_idem t : startOfDay (startOfDay t) = startOfDay t.
Proof. unfold startOfDay at 2. apply startOfDay_mul. Qed.

Lemma startOfDay_yesterday t :
  startOfDay (subDays (startOfDay t) 1) = startOfDay t - msPerDay.
Proof.
  unfold subDays, startOfDay at 2.
  replace (t `div` msPerDay * msPerDay - 1 * msPerDay)
    with ((t `div` msPerDay - 1) * msPerDay) by lia.
  rewrite startOfDay_mul. unfold startOfDay. lia.
Qed.

Lemma daysBetween t l :
  (startOfDay t - startOfDay l) `div` msPerDay = t `div` msPerDay - l `div` msPerDay.
Proof.
  unfold startOfDay.
  replace (t `div` msPerDay * msPerDay - l `div` msPerDay * msPerDay)
    with ((t `div` msPerDay - l `div` msPerDay) * msPerDay) by lia.
  apply Z.div_mul. discriminate.
Qed.

(** The day count of the sweep exceeds 1 exactly when more than one day
    lies between the two calendar days. *)
Lemma daysBetween_gt_1 t l :
  1 < (startOfDay t - startOfDay l) `div` msPerDay
  ↔ msPerDay < startOfDay t - startOfDay l.
Proof. rewrite daysBetween. unfold startOfDay. pose proof msPerDay_pos. nia. Qed.

Lemma endOfDay_same_day t t' : startOfDay t = startOfDay t' → endOfDay t = endOfDay t'.
Proof. unfold endOfDay. by intros ->. Qed.

(** ** The daily sweep *)

(** The streak is live and its last workout day is more than one day
    before the day of [t]. *)
Definition streakOverdue (user : User) (t : Z) : Prop :=
  0 < currentWorkoutStreak user
  ∧ match lastWorkoutDate user with
    | Some lwd => msPerDay < startOfDay t - startOfDay lwd
    | None => False
    end.

#[global] Instance streakOverdue_dec user t : Decision (streakOverdue user t).
Proof. unfold streakOverdue. destruct (lastWorkoutDate user); apply _. Defined.

Definition streakBrokenNotice (userId : UserId) (oldStreak : Z) : Notification :=
  mkNotification userId nt_streak_milestone (StreakBrokenText oldStreak) None medium.

(** The store after a sweep of [userId] at time [t], the store working. *)
Definition sweepOf (userId : UserId) (d : DB) (t : Z) : DB :=
  db (checkAndResetStreak userId (quiet d t)).2.

Definition sweptDb (userId : UserId) (user : User) (d : DB) : DB :=
  with_notifications
    (notifications d ++ [streakBrokenNotice userId (currentWorkoutStreak user)])
    (with_users (<[userId := set_currentWorkoutStreak 0 user]> (users d)) d).

Lemma sweep_overdue d t userId user :
  users d !! userId = Some user → streakOverdue user t →
  sweepOf userId d t = sweptDb userId user d.
Proof.
  intros Hu [Hpos Hgap].
  unfold sweepOf, checkAndResetStreak. unfold_store. simpl. rewrite Hu.
  destruct (lastWorkoutDate user) as [lwd|]; [|done]. simpl.
  apply daysBetween_gt_1 in Hgap.
  destruct (Z.ltb_spec 1 ((startOfDay t - startOfDay lwd) `div` msPerDay)); [|lia].
  destruct (Z.ltb_spec 0 (currentWorkoutStreak user)); [|lia].
  reflexivity.
Qed.

Lemma sweep_not_overdue d t userId :
  (∀ user, users d !! userId = Some user → ¬ streakOverdue user t) →
  sweepOf userId d t = d.
Proof.
  intros Hno. unfold sweepOf, checkAndResetStreak. unfold_store. simpl.
  destruct (users d !! userId) as [user|] eqn:Hu; [|done].
  specialize (Hno user eq_refl). unfold streakOverdue in Hno.
  destruct (lastWorkoutDate user) as [lwd|] eqn:Hl; [|done]. simpl.
  destruct (Z.ltb_spec 1 ((startOfDay t - startOfDay lwd) `div` msPerDay)); [|done].
  destruct (Z.ltb_spec 0 (currentWorkoutStreak user)); [|done].
  exfalso. apply Hno. split; [done|]. by apply daysBetween_gt_1.
Qed.

Lemma sweptDb_changed userId user d : sweptDb userId user d ≠ d.
Proof.
  intros Heq. apply (f_equal (λ x, length (notifications x))) in Heq.
  simpl in Heq. rewrite length_app in Heq. simpl in Heq. lia.
Qed.

(** C6. With the store working, the sweep of a user returns normally
    and: when the user's streak is positive and the last workout day is
    more than one day back, the streak becomes 0 and one streak-broken
    notification carrying the old streak is added, nothing else changing;
    the store changes in no other case, in particular not for an unknown
    user, a zero streak, no last workout date, or a last workout today or
    yesterday; and sweeping again changes nothing. *)
Theorem checkAndResetStreak_sweep (d : DB) (t : Z) (userId : UserId) :
  (checkAndResetStreak userId (quiet d t)).1 = Ok tt
  ∧ (∀ user, users d !! userId = Some user → streakOverdue user t →
       sweepOf userId d t = sweptDb userId user d)
  ∧ (sweepOf userId d t ≠ d ↔
       ∃ user, users d !! userId = Some user ∧ streakOverdue user t)
  ∧ (∀ user, users d !! userId = Some user →
       currentWorkoutStreak user = 0 ∨ lastWorkoutDate user = None
       ∨ (∃ lwd, lastWorkoutDate user = Some lwd
                 ∧ (startOfDay lwd = startOfDay t
                    ∨ startOfDay lwd = startOfDay t - msPerDay)) →
       sweepOf userId d t = d)
  ∧ sweepOf userId (sweepOf userId d t) t = sweepOf userId d t.
Proof.
  assert (Hcases :
    (∃ user, users d !! userId = Some user ∧ streakOverdue user t)
    ∨ (∀ user, users d !! userId = Some user → ¬ streakOverdue user t)).
  { destruct (users d !! userId) as [user|]; [|right; congruence].
    destruct (decide (streakOverdue user t)); [left; eauto|].
    right. by intros ? [= <-]. }
  split; [|split; [|split; [|split]]].
  - unfold checkAndResetStreak. unfold_store. simpl.
    destruct (users d !! userId) as [user|]; [|done].
    destruct (lastWorkoutDate user) as [lwd|]; [|done]. simpl.
    by destruct (1 <? _); destruct (0 <? _).
  - apply sweep_overdue.
  - split.
    + intros Hne. destruct Hcases as [?|Hno]; [done|].
      by rewrite sweep_not_overdue in Hne.
    + intros (user & Hu & Hov). rewrite (sweep_overdue _ _ _ _ Hu Hov).
      apply sweptDb_changed.
  - intros user Hu Hc. apply sweep_not_overdue.
    intros user' Hu' [Hpos Hgap]. rewrite Hu in Hu'. injection Hu' as <-.
    destruct Hc as [Hz|[Hn|(lwd & Hl & Hd)]].
    + lia.
    + by rewrite Hn in Hgap.
    + rewrite Hl in Hgap. pose proof msPerDay_pos. lia.
  - destruct Hcases as [(user & Hu & Hov)|Hno].
    + rewrite (sweep_overdue _ _ _ _ Hu Hov).
      apply sweep_not_overdue. intros user'. unfold sweptDb. simpl.
      rewrite lookup_insert_eq. intros [= <-] [Hpos _]. simpl in Hpos. lia.
    + rewrite (sweep_not_overdue _ _ _ Hno). apply (sweep_not_overdue _ _ _ Hno).
Qed.

(** ** The streak update *)

Lemma isSome_find {A} (f : A → bool) l : isSome (List.find f l) = existsb f l.
Proof. induction l as [|x l IH]; simpl; [done|]. by destruct (f x). Qed.

(** The ledger holds a completed workout of the user stamped in [from, to]. *)
Definition workedOut (d : DB) (userId : UserId) (from to : Z) : bool :=
  existsb (loggedBetween userId workout_completed from to) (activityLogs d).

(** Start of the day before the day of [t]. *)
Definition yesterdayOf (t : Z) : Z := startOfDay t - msPerDay.

Definition workedOutToday (d : DB) (userId : UserId) (t : Z) : bool :=
  workedOut d userId (startOfDay t) (endOfDay t).
Definition workedOutYesterday (d : DB) (userId : UserId) (t : Z) : bool :=
  workedOut d userId (yesterdayOf t) (endOfDay (yesterdayOf t)).

Definition milestoneNotice (userId : UserId) (streak : Z) : Notification :=
  mkNotification userId nt_streak_milestone (StreakMilestoneText streak) None high.

(** The bonus in the spec's words: 50, 200 and 500 points at 7, 30 and 100
    days, nothing at any other length. *)
Definition milestoneBonus (streak : Z) : Z :=
  if streak =? 7 then 50
  else if streak =? 30 then 200
  else if streak =? 100 then 500 else 0.

Definition bonusEntry (userId : UserId) (streak : Z) (t : Z) : ActivityLog :=
  mkActivityLog userId streak_milestone (DescReachedStreak streak) None false
    (milestoneBonus streak) t.

Lemma checkStreakMilestones_quiet userId user d t :
  checkStreakMilestones userId user (quiet d t) =
    (Ok (set_totalPoints (totalPoints user + milestoneBonus (currentWorkoutStreak user)) user),
     quiet (with_activityLogs
              (activityLogs d ++
                 if includes [7; 30; 100] (currentWorkoutStreak user)
                 then [bonusEntry userId (currentWorkoutStreak user) t] else [])
              (with_notifications
                 (notifications d ++
                    if includes milestones (currentWorkoutStreak user)
                    then [milestoneNotice userId (currentWorkoutStreak user)] else [])
                 d)) t).
Proof.
  unfold checkStreakMilestones, milestoneBonus, bonusEntry. unfold_store.
  destruct user as [n c l p b lw a]. simpl.
  destruct d as [us cat logs ns gs bs].
  unfold includes, milestones, existsb; simpl.
  unfold quiet, with_activityLogs, with_notifications, set_totalPoints; simpl.
  destruct (Z.eqb_spec c 3); [subst; simpl; rewrite ?app_nil_r, ?Z.add_0_r; reflexivity|].
  destruct (Z.eqb_spec c 7); [subst; simpl; reflexivity|].
  destruct (Z.eqb_spec c 14); [subst; simpl; rewrite ?app_nil_r, ?Z.add_0_r; reflexivity|].
  destruct (Z.eqb_spec c 21); [subst; simpl; rewrite ?app_nil_r, ?Z.add_0_r; reflexivity|].
  destruct (Z.eqb_spec c 30); [subst; simpl; reflexivity|].
  destruct (Z.eqb_spec c 50); [subst; simpl; rewrite ?app_nil_r, ?Z.add_0_r; reflexivity|].
  destruct (Z.eqb_spec c 100); [subst; simpl; reflexivity|].
  destruct (Z.eqb_spec c 365); [subst; simpl; rewrite ?app_nil_r, ?Z.add_0_r; reflexivity|].
  simpl. rewrite ?app_nil_r, ?Z.add_0_r. reflexivity.
Qed.

(** The streak a qualifying update arrives at. *)
Definition nextStreak (d : DB) (userId : UserId) (user : User) (t : Z) : Z :=
  if workedOutYesterday d userId t || negb (isSome (lastWorkoutDate user))
  then currentWorkoutStreak user + 1 else 1.

Definition updatedUser (d : DB) (userId : UserId) (user : User) (t : Z) : User :=
  let s := nextStreak d userId user t in
  mkUser (name user) s (Z.max (longestWorkoutStreak user) s)
    (totalPoints user + milestoneBonus s) (badges user) (Some t) (accountStatus user).

Definition updatedDb (d : DB) (userId : UserId) (user : User) (t : Z) : DB :=
  let s := nextStreak d userId user t in
  mkDB (<[userId := updatedUser d userId user t]> (users d)) (badgeCatalog d)
    (activityLogs d ++ if includes [7; 30; 100] s then [bonusEntry userId s t] else [])
    (notifications d ++ if includes milestones s then [milestoneNotice userId s] else [])
    (goals d) (biometrics d).

(** What [updateWorkoutStreak] computes when the store works. *)
Lemma updateWorkoutStreak_quiet d t userId user :
  users d !! userId = Some user →
  updateWorkoutStreak userId (quiet d t) =
    if loggedToday user (startOfDay t) || negb (workedOutToday d userId t)
    then (Ok (currentWorkoutStreak user), quiet d t)
    else (Ok (nextStreak d userId user t), quiet (updatedDb d userId user t) t).
Proof.
  intros Hu. unfold updateWorkoutStreak.
  unfold try_catch, bind at 1. unfold User_findById. rewrite query_quiet, Hu.
  unfold bind at 1, newDate at 1. simpl clock.
  unfold bind at 1, newDate at 1. simpl clock.
  unfold bind at 1, ActivityLog_findOne_between at 1. rewrite query_quiet.
  destruct (loggedToday user (startOfDay t)) eqn:Hlt; [reflexivity|].
  unfold bind at 1, ActivityLog_findOne_between at 1. rewrite query_quiet.
  rewrite !isSome_find. fold (workedOut d userId (startOfDay t) (endOfDay t)).
  fold (workedOutToday d userId t).
  destruct (workedOutToday d userId t) eqn:Hw; [|reflexivity].
  simpl orb. cbv match.
  unfold bind at 1, newDate at 1. simpl clock.
  unfold bind at 1. rewrite checkStreakMilestones_quiet.
  unfold bind at 1, User_save. rewrite update_quiet.
  unfold ret.
  rewrite startOfDay_yesterday. fold (yesterdayOf t).
  fold (workedOut d userId (yesterdayOf t) (endOfDay (yesterdayOf t))).
  fold (workedOutYesterday d userId t).
  unfold updatedDb, updatedUser, nextStreak.
  destruct user as [n c l p b lw a]; destruct d as [us cat logs ns gs bs].
  destruct (workedOutYesterday _ userId t || negb (isSome (lastWorkoutDate _))); simpl;
    match goal with |- context [?x <? ?y] => destruct (Z.ltb_spec x y) end; simpl;
    unfold quiet, with_users, with_activityLogs, with_notifications, set_totalPoints; simpl;
    first [ rewrite Z.max_r by lia | rewrite Z.max_l by lia ]; reflexivity.
Qed.

(** The last workout day is the day before the day of [t] / an earlier day. *)
Definition lastWasYesterday (user : User) (t : Z) : Prop :=
  ∃ lwd, lastWorkoutDate user = Some lwd ∧ startOfDay lwd = yesterdayOf t.
Definition lastBeforeYesterday (user : User) (t : Z) : Prop :=
  ∃ lwd, lastWorkoutDate user = Some lwd ∧ startOfDay lwd < yesterdayOf t.

(** The transition of the claim, read on the user record alone. *)
Definition streak_transition_by_lastWorkoutDate : Prop :=
  ∀ d t userId user,
    users d !! userId = Some user →
    workedOutToday d userId t = true →
    loggedToday user (startOfDay t) = false →
    ∃ user',
      users (db (updateWorkoutStreak userId (quiet d t)).2) !! userId = Some user'
      ∧ (lastWasYesterday user t ∨ lastWorkoutDate user = None →
           currentWorkoutStreak user' = currentWorkoutStreak user + 1)
      ∧ (lastBeforeYesterday user t → currentWorkoutStreak user' = 1)
      ∧ longestWorkoutStreak user'
        = Z.max (longestWorkoutStreak user) (currentWorkoutStreak user')
      ∧ startOfDay <$> lastWorkoutDate user' = Some (startOfDay t).

Definition day (n : Z) : Z := n * msPerDay.

Definition workoutEntry (userId : UserId) (t : Z) : ActivityLog :=
  mkActivityLog userId workout_completed (DescText "Completed day 1 of workout plan")
    None false 15 t.

(** A user whose record was last updated on day 7 with a streak of 2, and
    whose ledger has workouts on days 9 and 10. *)
Definition gapUser : User := mkUser "a" 2 2 0 [] (Some (day 7 + 5)) active.
Definition gapDb : DB :=
  mkDB {[ 1%nat := gapUser ]} []
    [workoutEntry 1 (day 9 + 3); workoutEntry 1 (day 10 + 3)] [] [] [].

Lemma gapDb_update :
  updateWorkoutStreak 1 (quiet gapDb (day 10 + 100))
  = (Ok 3,
     quiet (with_users {[ 1%nat := mkUser "a" 3 3 0 [] (Some (day 10 + 100)) active ]}
              (with_notifications [milestoneNotice 1 3] gapDb))
       (day 10 + 100)).
Proof. vm_compute. reflexivity. Qed.

(** C1, as stated, fails: the last workout date is three days old, yet the
    streak goes from 2 to 3 because the ledger has a workout yesterday. *)
Lemma streak_transition_by_lastWorkoutDate_fails :
  ¬ streak_transition_by_lastWorkoutDate.
Proof.
  intros Hc.
  destruct (Hc gapDb (day 10 + 100) 1%nat gapUser) as (user' & Hu' & _ & Hone & _).
  - reflexivity.
  - reflexivity.
  - reflexivity.
  - rewrite gapDb_update in Hu'. simpl in Hu'.
    rewrite lookup_singleton_eq in Hu'. injection Hu' as <-.
    assert (Hold : lastBeforeYesterday gapUser (day 10 + 100)).
    { exists (day 7 + 5). split; [reflexivity|]. vm_compute. reflexivity. }
    specialize (Hone Hold). simpl in Hone. discriminate.
Qed.

(** C1, amended. A qualifying update (a workout in today's ledger, the
    record not yet stamped today) adds 1 to the streak when the ledger has
    a completed workout dated yesterday or the record has no last workout
    date, and sets it to 1 otherwise; then the longest streak is the
    maximum of its old value and the new streak, and the last workout date
    is now. *)
Theorem updateWorkoutStreak_transition d t userId user :
  users d !! userId = Some user →
  workedOutToday d userId t = true →
  loggedToday user (startOfDay t) = false →
  ∃ user',
    users (db (updateWorkoutStreak userId (quiet d t)).2) !! userId = Some user'
    ∧ (updateWorkoutStreak userId (quiet d t)).1 = Ok (currentWorkoutStreak user')
    ∧ (workedOutYesterday d userId t = true ∨ lastWorkoutDate user = None →
         currentWorkoutStreak user' = currentWorkoutStreak user + 1)
    ∧ (workedOutYesterday d userId t = false ∧ lastWorkoutDate user ≠ None →
         currentWorkoutStreak user' = 1)
    ∧ longestWorkoutStreak user'
      = Z.max (longestWorkoutStreak user) (currentWorkoutStreak user')
    ∧ lastWorkoutDate user' = Some t.
Proof.
  intros Hu Hw Hlt. rewrite (updateWorkoutStreak_quiet _ _ _ _ Hu), Hlt, Hw. simpl.
  exists (updatedUser d userId user t). rewrite lookup_insert_eq.
  repeat split; simpl; unfold nextStreak.
  - intros [-> | ->]; [done | by rewrite orb_true_r].
  - intros [-> Hl]. by destruct (lastWorkoutDate user).
Qed.

Lemma updateWorkoutStreak_transition_witness :
  ∃ user',
    users (db (updateWorkoutStreak 1 (quiet gapDb (day 10 + 100))).2) !! 1%nat = Some user'
    ∧ (updateWorkoutStreak 1 (quiet gapDb (day 10 + 100))).1 = Ok (currentWorkoutStreak user')
    ∧ (workedOutYesterday gapDb 1 (day 10 + 100) = true ∨ lastWorkoutDate gapUser = None →
         currentWorkoutStreak user' = currentWorkoutStreak gapUser + 1)
    ∧ (workedOutYesterday gapDb 1 (day 10 + 100) = false ∧ lastWorkoutDate gapUser ≠ None →
         currentWorkoutStreak user' = 1)
    ∧ longestWorkoutStreak user'
      = Z.max (longestWorkoutStreak gapUser) (currentWorkoutStreak user')
    ∧ lastWorkoutDate user' = Some (day 10 + 100).
Proof.
  apply (updateWorkoutStreak_transition gapDb (day 10 + 100) 1%nat gapUser);
    reflexivity.
Defined.

(** Where the ledger and the record agree on yesterday, the transition
    reads as in the claim. *)
Lemma updateWorkoutStreak_transition_agreeing d t userId user :
  users d !! userId = Some user →
  workedOutToday d userId t = true →
  loggedToday user (startOfDay t) = false →
  (workedOutYesterday d userId t = true ↔ lastWasYesterday user t) →
  ∃ user',
    users (db (updateWorkoutStreak userId (quiet d t)).2) !! userId = Some user'
    ∧ (lastWasYesterday user t ∨ lastWorkoutDate user = None →
         currentWorkoutStreak user' = currentWorkoutStreak user + 1)
    ∧ (lastBeforeYesterday user t → currentWorkoutStreak user' = 1).
Proof.
  intros Hu Hw Hlt Hag. rewrite (updateWorkoutStreak_quiet _ _ _ _ Hu), Hlt, Hw. simpl.
  exists (updatedUser d userId user t). rewrite lookup_insert_eq.
  split; [done|]. simpl. unfold nextStreak. split.
  - intros [Hy | Hn]; [apply Hag in Hy; by rewrite Hy | by rewrite Hn, orb_true_r].
  - intros (lwd & Hl & Hlt'). rewrite Hl. simpl.
    destruct (workedOutYesterday d userId t); [|done].
    destruct (proj1 Hag eq_refl) as (lwd' & Hl' & Heq). rewrite Hl in Hl'.
    injection Hl' as <-. lia.
Qed.

Lemma includes_elem_of l x : includes l x = bool_decide (x ∈ l).
Proof.
  unfold includes. induction l as [|y l IH]; simpl; [done|].
  destruct (Z.eqb_spec x y) as [->|Hne]; simpl.
  - symmetry. apply bool_decide_eq_true. left.
  - rewrite IH. apply bool_decide_ext. rewrite elem_of_cons.
    split; [by right | by intros [?|?]].
Qed.

(** C5. With the store working, a qualifying update that brings the streak
    to [s] adds one milestone notification exactly when [s] is one of
    3, 7, 14, 21, 30, 50, 100, 365, credits exactly the bonus of [s]
    (50, 200, 500 at 7, 30, 100, else nothing), and appends exactly one
    ledger entry carrying that bonus when [s] is 7, 30 or 100 and none
    otherwise. *)
Theorem updateWorkoutStreak_milestones d t userId user :
  users d !! userId = Some user →
  workedOutToday d userId t = true →
  loggedToday user (startOfDay t) = false →
  ∃ s user',
    (updateWorkoutStreak userId (quiet d t)).1 = Ok s
    ∧ users (db (updateWorkoutStreak userId (quiet d t)).2) !! userId = Some user'
    ∧ currentWorkoutStreak user' = s
    ∧ notifications (db (updateWorkoutStreak userId (quiet d t)).2)
      = notifications d
        ++ (if bool_decide (s ∈ [3; 7; 14; 21; 30; 50; 100; 365])
            then [milestoneNotice userId s] else [])
    ∧ totalPoints user' = totalPoints user + milestoneBonus s
    ∧ activityLogs (db (updateWorkoutStreak userId (quiet d t)).2)
      = activityLogs d
        ++ (if bool_decide (s ∈ [7; 30; 100]) then [bonusEntry userId s t] else [])
    ∧ milestoneBonus 7 = 50 ∧ milestoneBonus 30 = 200 ∧ milestoneBonus 100 = 500
    ∧ (s ∉ [7; 30; 100] → milestoneBonus s = 0).
Proof.
  intros Hu Hw Hlt. rewrite (updateWorkoutStreak_quiet _ _ _ _ Hu), Hlt, Hw. simpl.
  exists (nextStreak d userId user t), (updatedUser d userId user t).
  rewrite lookup_insert_eq, <- !includes_elem_of.
  repeat split.
  intros Hn. unfold milestoneBonus.
  destruct (Z.eqb_spec (nextStreak d userId user t) 7) as [E|_];
    [rewrite E in Hn; set_solver|].
  destruct (Z.eqb_spec (nextStreak d userId user t) 30) as [E|_];
    [rewrite E in Hn; set_solver|].
  destruct (Z.eqb_spec (nextStreak d userId user t) 100) as [E|_];
    [rewrite E in Hn; set_solver|].
  done.
Qed.

(** Six days into a streak, with workouts yesterday and today in the ledger. *)
Definition sixUser : User := mkUser "a" 6 6 90 [] (Some (day 9 + 5)) active.
Definition sixDb : DB :=
  mkDB {[ 1%nat := sixUser ]} []
    [workoutEntry 1 (day 9 + 3); workoutEntry 1 (day 10 + 3)] [] [] [].

Lemma updateWorkoutStreak_milestones_witness :
  ∃ s user',
    (updateWorkoutStreak 1 (quiet sixDb (day 10 + 100))).1 = Ok s
    ∧ users (db (updateWorkoutStreak 1 (quiet sixDb (day 10 + 100))).2) !! 1%nat = Some user'
    ∧ currentWorkoutStreak user' = s
    ∧ notifications (db (updateWorkoutStreak 1 (quiet sixDb (day 10 + 100))).2)
      = notifications sixDb
        ++ (if bool_decide (s ∈ [3; 7; 14; 21; 30; 50; 100; 365])
            then [milestoneNotice 1 s] else [])
    ∧ totalPoints user' = totalPoints sixUser + milestoneBonus s
    ∧ activityLogs (db (updateWorkoutStreak 1 (quiet sixDb (day 10 + 100))).2)
      = activityLogs sixDb
        ++ (if bool_decide (s ∈ [7; 30; 100]) then [bonusEntry 1 s (day 10 + 100)] else [])
    ∧ milestoneBonus 7 = 50 ∧ milestoneBonus 30 = 200 ∧ milestoneBonus 100 = 500
    ∧ (s ∉ [7; 30; 100] → milestoneBonus s = 0).
Proof.
  apply (updateWorkoutStreak_milestones sixDb (day 10 + 100) 1%nat sixUser);
    reflexivity.
Defined.

Example sixDb_reaches_seven :
  (updateWorkoutStreak 1 (quiet sixDb (day 10 + 100))).1 = Ok 7
  ∧ (totalPoints <$> users (db (updateWorkoutStreak 1 (quiet sixDb (day 10 + 100))).2) !! 1%nat)
    = Some 140.
Proof. vm_compute. auto. Qed.

(** ** Same-day repetition *)

Lemma loggedBetween_not_workout userId from to e :
  al_activityType e = streak_milestone →
  loggedBetween userId workout_completed from to e = false.
Proof.
  intros He. unfold loggedBetween. rewrite He. simpl.
  by rewrite andb_false_r.
Qed.

Lemma workedOut_updatedDb d userId user t from to :
  workedOut (updatedDb d userId user t) userId from to = workedOut d userId from to.
Proof.
  unfold workedOut, updatedDb. cbn [activityLogs]. rewrite existsb_app.
  destruct (includes [7; 30; 100] (nextStreak d userId user t)); cbn [existsb].
  - rewrite loggedBetween_not_workout by done. by rewrite !orb_false_r.
  - by rewrite orb_false_r.
Qed.

(** When the record is stamped today, or the ledger has no workout today,
    the call only reads: whatever the store does, nothing is written, and
    a call that returns gives the streak of the record. *)
Lemma updateWorkoutStreak_reads_only d t fs userId user :
  users d !! userId = Some user →
  loggedToday user (startOfDay t) || negb (workedOutToday d userId t) = true →
  db (updateWorkoutStreak userId (mkWorld d t fs)).2 = d
  ∧ ∀ s, (updateWorkoutStreak userId (mkWorld d t fs)).1 = Ok s →
         s = currentWorkoutStreak user.
Proof.
  intros Hu Hc. unfold updateWorkoutStreak. unfold_store. simpl.
  destruct fs as [|[|] fs]; simpl; rewrite ?Hu; simpl; [| done |].
  - destruct (loggedToday user (startOfDay t)) eqn:Hlt; simpl; [split; congruence|].
    rewrite !isSome_find. fold (workedOut d userId (startOfDay t) (endOfDay t)).
    fold (workedOutToday d userId t). simpl in Hc.
    destruct (workedOutToday d userId t); [done|]. simpl. split; congruence.
  - destruct fs as [|[|] fs]; simpl; [| done |].
    + destruct (loggedToday user (startOfDay t)) eqn:Hlt; simpl; [split; congruence|].
      rewrite !isSome_find. fold (workedOut d userId (startOfDay t) (endOfDay t)).
      fold (workedOutToday d userId t). simpl in Hc.
      destruct (workedOutToday d userId t); [done|]. simpl. split; congruence.
    + destruct (loggedToday user (startOfDay t)) eqn:Hlt; simpl; [split; congruence|].
      rewrite !isSome_find. fold (workedOut d userId (startOfDay t) (endOfDay t)).
      fold (workedOutToday d userId t). simpl in Hc.
      destruct fs as [|[|] fs]; simpl; [| done |];
        (destruct (workedOutToday d userId t); [done|]; simpl; split; congruence).
Qed.

(** C2. After a call of [updateWorkoutStreak] for an existing user (the
    store working), a second call on the same calendar day returns the
    streak of the record and leaves the whole store as it was: streaks,
    points, last workout date, ledger and notifications; the store is left
    unchanged even if the store fails during that second call. *)
Theorem updateWorkoutStreak_same_day_noop d t t2 userId user :
  users d !! userId = Some user →
  startOfDay t2 = startOfDay t →
  ∃ s1 user1,
    (updateWorkoutStreak userId (quiet d t)).1 = Ok s1
    ∧ users (db (updateWorkoutStreak userId (quiet d t)).2) !! userId = Some user1
    ∧ updateWorkoutStreak userId
        (quiet (db (updateWorkoutStreak userId (quiet d t)).2) t2)
      = (Ok (currentWorkoutStreak user1),
         quiet (db (updateWorkoutStreak userId (quiet d t)).2) t2)
    ∧ ∀ fs, db (updateWorkoutStreak userId
                  (mkWorld (db (updateWorkoutStreak userId (quiet d t)).2) t2 fs)).2
            = db (updateWorkoutStreak userId (quiet d t)).2.
Proof.
  intros Hu Hday. rewrite (updateWorkoutStreak_quiet _ _ _ _ Hu).
  destruct (loggedToday user (startOfDay t) || negb (workedOutToday d userId t)) eqn:Hc;
    simpl.
  - assert (Hc2 : loggedToday user (startOfDay t2) || negb (workedOutToday d userId t2) = true).
    { unfold workedOutToday. by rewrite Hday, (endOfDay_same_day _ _ Hday). }
    exists (currentWorkoutStreak user), user. repeat split; [done| |].
    + rewrite (updateWorkoutStreak_quiet _ _ _ _ Hu), Hc2. done.
    + intros fs. by apply (updateWorkoutStreak_reads_only _ _ fs _ _ Hu Hc2).
  - set (user1 := updatedUser d userId user t). set (d1 := updatedDb d userId user t).
    assert (Hu1 : users d1 !! userId = Some user1) by apply lookup_insert_eq.
    assert (Hc2 : loggedToday user1 (startOfDay t2) || negb (workedOutToday d1 userId t2) = true).
    { unfold loggedToday. simpl. rewrite Hday, Z.eqb_refl. done. }
    exists (nextStreak d userId user t), user1. repeat split; [done| |].
    + rewrite (updateWorkoutStreak_quiet _ _ _ _ Hu1), Hc2. done.
    + intros fs. by apply (updateWorkoutStreak_reads_only _ _ fs _ _ Hu1 Hc2).
Qed.

Lemma updateWorkoutStreak_same_day_noop_witness :
  ∃ s1 user1,
    (updateWorkoutStreak 1 (quiet sixDb (day 10 + 100))).1 = Ok s1
    ∧ users (db (updateWorkoutStreak 1 (quiet sixDb (day 10 + 100))).2) !! 1%nat = Some user1
    ∧ updateWorkoutStreak 1
        (quiet (db (updateWorkoutStreak 1 (quiet sixDb (day 10 + 100))).2) (day 10 + 900))
      = (Ok (currentWorkoutStreak user1),
         quiet (db (updateWorkoutStreak 1 (quiet sixDb (day 10 + 100))).2) (day 10 + 900))
    ∧ ∀ fs, db (updateWorkoutStreak 1
                  (mkWorld (db (updateWorkoutStreak 1 (quiet sixDb (day 10 + 100))).2)
                     (day 10 + 900) fs)).2
            = db (updateWorkoutStreak 1 (quiet sixDb (day 10 + 100))).2.
Proof.
  apply (updateWorkoutStreak_same_day_noop sixDb (day 10 + 100) (day 10 + 900) 1%nat sixUser);
    reflexivity.
Defined.
(** ** Leaderboard order *)

Definition rowCriteria (metric : string) : LeaderboardRow → Z :=
  if String.eqb metric "totalPoints" then row_totalPoints
  else if String.eqb metric "currentWorkoutStreak" then currentStreak
  else if String.eqb metric "longestWorkoutStreak" then longestStreak
  else row_totalPoints.

Definition toRow (index : nat) (p : UserId * User) : LeaderboardRow :=
  mkLeaderboardRow (Z.of_nat index + 1) p.1 (name p.2)
    (totalPoints p.2) (currentWorkoutStreak p.2) (longestWorkoutStreak p.2).

Lemma rowCriteria_toRow metric index p :
  rowCriteria metric (toRow index p) = sortCriteria metric p.2.
Proof.
  unfold rowCriteria, sortCriteria.
  by repeat destruct (String.eqb metric _).
Qed.

(** Larger first, on plain values. *)
Definition largerFirst (a b : Z) : Prop := b ≤ a.

#[global] Instance largerFirst_trans : Transitive largerFirst.
Proof. unfold largerFirst. intros x y z. lia. Qed.
#[global] Instance largerFirst_antisymm : AntiSymm (=) largerFirst.
Proof. unfold largerFirst. intros x y. lia. Qed.
#[global] Instance descending_total key : Total (descending key).
Proof. unfold descending. intros a b. lia. Qed.

Lemma Permutation_List_filter {A} (f : A → bool) l l' :
  l ≡ₚ l' → List.filter f l ≡ₚ List.filter f l'.
Proof.
  induction 1 as [|x l l' _ IH|x y l|l l' l'' _ IH1 _ IH2]; simpl.
  - done.
  - destruct (f x); [by constructor | done].
  - destruct (f x), (f y); try done. apply perm_swap.
  - by etrans.
Qed.

Lemma Sorted_take {A} (R : relation A) n l : Sorted R l → Sorted R (take n l).
Proof.
  intros Hs. revert n. induction Hs as [|x l Hs IH Hhd]; intros [|n]; simpl;
    try constructor; [apply IH|].
  destruct Hhd; destruct n; simpl; constructor; done.
Qed.

Lemma Sorted_limited {A} (R : relation A) n l : Sorted R l → Sorted R (limited n l).
Proof. destruct n; [done|]. apply Sorted_take. Qed.

(** The documents the sort of [getLeaderboard] works on and returns. *)
Definition sortedActive (naturalOrder : list (UserId * User) → list (UserId * User))
    (key : User → Z) (d : DB) : list (UserId * User) :=
  merge_sort (descending key)
    (List.filter isActiveUser (naturalOrder (map_to_list (users d)))).

Lemma getLeaderboard_quiet naturalOrder limit metric d t :
  getLeaderboard naturalOrder limit metric (quiet d t)
  = (Ok (imap toRow (limited limit (sortedActive naturalOrder (sortCriteria metric) d))),
     quiet d t).
Proof. reflexivity. Qed.

Lemma rowCriteria_rows metric l :
  rowCriteria metric <$> imap toRow l = (sortCriteria metric ∘ snd) <$> l.
Proof.
  rewrite fmap_imap, <- imap_const. apply imap_ext.
  intros i p _. simpl. apply rowCriteria_toRow.
Qed.

Lemma sortedActive_values no1 no2 key d :
  (∀ l, no1 l ≡ₚ l) → (∀ l, no2 l ≡ₚ l) →
  (key ∘ snd) <$> sortedActive no1 key d = (key ∘ snd) <$> sortedActive no2 key d.
Proof.
  intros H1 H2. apply (Sorted_unique largerFirst).
  - apply (Sorted_fmap _ (descending key)); [done|]. apply Sorted_merge_sort, _.
  - apply (Sorted_fmap _ (descending key)); [done|]. apply Sorted_merge_sort, _.
  - apply fmap_Permutation. unfold sortedActive.
    rewrite !merge_sort_Permutation.
    apply Permutation_List_filter. by rewrite H1, H2.
Qed.

(** A scan order is any rearrangement of the collection. *)
Definition scanOrder (naturalOrder : list (UserId * User) → list (UserId * User)) : Prop :=
  ∀ l, naturalOrder l ≡ₚ l.

(** Determinism of the leaderboard, as claimed: the ranked list depends on
    the user data alone, not on the order in which the store scans it. *)
Definition leaderboard_deterministic : Prop :=
  ∀ no1 no2 limit metric d t,
    scanOrder no1 → scanOrder no2 →
    (getLeaderboard no1 limit metric (quiet d t)).1
    = (getLeaderboard no2 limit metric (quiet d t)).1.

(** Two active users with equal points. *)
Definition tieDb : DB :=
  mkDB {[ 1%nat := mkUser "a" 0 0 20 [] None active;
          2%nat := mkUser "b" 0 0 20 [] None active ]} [] [] [] [] [].

Lemma scanOrder_id : scanOrder id.
Proof. by intros l. Qed.

Lemma scanOrder_reverse : scanOrder reverse.
Proof. intros l. apply reverse_Permutation. Qed.

(** C9, as stated, fails: with two users tied on points, the two scan
    orders of the collection give two different rankings. *)
Lemma leaderboard_not_deterministic : ¬ leaderboard_deterministic.
Proof.
  intros Hd.
  specialize (Hd id reverse 10%nat "totalPoints" tieDb 0 scanOrder_id scanOrder_reverse).
  vm_compute in Hd. discriminate.
Qed.

(** C9, amended. With the store working, [getLeaderboard] returns rows
    ranked 1, 2, ... whose metric values are in descending order, and
    whatever the scan order of the store, two runs on the same user data
    return the same sequence of metric values; only the order among users
    with equal values is left to the store. [getUserRank] depends on the
    user data alone and gives two users with equal points the same rank. *)
Theorem getLeaderboard_up_to_ties no1 no2 limit metric d t :
  scanOrder no1 → scanOrder no2 →
  ∃ rows1 rows2,
    getLeaderboard no1 limit metric (quiet d t) = (Ok rows1, quiet d t)
    ∧ getLeaderboard no2 limit metric (quiet d t) = (Ok rows2, quiet d t)
    ∧ Sorted largerFirst (rowCriteria metric <$> rows1)
    ∧ rank <$> rows1 = (λ i, Z.of_nat i + 1) <$> seq 0 (length rows1)
    ∧ rowCriteria metric <$> rows1 = rowCriteria metric <$> rows2
    ∧ (∀ userId t', getUserRank userId metric (quiet d t')
                    = ((getUserRank userId metric (quiet d t)).1, quiet d t'))
    ∧ (∀ userId1 userId2 user1 user2,
         users d !! userId1 = Some user1 → users d !! userId2 = Some user2 →
         totalPoints user1 = totalPoints user2 →
         (getUserRank userId1 "totalPoints" (quiet d t)).1
         = (getUserRank userId2 "totalPoints" (quiet d t)).1).
Proof.
  intros H1 H2. rewrite !getLeaderboard_quiet. do 2 eexists.
  split; [reflexivity|]. split; [reflexivity|].
  rewrite !rowCriteria_rows. split; [|split; [|split; [|split]]].
  - apply (Sorted_fmap _ (descending (sortCriteria metric))); [done|].
    apply Sorted_limited, Sorted_merge_sort, _.
  - rewrite fmap_imap, length_imap, <- imap_seq_0. by apply imap_ext.
  - destruct limit as [|n]; simpl.
    + by apply sortedActive_values.
    + rewrite !fmap_take. f_equal. by apply sortedActive_values.
  - intros userId t'. destruct (users d !! userId) as [user|] eqn:Hu.
    + by rewrite !(getUserRank_quiet _ _ _ _ _ Hu).
    + unfold getUserRank. unfold_store. simpl. by rewrite Hu.
  - intros userId1 userId2 user1 user2 Hu1 Hu2 Hp.
    rewrite (getUserRank_quiet _ _ _ _ _ Hu1), (getUserRank_quiet _ _ _ _ _ Hu2).
    simpl. unfold rankOf_spec. by rewrite Hp.
Qed.

Lemma getLeaderboard_up_to_ties_witness :
  ∃ rows1 rows2,
    getLeaderboard id 10 "totalPoints" (quiet tieDb 0) = (Ok rows1, quiet tieDb 0)
    ∧ getLeaderboard reverse 10 "totalPoints" (quiet tieDb 0) = (Ok rows2, quiet tieDb 0)
    ∧ Sorted largerFirst (rowCriteria "totalPoints" <$> rows1)
    ∧ rank <$> rows1 = (λ i, Z.of_nat i + 1) <$> seq 0 (length rows1)
    ∧ rowCriteria "totalPoints" <$> rows1 = rowCriteria "totalPoints" <$> rows2
    ∧ (∀ userId t', getUserRank userId "totalPoints" (quiet tieDb t')
                    = ((getUserRank userId "totalPoints" (quiet tieDb 0)).1, quiet tieDb t'))
    ∧ (∀ userId1 userId2 user1 user2,
         users tieDb !! userId1 = Some user1 → users tieDb !! userId2 = Some user2 →
         totalPoints user1 = totalPoints user2 →
         (getUserRank userId1 "totalPoints" (quiet tieDb 0)).1
         = (getUserRank userId2 "totalPoints" (quiet tieDb 0)).1).
Proof.
  exact (getLeaderboard_up_to_ties id reverse 10%nat "totalPoints" tieDb 0
           scanOrder_id scanOrder_reverse).
Defined.

(** * What the engine keeps, under any fault plan *)

(** ** A program logic for the store monad *)

(** [m], run from a store satisfying [P] under any fault plan, ends in a
    store satisfying [Q a] when it returns [a] and [E] when it throws. *)
Definition hoare {A} (P : DB → Prop) (m : M A) (Q : A → DB → Prop) (E : DB → Prop) : Prop :=
  ∀ w, P (db w) →
       match (m w).1 with
       | Ok a => Q a (db (m w).2)
       | Throw _ => E (db (m w).2)
       end.

(** [m] writes nothing, whatever the fault plan. *)
Definition readonly {A} (m : M A) : Prop := ∀ w, db (m w).2 = db w.

Lemma hoare_ret {A} (P : DB → Prop) (a : A) Q E :
  (∀ d, P d → Q a d) → hoare P (ret a) Q E.
Proof. intros H w Hp. simpl. auto. Qed.

Lemma hoare_throw {A} (P : DB → Prop) e (Q : A → DB → Prop) (E : DB → Prop) :
  (∀ d, P d → E d) → hoare P (throw e) Q E.
Proof. intros H w Hp. simpl. auto. Qed.

Lemma hoare_bind {A B} P (m : M A) (k : A → M B) Q' Q E :
  hoare P m Q' E → (∀ a, hoare (Q' a) (k a) Q E) → hoare P (bind m k) Q E.
Proof.
  intros Hm Hk w Hp. unfold bind. specialize (Hm w Hp).
  destruct (m w) as [[a|e] w1]; simpl in *; [|done].
  by apply Hk.
Qed.

Lemma hoare_try {A} P (m : M A) (h : Error → M A) Q E' E :
  hoare P m Q E' → (∀ e, hoare E' (h e) Q E) → hoare P (try_catch m h) Q E.
Proof.
  intros Hm Hh w Hp. unfold try_catch. specialize (Hm w Hp).
  destruct (m w) as [[a|e] w1]; simpl in *; [done|].
  by apply Hh.
Qed.

Lemma hoare_conseq {A} (P P' : DB → Prop) (m : M A) (Q Q' : A → DB → Prop) (E E' : DB → Prop) :
  hoare P' m Q' E' → (∀ d, P d → P' d) → (∀ a d, Q' a d → Q a d) → (∀ d, E' d → E d) →
  hoare P m Q E.
Proof.
  intros Hm Hp Hq He w Hw. specialize (Hm w (Hp _ Hw)).
  destruct ((m w).1); auto.
Qed.

Lemma hoare_newDate P : hoare P newDate (λ _, P) P.
Proof. intros w Hp. done. Qed.

Lemma hoare_query {A} P (f : DB → A) :
  hoare P (query f) (λ a d, P d ∧ a = f d) P.
Proof.
  intros w Hp. destruct (query f w) as [r w'] eqn:E.
  apply query_inv in E as (Hd & _ & Hr). simpl. rewrite Hd.
  destruct r as [a|e]; [|done]. split; [done|]. by apply Hr.
Qed.

Lemma hoare_update P f :
  hoare P (update f) (λ _ d, ∃ d0 t, P d0 ∧ d = f d0 t) P.
Proof.
  intros w Hp. destruct (update f w) as [r w'] eqn:E.
  apply update_inv in E as (_ & Hr). simpl.
  destruct r; rewrite Hr; eauto.
Qed.

Lemma hoare_readonly {A} P (m : M A) : readonly m → hoare P m (λ _, P) P.
Proof. intros Hm w Hp. rewrite <- (Hm w) in Hp. by destruct ((m w).1). Qed.

Lemma readonly_ret {A} (a : A) : readonly (ret a).
Proof. by intros w. Qed.

Lemma readonly_throw {A} e : readonly (@throw A e).
Proof. by intros w. Qed.

Lemma readonly_newDate : readonly newDate.
Proof. by intros w. Qed.

Lemma readonly_bind {A B} (m : M A) (k : A → M B) :
  readonly m → (∀ a, readonly (k a)) → readonly (bind m k).
Proof.
  intros Hm Hk w. unfold bind. specialize (Hm w).
  destruct (m w) as [[a|e] w1]; simpl in *; [|done].
  by rewrite Hk.
Qed.

Lemma readonly_query {A} (f : DB → A) : readonly (query f).
Proof.
  intros w. destruct (query f w) as [r w'] eqn:E.
  by apply query_inv in E as (Hd & _).
Qed.

Lemma readonly_try {A} (m : M A) h :
  readonly m → (∀ e, readonly (h e)) → readonly (try_catch m h).
Proof.
  intros Hm Hh w. unfold try_catch. specialize (Hm w).
  destruct (m w) as [[a|e] w1]; simpl in *; [done|].
  by rewrite Hh.
Qed.

Lemma readonly_waterStreakLoop fuel userId checkDate streak :
  readonly (waterStreakLoop fuel userId checkDate streak).
Proof.
  revert checkDate streak. induction fuel as [|fuel IH]; intros; simpl.
  - apply readonly_ret.
  - apply readonly_bind; [apply readonly_query|]. intros [e|]; [|apply readonly_ret].
    destruct (2000 <=? bd_value e); [apply IH | apply readonly_ret].
Qed.

Lemma readonly_calculateWaterStreak userId : readonly (calculateWaterStreak userId).
Proof.
  unfold calculateWaterStreak.
  apply readonly_bind; [apply readonly_query|]. intros _.
  apply readonly_bind; [apply readonly_newDate|]. intros now.
  apply readonly_waterStreakLoop.
Qed.

Lemma readonly_checkStreakBadge userId badge : readonly (checkStreakBadge userId badge).
Proof.
  unfold checkStreakBadge.
  apply readonly_bind; [apply readonly_query|]. intros user.
  destruct (String.eqb _ _); [destruct user; [apply readonly_ret | apply readonly_throw]|].
  destruct (String.eqb _ _); [|apply readonly_ret].
  apply readonly_bind; [apply readonly_calculateWaterStreak|]. intros ?. apply readonly_ret.
Qed.

Lemma readonly_checkCountBadge userId badge : readonly (checkCountBadge userId badge).
Proof.
  unfold checkCountBadge.
  repeat (destruct (String.eqb _ _);
          [apply readonly_bind; [apply readonly_query | intros ?; apply readonly_ret]|]).
  apply readonly_ret.
Qed.

Lemma readonly_checkValueBadge userId badge : readonly (checkValueBadge userId badge).
Proof.
  unfold checkValueBadge.
  apply readonly_bind; [apply readonly_query|]. intros _.
  destruct (String.eqb _ _); [|apply readonly_ret].
  apply readonly_bind; [apply readonly_query|]. intros f.
  apply readonly_bind; [apply readonly_query|]. intros l.
  destruct f, l; apply readonly_ret.
Qed.

Lemma readonly_checkCustomBadge userId badge : readonly (checkCustomBadge userId badge).
Proof.
  unfold checkCustomBadge.
  apply readonly_bind; [apply readonly_query|]. intros _.
  repeat (destruct (String.eqb _ _);
          [apply readonly_bind; [apply readonly_query | intros ?; apply readonly_ret]|]).
  apply readonly_ret.
Qed.

Lemma readonly_checkCriteria userId badge : readonly (checkCriteria userId badge).
Proof.
  unfold checkCriteria. destruct (criteria_type badge).
  - apply readonly_checkStreakBadge.
  - apply readonly_checkCountBadge.
  - apply readonly_checkValueBadge.
  - apply readonly_checkCustomBadge.
Qed.

(** The user records and the catalog of a store. *)
Definition frame (us : gmap UserId User) (c : list Badge) (d : DB) : Prop :=
  users d = us ∧ badgeCatalog d = c.

Lemma hoare_pure {A} (φ : Prop) P (m : M A) Q E :
  (φ → hoare P m Q E) → hoare (λ d, P d ∧ φ) m Q E.
Proof. intros H w [Hp Hφ]. by apply H. Qed.

Lemma hoare_findById userId us c :
  hoare (frame us c) (User_findById userId)
    (λ o d, frame us c d ∧ o = us !! userId) (frame us c).
Proof.
  eapply hoare_conseq; [apply hoare_query | done | | done].
  simpl. intros o d [[Hu Hc] ->]. by rewrite Hu.
Qed.

Lemma hoare_save userId user us c :
  hoare (frame us c) (User_save userId user)
    (λ _, frame (<[userId := user]> us) c) (frame us c).
Proof.
  eapply hoare_conseq; [apply hoare_update | done | | done].
  simpl. intros _ d (d0 & t & [Hu Hc] & ->). split; simpl; congruence.
Qed.

Lemma hoare_ActivityLog_create a us c :
  hoare (frame us c) (ActivityLog_create a) (λ _, frame us c) (frame us c).
Proof.
  eapply hoare_conseq; [apply hoare_update | done | | done].
  simpl. intros _ d (d0 & t & [Hu Hc] & ->). by split.
Qed.

Lemma hoare_Notification_create n us c :
  hoare (frame us c) (Notification_create n) (λ _, frame us c) (frame us c).
Proof.
  eapply hoare_conseq; [apply hoare_update | done | | done].
  simpl. intros _ d (d0 & t & [Hu Hc] & ->). by split.
Qed.

Lemma set_totalPoints_same u : set_totalPoints (totalPoints u + 0) u = u.
Proof. destruct u. unfold set_totalPoints. simpl. f_equal. lia. Qed.

Lemma milestoneBonus_includes s :
  includes [7; 30; 100] s = false → milestoneBonus s = 0.
Proof.
  unfold includes, milestoneBonus. simpl.
  destruct (s =? 7), (s =? 30), (s =? 100); simpl; done.
Qed.

Lemma hoare_checkStreakMilestones userId user us c :
  hoare (frame us c) (checkStreakMilestones userId user)
    (λ u' d, frame us c d
             ∧ u' = set_totalPoints
                      (totalPoints user + milestoneBonus (currentWorkoutStreak user)) user)
    (frame us c).
Proof.
  unfold checkStreakMilestones.
  destruct (includes milestones (currentWorkoutStreak user)) eqn:Hm.
  - eapply hoare_bind; [apply hoare_Notification_create|]. intros ?.
    destruct (includes [7; 30; 100] (currentWorkoutStreak user)) eqn:Hb.
    + cbv zeta. eapply hoare_bind; [apply hoare_ActivityLog_create|]. intros ?.
      apply hoare_ret. intros d Hf. split; [done|].
      unfold milestoneBonus. unfold includes in Hb. simpl in Hb.
      destruct (currentWorkoutStreak user =? 7); [done|].
      destruct (currentWorkoutStreak user =? 30); [done|].
      destruct (currentWorkoutStreak user =? 100); [done|].
      discriminate.
    + apply hoare_ret. intros d Hf. split; [done|].
      by rewrite (milestoneBonus_includes _ Hb), set_totalPoints_same.
  - apply hoare_ret. intros d Hf. split; [done|].
    rewrite milestoneBonus_includes, set_totalPoints_same; [done|].
    unfold includes, milestones in *. simpl in *.
    destruct (currentWorkoutStreak user =? 7); [by rewrite orb_true_r in Hm|].
    destruct (currentWorkoutStreak user =? 30); [by rewrite !orb_true_r in Hm|].
    destruct (currentWorkoutStreak user =? 100); [by rewrite !orb_true_r in Hm|].
    done.
Qed.

(** What a stored record becomes when a qualifying update goes through. *)
Definition streakAdvanced (u u' : User) : Prop :=
  name u' = name u ∧ accountStatus u' = accountStatus u ∧ badges u' = badges u
  ∧ (currentWorkoutStreak u' = currentWorkoutStreak u + 1 ∨ currentWorkoutStreak u' = 1)
  ∧ longestWorkoutStreak u' = Z.max (longestWorkoutStreak u) (currentWorkoutStreak u')
  ∧ totalPoints u' = totalPoints u + milestoneBonus (currentWorkoutStreak u')
  ∧ is_Some (lastWorkoutDate u').

Lemma hoare_updateWorkoutStreak userId us c :
  hoare (frame us c) (updateWorkoutStreak userId)
    (λ s d, (frame us c d ∧ ∃ u, us !! userId = Some u ∧ s = currentWorkoutStreak u)
            ∨ ∃ u u', us !! userId = Some u ∧ streakAdvanced u u'
                      ∧ s = currentWorkoutStreak u'
                      ∧ frame (<[userId := u']> us) c d)
    (frame us c).
Proof.
  unfold updateWorkoutStreak.
  eapply hoare_try; [|intros e; by apply hoare_throw].
  eapply hoare_bind; [apply hoare_findById|]. intros o. apply hoare_pure. intros ->.
  destruct (us !! userId) as [user|] eqn:Hu; [|by apply hoare_throw].
  eapply hoare_bind; [apply hoare_newDate|]. intros now.
  eapply hoare_bind; [apply hoare_newDate|]. intros now1.
  eapply hoare_bind; [apply hoare_readonly, readonly_query|]. intros todayWorkout.
  destruct (loggedToday user (startOfDay now)).
  { apply hoare_ret. intros d Hf. left. eauto. }
  eapply hoare_bind; [apply hoare_readonly, readonly_query|]. intros yesterdayWorkout.
  destruct (isSome todayWorkout); [|apply hoare_ret; intros d Hf; left; eauto].
  cbv zeta.
  eapply hoare_bind; [apply hoare_newDate|]. intros now2.
  eapply hoare_bind; [apply hoare_checkStreakMilestones|]. intros user'.
  apply hoare_pure. intros ->.
  eapply hoare_bind; [apply hoare_save|]. intros ?.
  apply hoare_ret. intros d Hf. right.
  eexists user, _. split; [done|]. split; [|split; [reflexivity | exact Hf]].
  destruct user as [un uc ul up ub ulw ust]. unfold streakAdvanced. simpl.
  destruct (isSome yesterdayWorkout || negb (isSome ulw)); simpl;
    match goal with |- context [?x <? ?y] => destruct (Z.ltb_spec x y) end; simpl;
    repeat split; eauto; lia.
Qed.

Lemma hoare_checkAndResetStreak userId us c :
  hoare (frame us c) (checkAndResetStreak userId)
    (λ _ d, frame us c d
            ∨ ∃ u, us !! userId = Some u ∧ 0 < currentWorkoutStreak u
                   ∧ frame (<[userId := set_currentWorkoutStreak 0 u]> us) c d)
    (λ _, False).
Proof.
  unfold checkAndResetStreak.
  eapply hoare_try; [|intros e; apply hoare_ret; intros d Hd; exact Hd].
  eapply hoare_bind.
  { eapply hoare_conseq; [apply hoare_findById | done | done |]. intros d Hd. left. exact Hd. }
  intros o. apply hoare_pure. intros ->.
  destruct (us !! userId) as [user|] eqn:Hu; [|apply hoare_ret; by left].
  destruct (lastWorkoutDate user) as [lwd|]; [|apply hoare_ret; by left].
  cbv zeta.
  eapply hoare_bind.
  { eapply hoare_conseq; [apply hoare_newDate | done | done |]. intros d Hd. left. exact Hd. }
  intros now.
  destruct (1 <? _); simpl; [|apply hoare_ret; by left].
  destruct (Z.ltb_spec 0 (currentWorkoutStreak user)); simpl; [|apply hoare_ret; by left].
  eapply hoare_bind.
  { eapply hoare_conseq; [apply hoare_save | done | done |]. intros d Hd. left. exact Hd. }
  intros ?.
  eapply hoare_conseq; [apply hoare_Notification_create | done | |];
    simpl; intros; right; eauto.
Qed.

Lemma hoare_awardPoints userId points reason us c :
  hoare (frame us c) (awardPoints userId points reason)
    (λ total d, ∃ u, us !! userId = Some u ∧ total = totalPoints u + points
                     ∧ frame (<[userId := set_totalPoints (totalPoints u + points) u]> us) c d)
    (λ d, frame us c d
          ∨ ∃ u, us !! userId = Some u
                 ∧ frame (<[userId := set_totalPoints (totalPoints u + points) u]> us) c d).
Proof.
  unfold awardPoints.
  eapply hoare_try; [|intros e; apply hoare_throw; intros d Hd; exact Hd].
  eapply hoare_bind.
  { eapply hoare_conseq; [apply hoare_findById | done | done |]. intros d Hd. by left. }
  intros o. apply hoare_pure. intros ->.
  destruct (us !! userId) as [user|] eqn:Hu; [|apply hoare_throw; by left].
  cbv zeta.
  eapply hoare_bind.
  { eapply hoare_conseq; [apply hoare_save | done | done |]. intros d Hd. by left. }
  intros ?.
  eapply hoare_bind.
  { eapply hoare_conseq; [apply hoare_ActivityLog_create | done | done |].
    intros d Hd. right. eauto. }
  intros ?. apply hoare_ret. intros d Hd. eauto.
Qed.

(** ** Badge evaluation *)

Definition pointsOf (l : list Badge) : Z := foldr (λ b acc, b_points b + acc) 0 l.

(** [u'] is [u] with the badges [awarded] appended, in order, and their
    points added. *)
Definition awardedTo (u u' : User) (awarded : list Badge) : Prop :=
  name u' = name u ∧ accountStatus u' = accountStatus u
  ∧ currentWorkoutStreak u' = currentWorkoutStreak u
  ∧ longestWorkoutStreak u' = longestWorkoutStreak u
  ∧ lastWorkoutDate u' = lastWorkoutDate u
  ∧ (∃ extra, badges u' = badges u ++ extra ∧ badgeId <$> extra = b_id <$> awarded)
  ∧ totalPoints u' = totalPoints u + pointsOf awarded.

Lemma awardedTo_nil u : awardedTo u u [].
Proof.
  unfold awardedTo. repeat split; [|simpl; lia].
  exists []. by rewrite app_nil_r.
Qed.

Lemma awardedTo_cons u u' b t awarded :
  awardedTo
    (set_totalPoints (totalPoints u + b_points b)
       (set_badges (badges u ++ [mkEarnedBadge (b_id b) t]) u)) u' awarded →
  awardedTo u u' (b :: awarded).
Proof.
  unfold awardedTo. simpl. intros (Hn & Ha & Hc & Hl & Hw & (extra & Hb & Hi) & Hp).
  repeat split; try done.
  - exists (mkEarnedBadge (b_id b) t :: extra). split.
    + by rewrite Hb, <- app_assoc.
    + by rewrite !fmap_cons, Hi.
  - lia.
Qed.

Lemma includesId_false l x : includesId l x = false ↔ x ∉ l.
Proof.
  unfold includesId. induction l as [|y l IH]; simpl.
  - split; [intros _; apply not_elem_of_nil | done].
  - rewrite not_elem_of_cons, orb_false_iff, IH, Nat.eqb_neq. done.
Qed.

Lemma hoare_awardLoop userId earned us c allBadges :
  ∀ user newBadgesEarned,
  hoare (frame us c) (awardLoop userId earned allBadges user newBadgesEarned)
    (λ r d, frame us c d
            ∧ ∃ awarded, r.2 = newBadgesEarned ++ awarded
                         ∧ awardedTo user r.1 awarded
                         ∧ sublist awarded allBadges
                         ∧ Forall (λ b, b_id b ∉ earned) awarded)
    (frame us c).
Proof.
  induction allBadges as [|badge rest IH]; intros user new; simpl.
  - apply hoare_ret. intros d Hd. split; [done|]. exists []. simpl.
    rewrite app_nil_r. split; [done|]. split; [apply awardedTo_nil|]. split; constructor.
  - assert (Hskip :
      hoare (frame us c) (awardLoop userId earned rest user new)
        (λ r d, frame us c d
                ∧ ∃ awarded, r.2 = new ++ awarded ∧ awardedTo user r.1 awarded
                             ∧ sublist awarded (badge :: rest)
                             ∧ Forall (λ b, b_id b ∉ earned) awarded)
        (frame us c)).
    { eapply hoare_conseq; [apply IH | done | | done]. simpl.
      intros r d (Hd & awarded & ? & ? & ? & ?). split; [done|].
      exists awarded. split; [done|]. split; [done|].
      split; [by apply sublist_cons | done]. }
    destruct (includesId earned (b_id badge)) eqn:Hin; [exact Hskip|].
    eapply hoare_bind; [apply hoare_readonly, readonly_checkCriteria|].
    intros [|]; [|exact Hskip].
    eapply hoare_bind; [apply hoare_newDate|]. intros now. cbv zeta.
    eapply hoare_bind; [apply hoare_Notification_create|]. intros ?.
    eapply hoare_bind; [apply hoare_ActivityLog_create|]. intros ?.
    eapply hoare_conseq; [apply IH | done | | done]. simpl.
    intros r d (Hd & awarded & Hr & Haw & Hsub & Hall). split; [done|].
    exists (badge :: awarded). rewrite Hr, <- app_assoc. split; [done|].
    split; [by eapply awardedTo_cons|]. split; [by apply sublist_skip|].
    constructor; [by apply includesId_false | done].
Qed.

(** What [checkAndAwardBadges] does to the user records, under any fault
    plan. *)
Lemma hoare_checkAndAwardBadges userId us c :
  hoare (frame us c) (checkAndAwardBadges userId)
    (λ l d, (l = [] ∧ frame us c d)
            ∨ ∃ u u', us !! userId = Some u ∧ l ≠ [] ∧ awardedTo u u' l
                      ∧ sublist l (List.filter isActive c)
                      ∧ Forall (λ b, b_id b ∉ badgeId <$> badges u) l
                      ∧ frame (<[userId := u']> us) c d)
    (λ _, False).
Proof.
  unfold checkAndAwardBadges, checkAndAwardBadges_try.
  eapply hoare_try; [|intros e; apply hoare_ret; intros d Hd; left; split; [done | exact Hd]].
  eapply hoare_bind; [apply hoare_findById|]. intros o. apply hoare_pure. intros ->.
  destruct (us !! userId) as [user|] eqn:Hu; [|by apply hoare_throw].
  eapply hoare_bind; [apply hoare_query|]. intros allBadges.
  cbv zeta.
  eapply hoare_conseq with (P' := λ d, frame us c d ∧ allBadges = List.filter isActive c);
    [| | intros a d H; exact H | intros d H; exact H].
  2:{ intros d [[Hus Hc] ->]. split; [done|]. by rewrite Hc. }
  apply hoare_pure. intros ->.
  eapply hoare_bind; [apply hoare_awardLoop|]. intros [user' new]. simpl.
  eapply hoare_conseq
    with (P' := λ d, frame us c d
                     ∧ ∃ awarded, new = awarded ∧ awardedTo user user' awarded
                                  ∧ sublist awarded (List.filter isActive c)
                                  ∧ Forall (λ b, b_id b ∉ map badgeId (badges user)) awarded);
    [| intros d H; exact H | intros a d H; exact H | intros d H; exact H].
  apply hoare_pure. intros (awarded & -> & Haw & Hsub & Hall).
  destruct awarded as [|b awarded]; simpl.
  - eapply hoare_bind; [apply hoare_readonly, readonly_ret|]. intros ?.
    apply hoare_ret. intros d Hd. by left.
  - eapply hoare_bind; [apply hoare_save|]. intros ?.
    apply hoare_ret. intros d Hd. right. exists user, user'.
    split; [done|]. split; [done|]. split; [done|]. split; [done|]. split; done.
Qed.

(** ** Runs of the engine *)

Inductive EngineOp :=
  | OpQualifyingEvent (userId : UserId)                        (* updateWorkoutStreak *)
  | OpSweep (userId : UserId)                                  (* checkAndResetStreak *)
  | OpCredit (userId : UserId) (points : Z) (reason : string)  (* awardPoints *)
  | OpEvaluate (userId : UserId).                              (* checkAndAwardBadges *)

(** Callers credit non-negative amounts only. *)
Definition opAllowed (o : EngineOp) : Prop :=
  match o with
  | OpCredit _ points _ => 0 ≤ points
  | _ => True
  end.

Definition runOp (o : EngineOp) (w : World) : World :=
  match o with
  | OpQualifyingEvent userId => (updateWorkoutStreak userId w).2
  | OpSweep userId => (checkAndResetStreak userId w).2
  | OpCredit userId points reason => (awardPoints userId points reason w).2
  | OpEvaluate userId => (checkAndAwardBadges userId w).2
  end.

(** The worlds a run of the engine can be in: operations under any fault
    plan, interleaved with what the rest of the application does (time
    passing, ledger, goal and biometric entries, notifications read or
    deleted, users registering with the schema defaults). *)
Inductive reachable (w0 : World) : World → Prop :=
  | reach_start : reachable w0 w0
  | reach_op w o : reachable w0 w → opAllowed o → reachable w0 (runOp o w)
  | reach_env w w' :
      reachable w0 w → users (db w') = users (db w) →
      badgeCatalog (db w') = badgeCatalog (db w) → reachable w0 w'
  | reach_register w w' userId n :
      reachable w0 w → users (db w) !! userId = None →
      users (db w') = <[userId := newUser n]> (users (db w)) →
      badgeCatalog (db w') = badgeCatalog (db w) → reachable w0 w'.

(** The ways an operation rewrites one user record. *)
Inductive userChange (c : list Badge) : User → User → Prop :=
  | change_advance u u' : streakAdvanced u u' → userChange c u u'
  | change_reset u :
      0 < currentWorkoutStreak u → userChange c u (set_currentWorkoutStreak 0 u)
  | change_credit u points :
      0 ≤ points → userChange c u (set_totalPoints (totalPoints u + points) u)
  | change_award u u' l :
      awardedTo u u' l → sublist l (List.filter isActive c) →
      Forall (λ b, b_id b ∉ badgeId <$> badges u) l → userChange c u u'.

(** An operation leaves the catalog alone and rewrites at most the record
    of its user, in one of the four ways. *)
Lemma runOp_change o w :
  opAllowed o →
  badgeCatalog (db (runOp o w)) = badgeCatalog (db w)
  ∧ (users (db (runOp o w)) = users (db w)
     ∨ ∃ userId u u', users (db w) !! userId = Some u
                      ∧ userChange (badgeCatalog (db w)) u u'
                      ∧ users (db (runOp o w)) = <[userId := u']> (users (db w))).
Proof.
  intros Hok. destruct o as [userId|userId|userId points reason|userId]; simpl.
  - pose proof (hoare_updateWorkoutStreak userId _ _ w (conj eq_refl eq_refl)) as H.
    destruct ((updateWorkoutStreak userId w).1) as [s|e].
    + destruct H as [[[Hu Hc] _]|(u & u' & Hu & Hadv & _ & Hu' & Hc)]; [by auto|].
      split; [done|]. right. exists userId, u, u'. eauto using userChange.
    + destruct H as [Hu Hc]. auto.
  - pose proof (hoare_checkAndResetStreak userId _ _ w (conj eq_refl eq_refl)) as H.
    destruct ((checkAndResetStreak userId w).1) as [s|e]; [|done].
    destruct H as [[Hu Hc]|(u & Hu & Hpos & Hu' & Hc)]; [by auto|].
    split; [done|]. right. exists userId, u, (set_currentWorkoutStreak 0 u).
    eauto using userChange.
  - pose proof (hoare_awardPoints userId points reason _ _ w (conj eq_refl eq_refl)) as H.
    destruct ((awardPoints userId points reason w).1) as [s|e].
    + destruct H as (u & Hu & _ & Hu' & Hc). split; [done|]. right.
      exists userId, u, (set_totalPoints (totalPoints u + points) u).
      eauto using userChange.
    + destruct H as [[Hu Hc]|(u & Hu & Hu' & Hc)]; [by auto|]. split; [done|]. right.
      exists userId, u, (set_totalPoints (totalPoints u + points) u).
      eauto using userChange.
  - pose proof (hoare_checkAndAwardBadges userId _ _ w (conj eq_refl eq_refl)) as H.
    destruct ((checkAndAwardBadges userId w).1) as [l|e]; [|done].
    destruct H as [[_ [Hu Hc]]|(u & u' & Hu & _ & Haw & Hsub & Hall & Hu' & Hc)];
      [by auto|].
    split; [done|]. right. exists userId, u, u'. eauto using userChange.
Qed.

(** A property of user records that every rewriting keeps, and that the
    schema defaults have, holds throughout a run. *)
Lemma reachable_users (I : list Badge → Prop) (P : User → Prop) w0 w :
  (∀ c u u', I c → userChange c u u' → P u → P u') →
  (∀ n, P (newUser n)) →
  reachable w0 w →
  I (badgeCatalog (db w0)) →
  (∀ userId u, users (db w0) !! userId = Some u → P u) →
  I (badgeCatalog (db w)) ∧ ∀ userId u, users (db w) !! userId = Some u → P u.
Proof.
  intros Hch Hnew Hr Hc0 Hu0.
  induction Hr as [|w o Hr [IHc IHu] Hok|w w' Hr [IHc IHu] Hu Hc
                  |w w' userId n Hr [IHc IHu] Hfresh Hu Hc].
  - done.
  - destruct (runOp_change o w Hok) as [Hc [Hu|(uid & u & u' & Hlk & Hchg & Hu)]];
      rewrite Hc, Hu; split; try done.
    intros uid' v. destruct (decide (uid = uid')) as [<-|Hne].
    + rewrite lookup_insert_eq. intros [= <-]. eauto.
    + rewrite lookup_insert_ne by done. apply IHu.
  - rewrite Hc, Hu. done.
  - rewrite Hc, Hu. split; [done|]. intros uid' v.
    destruct (decide (userId = uid')) as [<-|Hne].
    + rewrite lookup_insert_eq. by intros [= <-].
    + rewrite lookup_insert_ne by done. apply IHu.
Qed.

Definition userOk (u : User) : Prop :=
  0 ≤ currentWorkoutStreak u ≤ longestWorkoutStreak u ∧ 0 ≤ totalPoints u.

Definition catalogOk (c : list Badge) : Prop := Forall (λ b, 0 ≤ b_points b) c.

Lemma milestoneBonus_nonneg s : 0 ≤ milestoneBonus s.
Proof. unfold milestoneBonus. repeat destruct (s =? _); lia. Qed.

Lemma pointsOf_nonneg l : Forall (λ b, 0 ≤ b_points b) l → 0 ≤ pointsOf l.
Proof. induction 1; simpl; lia. Qed.

Lemma awarded_nonneg c l :
  catalogOk c → sublist l (List.filter isActive c) → 0 ≤ pointsOf l.
Proof.
  intros Hc Hsub. apply pointsOf_nonneg.
  apply Forall_forall. intros b Hb.
  assert (Hin : b ∈ List.filter isActive c) by (eapply sublist_submseteq, elem_of_submseteq in Hsub; eauto).
  apply list_elem_of_In, filter_In in Hin as [Hin _].
  apply list_elem_of_In in Hin.
  by apply (proj1 (Forall_forall _ _) Hc).
Qed.

Lemma userChange_ok c u u' : catalogOk c → userChange c u u' → userOk u → userOk u'.
Proof.
  intros Hc Hch [[H0 Hl] Hp]. unfold userOk.
  destruct Hch as [u u' (_ & _ & _ & Hcur & Hlong & Hpts & _)|u Hpos|u p Hp'
                  |u u' l (_ & _ & Hcur & Hlong & _ & _ & Hpts) Hsub _]; simpl.
  - pose proof (milestoneBonus_nonneg (currentWorkoutStreak u')). lia.
  - lia.
  - lia.
  - pose proof (awarded_nonneg _ _ Hc Hsub). lia.
Qed.

(** X1. Along any run of the engine (streak updates, sweeps, credits of
    non-negative amounts, badge evaluations, under any fault plan), from a
    store whose records satisfy it and whose catalog rewards are not
    negative, every record keeps 0 <= currentWorkoutStreak <=
    longestWorkoutStreak and 0 <= totalPoints. *)
Theorem engine_keeps_progress_invariant w0 w :
  catalogOk (badgeCatalog (db w0)) →
  (∀ userId u, users (db w0) !! userId = Some u → userOk u) →
  reachable w0 w →
  ∀ userId u, users (db w) !! userId = Some u →
    0 ≤ currentWorkoutStreak u ≤ longestWorkoutStreak u ∧ 0 ≤ totalPoints u.
Proof.
  intros Hc Hu Hr.
  refine (proj2 (reachable_users catalogOk userOk w0 w _ _ Hr Hc Hu)).
  - intros c u u' ?. by apply userChange_ok.
  - intros n. unfold userOk. simpl. lia.
Qed.

(** What an engine run never undoes on a record. *)
Definition userEvolves (u u' : User) : Prop :=
  name u' = name u ∧ accountStatus u' = accountStatus u
  ∧ totalPoints u ≤ totalPoints u'
  ∧ longestWorkoutStreak u ≤ longestWorkoutStreak u'
  ∧ badges u `prefix_of` badges u'.

Lemma userEvolves_refl u : userEvolves u u.
Proof. unfold userEvolves. repeat split; done. Qed.

Lemma userChange_evolves c u0 u u' :
  catalogOk c → userChange c u u' → userEvolves u0 u → userEvolves u0 u'.
Proof.
  intros Hc Hch (Hn & Ha & Hp & Hl & Hb). unfold userEvolves.
  destruct Hch as [u u' (Hn' & Ha' & Hb' & _ & Hlong & Hpts & _)|u Hpos|u p Hp'
                  |u u' l (Hn' & Ha' & _ & Hlong & _ & (extra & Hb' & _) & Hpts) Hsub _];
    simpl.
  - pose proof (milestoneBonus_nonneg (currentWorkoutStreak u')).
    rewrite Hn', Ha', Hb'. repeat split; try done; lia.
  - done.
  - repeat split; try done; lia.
  - pose proof (awarded_nonneg _ _ Hc Hsub).
    rewrite Hn', Ha', Hb'. repeat split; try done; try lia.
    etrans; [exact Hb|]. by apply prefix_app_r.
Qed.

(** X2. An engine run never takes anything back: a user of the initial
    store is still there, with the same name and account status, at least
    the points and the longest streak it had, and its earned badges as a
    prefix of the current ones. *)
Theorem engine_never_loses_progress w0 w :
  catalogOk (badgeCatalog (db w0)) →
  reachable w0 w →
  ∀ userId u0, users (db w0) !! userId = Some u0 →
    ∃ u, users (db w) !! userId = Some u
         ∧ name u = name u0 ∧ accountStatus u = accountStatus u0
         ∧ totalPoints u0 ≤ totalPoints u
         ∧ longestWorkoutStreak u0 ≤ longestWorkoutStreak u
         ∧ badges u0 `prefix_of` badges u.
Proof.
  intros Hc0 Hr.
  assert (H : catalogOk (badgeCatalog (db w))
              ∧ ∀ userId u0, users (db w0) !! userId = Some u0 →
                  ∃ u, users (db w) !! userId = Some u ∧ userEvolves u0 u);
    [|by apply H].
  induction Hr as [|w o Hr [IHc IHu] Hok|w w' Hr [IHc IHu] Hu Hc
                  |w w' userId n Hr [IHc IHu] Hfresh Hu Hc].
  - split; [done|]. intros uid u0 Hu0. exists u0. split; [done | apply userEvolves_refl].
  - destruct (runOp_change o w Hok) as [Hc [Hu|(uid & u & u' & Hlk & Hchg & Hu)]];
      rewrite Hc, Hu; split; try done.
    intros uid' u0 Hu0. destruct (IHu uid' u0 Hu0) as (v & Hv & Hev).
    destruct (decide (uid = uid')) as [<-|Hne].
    + rewrite lookup_insert_eq. exists u'. split; [done|].
      rewrite Hlk in Hv. injection Hv as <-. by eapply userChange_evolves.
    + rewrite lookup_insert_ne by done. eauto.
  - rewrite Hc, Hu. done.
  - rewrite Hc, Hu. split; [done|]. intros uid' u0 Hu0.
    destruct (IHu uid' u0 Hu0) as (v & Hv & Hev).
    rewrite lookup_insert_ne by congruence. eauto.
Qed.

Definition catalogDistinct (c : list Badge) : Prop := NoDup (b_id <$> c).
Definition badgesDistinct (u : User) : Prop := NoDup (badgeId <$> badges u).

Lemma sublist_List_filter {A} (f : A → bool) l : sublist (List.filter f l) l.
Proof.
  induction l as [|x l IH]; simpl; [constructor|].
  destruct (f x); by constructor.
Qed.

Lemma userChange_distinct c u u' :
  catalogDistinct c → userChange c u u' → badgesDistinct u → badgesDistinct u'.
Proof.
  intros Hc Hch Hu. unfold badgesDistinct in *.
  destruct Hch as [u u' (_ & _ & Hb' & _)|u Hpos|u p Hp'
                  |u u' l (_ & _ & _ & _ & _ & (extra & Hb' & Hids) & _) Hsub Hnew];
    simpl; try done.
  - by rewrite Hb'.
  - rewrite Hb', fmap_app, Hids. apply NoDup_app. split; [done|]. split.
    + intros x Hx Hx'. apply list_elem_of_fmap in Hx' as (b & -> & Hb).
      by apply (proj1 (Forall_forall _ _) Hnew b Hb).
    + eapply sublist_NoDup; [exact Hc|]. apply fmap_sublist.
      etrans; [exact Hsub | apply sublist_List_filter].
Qed.

(** X3. With distinct badge ids in the catalog, no run of the engine
    makes a user hold the same badge twice. *)
Theorem engine_keeps_badges_distinct w0 w :
  NoDup (b_id <$> badgeCatalog (db w0)) →
  (∀ userId u, users (db w0) !! userId = Some u → NoDup (badgeId <$> badges u)) →
  reachable w0 w →
  ∀ userId u, users (db w) !! userId = Some u → NoDup (badgeId <$> badges u).
Proof.
  intros Hc Hu Hr.
  refine (proj2 (reachable_users catalogDistinct badgesDistinct w0 w _ _ Hr Hc Hu)).
  - intros c u u'. apply userChange_distinct.
  - intros n. constructor.
Qed.

(** A sample store: one user six days into a streak, two catalog badges,
    workouts in the ledger for yesterday and today. *)
Definition demoCatalog : list Badge :=
  [ mkBadge 1 "First Step" ct_count (Some 1) "workouts_completed" 10 true;
    mkBadge 2 "Week Warrior" ct_streak (Some 7) "workout_streak" 50 true ].

Definition demoDb : DB :=
  mkDB {[ 1%nat := sixUser ]} demoCatalog
    [workoutEntry 1 (day 9 + 3); workoutEntry 1 (day 10 + 3)] [] [] [].

Definition demoWorld : World := quiet demoDb (day 10 + 100).

(** A streak update, then a badge evaluation. *)
Definition demoRun : World :=
  runOp (OpEvaluate 1) (runOp (OpQualifyingEvent 1) demoWorld).

Lemma demoRun_reachable : reachable demoWorld demoRun.
Proof. repeat (apply reach_op; [|exact I]). apply reach_start. Qed.

Lemma demoCatalog_ok : catalogOk (badgeCatalog (db demoWorld)).
Proof. repeat constructor; discriminate. Qed.

Lemma demoCatalog_distinct : NoDup (b_id <$> badgeCatalog (db demoWorld)).
Proof.
  simpl. apply NoDup_cons. split; [|apply NoDup_singleton].
  rewrite list_elem_of_singleton. discriminate.
Qed.

Lemma demoDb_user userId u :
  users (db demoWorld) !! userId = Some u → u = sixUser.
Proof. simpl. intros Hu. by apply lookup_singleton_Some in Hu as [_ <-]. Qed.

(** The record of the sample user after [demoRun]. *)
Definition demoUserAfter : User :=
  mkUser "a" 7 7 200
    [mkEarnedBadge 1 (day 10 + 100); mkEarnedBadge 2 (day 10 + 100)]
    (Some (day 10 + 100)) active.

Lemma demoRun_user : users (db demoRun) !! 1%nat = Some demoUserAfter.
Proof. vm_compute. reflexivity. Qed.

Lemma demoDb_userOk userId u :
  users (db demoWorld) !! userId = Some u → userOk u.
Proof.
  intros Hu. rewrite (demoDb_user _ _ Hu). vm_compute. repeat split; discriminate.
Qed.

Lemma demoDb_badgesDistinct userId u :
  users (db demoWorld) !! userId = Some u → NoDup (badgeId <$> badges u).
Proof. intros Hu. rewrite (demoDb_user _ _ Hu). constructor. Qed.

Lemma engine_keeps_progress_invariant_witness :
  0 ≤ currentWorkoutStreak demoUserAfter ≤ longestWorkoutStreak demoUserAfter
  ∧ 0 ≤ totalPoints demoUserAfter.
Proof.
  exact (engine_keeps_progress_invariant demoWorld demoRun demoCatalog_ok
           demoDb_userOk demoRun_reachable 1%nat demoUserAfter demoRun_user).
Defined.

Lemma engine_never_loses_progress_witness :
  ∃ u, users (db demoRun) !! 1%nat = Some u
       ∧ name u = name sixUser ∧ accountStatus u = accountStatus sixUser
       ∧ totalPoints sixUser ≤ totalPoints u
       ∧ longestWorkoutStreak sixUser ≤ longestWorkoutStreak u
       ∧ badges sixUser `prefix_of` badges u.
Proof.
  exact (engine_never_loses_progress demoWorld demoRun demoCatalog_ok
           demoRun_reachable 1%nat sixUser eq_refl).
Defined.

Lemma engine_keeps_badges_distinct_witness :
  NoDup (badgeId <$> badges demoUserAfter).
Proof.
  exact (engine_keeps_badges_distinct demoWorld demoRun demoCatalog_distinct
           demoDb_badgesDistinct demoRun_reachable 1%nat demoUserAfter demoRun_user).
Defined.

(** ** Single operations under store failures *)

(** X4. Whatever the store does, a call of [updateWorkoutStreak] that
    returns gives the streak that is stored for the user after the call,
    and a call that throws has left every user record untouched. *)
Theorem updateWorkoutStreak_result (userId : UserId) (w : World) :
  match (updateWorkoutStreak userId w).1 with
  | Ok s =>
      ∃ u', users (db (updateWorkoutStreak userId w).2) !! userId = Some u'
            ∧ s = currentWorkoutStreak u'
  | Throw _ => users (db (updateWorkoutStreak userId w).2) = users (db w)
  end.
Proof.
  pose proof (hoare_updateWorkoutStreak userId _ _ w (conj eq_refl eq_refl)) as H.
  destruct ((updateWorkoutStreak userId w).1) as [s|e].
  - destruct H as [[[Hu _] (u & Hlk & ->)]|(u & u' & Hlk & _ & -> & Hu & _)].
    + exists u. by rewrite Hu.
    + exists u'. by rewrite Hu, lookup_insert_eq.
  - apply H.
Qed.

(** X5. Whatever the store does, [checkAndAwardBadges] either returns the
    empty list and leaves every user record untouched, or returns a
    non-empty list of active catalog badges, in catalog order, none of
    which the user held; then the user's record, and no other, is
    rewritten: these badges are appended to the earned list in that order,
    their points are added to totalPoints, and name, status, streaks and
    last workout date stay as they were. *)
Theorem checkAndAwardBadges_awards (userId : UserId) (w : World) :
  ∃ l, (checkAndAwardBadges userId w).1 = Ok l
       ∧ badgeCatalog (db (checkAndAwardBadges userId w).2) = badgeCatalog (db w)
       ∧ ((l = [] ∧ users (db (checkAndAwardBadges userId w).2) = users (db w))
          ∨ ∃ u u', users (db w) !! userId = Some u
                    ∧ users (db (checkAndAwardBadges userId w).2)
                      = <[userId := u']> (users (db w))
                    ∧ l ≠ []
                    ∧ sublist l (List.filter isActive (badgeCatalog (db w)))
                    ∧ Forall (λ b, b_id b ∉ badgeId <$> badges u) l
                    ∧ awardedTo u u' l).
Proof.
  pose proof (hoare_checkAndAwardBadges userId _ _ w (conj eq_refl eq_refl)) as H.
  destruct ((checkAndAwardBadges userId w).1) as [l|e]; [|done].
  exists l. split; [done|].
  destruct H as [[-> [Hu Hc]]|(u & u' & Hlk & Hne & Haw & Hsub & Hall & Hu & Hc)].
  - split; [done|]. by left.
  - split; [done|]. right. exists u, u'. by repeat (split; [done|]).
Qed.

(** X6. Whatever the store does, the sweep of a user never throws, and the
    only thing it ever writes to the user records is a 0 in the
    currentWorkoutStreak of that user, whose streak was positive. *)
Theorem checkAndResetStreak_only_resets (userId : UserId) (w : World) :
  (checkAndResetStreak userId w).1 = Ok tt
  ∧ badgeCatalog (db (checkAndResetStreak userId w).2) = badgeCatalog (db w)
  ∧ (users (db (checkAndResetStreak userId w).2) = users (db w)
     ∨ ∃ u, users (db w) !! userId = Some u ∧ 0 < currentWorkoutStreak u
            ∧ users (db (checkAndResetStreak userId w).2)
              = <[userId := set_currentWorkoutStreak 0 u]> (users (db w))).
Proof.
  pose proof (hoare_checkAndResetStreak userId _ _ w (conj eq_refl eq_refl)) as H.
  destruct ((checkAndResetStreak userId w).1) as [[]|e]; [|done].
  split; [done|].
  destruct H as [[Hu Hc]|(u & Hlk & Hpos & Hu & Hc)]; split; eauto.
Qed.

(** ** Partial writes *)

Lemma bonus_is_milestone s : includes [7; 30; 100] s = true → includes milestones s = true.
Proof.
  unfold includes, milestones. simpl.
  destruct (Z.eqb_spec s 7) as [->|]; [done|].
  destruct (Z.eqb_spec s 30) as [->|]; [done|].
  destruct (Z.eqb_spec s 100) as [->|]; [done|]. done.
Qed.

(** The store after the milestone writes of a streak reaching [s], the
    user record not saved. *)
Definition milestoneWritten (d : DB) (userId : UserId) (s t : Z) : DB :=
  with_activityLogs (activityLogs d ++ [bonusEntry userId s t])
    (with_notifications (notifications d ++ [milestoneNotice userId s]) d).

Lemma query_passes {A} (f : DB → A) d t fs :
  query f (mkWorld d t (false :: fs)) = (Ok (f d), mkWorld d t fs).
Proof. reflexivity. Qed.

Lemma update_passes f d t fs :
  update f (mkWorld d t (false :: fs)) = (Ok tt, mkWorld (f d t) t fs).
Proof. reflexivity. Qed.

Lemma update_fails f d t fs :
  update f (mkWorld d t (true :: fs)) = (Throw PersistenceError, mkWorld d t fs).
Proof. reflexivity. Qed.

Lemma updateWorkoutStreak_save_fails d t userId user :
  users d !! userId = Some user →
  workedOutToday d userId t = true →
  loggedToday user (startOfDay t) = false →
  includes [7; 30; 100] (nextStreak d userId user t) = true →
  updateWorkoutStreak userId (mkWorld d t [false; false; false; false; false; true])
  = (Throw PersistenceError,
     quiet (milestoneWritten d userId (nextStreak d userId user t) t) t).
Proof.
  intros Hu Hw Hlt Hb. pose proof (bonus_is_milestone _ Hb) as Hm.
  unfold updateWorkoutStreak.
  unfold try_catch, bind at 1. unfold User_findById. rewrite query_passes, Hu.
  unfold bind at 1, newDate at 1. simpl clock.
  unfold bind at 1, newDate at 1. simpl clock.
  unfold bind at 1, ActivityLog_findOne_between at 1. rewrite query_passes, Hlt.
  unfold bind at 1, ActivityLog_findOne_between at 1. rewrite query_passes.
  rewrite !isSome_find. fold (workedOut d userId (startOfDay t) (endOfDay t)).
  fold (workedOutToday d userId t). rewrite Hw.
  rewrite startOfDay_yesterday. fold (yesterdayOf t).
  fold (workedOut d userId (yesterdayOf t) (endOfDay (yesterdayOf t))).
  fold (workedOutYesterday d userId t).
  unfold bind at 1, newDate at 1. simpl clock.
  set (u1 := if workedOutYesterday d userId t || negb (isSome (lastWorkoutDate user))
             then set_currentWorkoutStreak (currentWorkoutStreak user + 1) user
             else set_currentWorkoutStreak 1 user).
  assert (Hc1 : currentWorkoutStreak u1 = nextStreak d userId user t).
  { unfold u1, nextStreak. by destruct (_ || _). }
  set (u2 := if longestWorkoutStreak u1 <? currentWorkoutStreak u1
             then set_longestWorkoutStreak (currentWorkoutStreak u1) u1 else u1).
  assert (Hc2 : currentWorkoutStreak (set_lastWorkoutDate (Some t) u2)
                = nextStreak d userId user t).
  { unfold u2. by destruct (_ <? _). }
  unfold bind at 1, checkStreakMilestones. rewrite Hc2, Hm, Hb.
  unfold bind at 1, Notification_create. rewrite update_passes.
  unfold bind at 1, ActivityLog_create. rewrite update_passes.
  unfold ret at 1. unfold bind at 1, User_save. rewrite update_fails.
  unfold throw, milestoneWritten, bonusEntry, milestoneBonus, quiet, stamp. simpl.
  unfold includes in Hb. simpl in Hb.
  change (currentWorkoutStreak u2)
    with (currentWorkoutStreak (set_lastWorkoutDate (Some t) u2)).
  rewrite Hc2.
  destruct (nextStreak d userId user t =? 7); [done|].
  destruct (nextStreak d userId user t =? 30); [done|].
  destruct (nextStreak d userId user t =? 100); [done|].
  discriminate.
Qed.

Lemma workedOut_milestoneWritten d userId s t from to :
  workedOut (milestoneWritten d userId s t) userId from to = workedOut d userId from to.
Proof.
  unfold workedOut, milestoneWritten. cbn [activityLogs with_activityLogs].
  rewrite existsb_app. cbn [existsb].
  rewrite loggedBetween_not_workout by done. by rewrite !orb_false_r.
Qed.

Lemma nextStreak_milestoneWritten d userId user s t :
  nextStreak (milestoneWritten d userId s t) userId user t = nextStreak d userId user t.
Proof.
  unfold nextStreak, workedOutYesterday. by rewrite workedOut_milestoneWritten.
Qed.

(** X7. When the save of the user record fails after the milestone writes
    of a streak reaching 7, 30 or 100, the call throws with the milestone
    notification and the bonus ledger entry already stored and the user
    record unchanged; since the record is not stamped, a retry the same
    day goes through the update again: the notification and the bonus
    ledger entry are then stored twice, the bonus credited once. *)
Theorem updateWorkoutStreak_retry_repeats_milestone d t userId user :
  users d !! userId = Some user →
  workedOutToday d userId t = true →
  loggedToday user (startOfDay t) = false →
  includes [7; 30; 100] (nextStreak d userId user t) = true →
  let s := nextStreak d userId user t in
  let failed := updateWorkoutStreak userId
                  (mkWorld d t [false; false; false; false; false; true]) in
  let retried := updateWorkoutStreak userId (quiet (db failed.2) t) in
  failed.1 = Throw PersistenceError
  ∧ users (db failed.2) = users d
  ∧ retried.1 = Ok s
  ∧ notifications (db retried.2)
    = notifications d ++ [milestoneNotice userId s; milestoneNotice userId s]
  ∧ activityLogs (db retried.2)
    = activityLogs d ++ [bonusEntry userId s t; bonusEntry userId s t]
  ∧ totalPoints <$> users (db retried.2) !! userId
    = Some (totalPoints user + milestoneBonus s).
Proof.
  intros Hu Hw Hlt Hb. cbv zeta.
  rewrite (updateWorkoutStreak_save_fails _ _ _ _ Hu Hw Hlt Hb).
  cbn [fst snd db quiet].
  set (s := nextStreak d userId user t) in *.
  assert (Hu1 : users (milestoneWritten d userId s t) !! userId = Some user) by done.
  rewrite (updateWorkoutStreak_quiet _ _ _ _ Hu1), Hlt.
  unfold workedOutToday. rewrite workedOut_milestoneWritten.
  fold (workedOutToday d userId t). rewrite Hw.
  cbn [orb negb fst snd db quiet].
  unfold updatedDb, updatedUser. rewrite nextStreak_milestoneWritten. fold s.
  cbn [users notifications activityLogs].
  rewrite Hb, (bonus_is_milestone _ Hb), lookup_insert_eq.
  unfold milestoneWritten. cbn [notifications activityLogs with_activityLogs
    with_notifications fmap option_fmap option_map totalPoints].
  by rewrite <- !app_assoc.
Qed.

(** X8. When the write of the streak-broken notification fails, the
    sweep still returns normally and the reset stays: the streak is 0 and
    no notification tells the user. *)
Theorem checkAndResetStreak_notice_fails d t userId user :
  users d !! userId = Some user → streakOverdue user t →
  checkAndResetStreak userId (mkWorld d t [false; false; true])
  = (Ok tt, quiet (with_users (<[userId := set_currentWorkoutStreak 0 user]> (users d)) d) t).
Proof.
  intros Hu [Hpos Hgap].
  unfold checkAndResetStreak. unfold_store. simpl. rewrite Hu.
  destruct (lastWorkoutDate user) as [lwd|]; [|done]. simpl.
  apply daysBetween_gt_1 in Hgap.
  destruct (Z.ltb_spec 1 ((startOfDay t - startOfDay lwd) `div` msPerDay)); [|lia].
  destruct (Z.ltb_spec 0 (currentWorkoutStreak user)); [|lia].
  reflexivity.
Qed.

Lemma updateWorkoutStreak_retry_repeats_milestone_witness :
  let s := nextStreak sixDb 1 sixUser (day 10 + 100) in
  let failed := updateWorkoutStreak 1
                  (mkWorld sixDb (day 10 + 100) [false; false; false; false; false; true]) in
  let retried := updateWorkoutStreak 1 (quiet (db failed.2) (day 10 + 100)) in
  failed.1 = Throw PersistenceError
  ∧ users (db failed.2) = users sixDb
  ∧ retried.1 = Ok s
  ∧ notifications (db retried.2)
    = notifications sixDb ++ [milestoneNotice 1 s; milestoneNotice 1 s]
  ∧ activityLogs (db retried.2)
    = activityLogs sixDb ++ [bonusEntry 1 s (day 10 + 100); bonusEntry 1 s (day 10 + 100)]
  ∧ totalPoints <$> users (db retried.2) !! 1%nat
    = Some (totalPoints sixUser + milestoneBonus s).
Proof.
  apply (updateWorkoutStreak_retry_repeats_milestone sixDb (day 10 + 100) 1%nat sixUser);
    reflexivity.
Defined.

Lemma gapUser_overdue : streakOverdue gapUser (day 10 + 100).
Proof. split; [reflexivity | vm_compute; reflexivity]. Qed.

Lemma checkAndResetStreak_notice_fails_witness :
  checkAndResetStreak 1 (mkWorld gapDb (day 10 + 100) [false; false; true])
  = (Ok tt,
     quiet (with_users (<[1%nat := set_currentWorkoutStreak 0 gapUser]> (users gapDb)) gapDb)
       (day 10 + 100)).
Proof.
  exact (checkAndResetStreak_notice_fails gapDb (day 10 + 100) 1%nat gapUser
           eq_refl gapUser_overdue).
Defined.

(** ** What the badge criteria look at *)

Definition notBadgeEarned (e : ActivityLog) : bool :=
  negb (ActivityType_eqb (al_activityType e) badge_earned).

(** Two stores in which the criteria of [userId] see the same evidence:
    the same current streak, the same ledger apart from badge entries,
    the same goals and biometric entries. *)
Record sameEvidence (userId : UserId) (d d' : DB) : Prop := mkSameEvidence {
  same_streak :
    currentWorkoutStreak <$> users d !! userId
    = currentWorkoutStreak <$> users d' !! userId;
  same_logs :
    List.filter notBadgeEarned (activityLogs d)
    = List.filter notBadgeEarned (activityLogs d');
  same_goals : goals d = goals d';
  same_biometrics : biometrics d = biometrics d'
}.

Lemma sameEvidence_refl userId d : sameEvidence userId d d.
Proof. by split. Qed.

Lemma sameEvidence_trans userId d1 d2 d3 :
  sameEvidence userId d1 d2 → sameEvidence userId d2 d3 → sameEvidence userId d1 d3.
Proof. intros [] []. split; congruence. Qed.

Lemma filter_filter_sub {A} (g h : A → bool) l :
  (∀ x, g x = true → h x = true) →
  List.filter g (List.filter h l) = List.filter g l.
Proof.
  intros Hgh. induction l as [|x l IH]; simpl; [done|].
  destruct (h x) eqn:Hh; simpl.
  - destruct (g x); by rewrite IH.
  - destruct (g x) eqn:Hg; [|done]. apply Hgh in Hg. congruence.
Qed.

Lemma find_filter_sub {A} (g h : A → bool) l :
  (∀ x, g x = true → h x = true) →
  List.find g (List.filter h l) = List.find g l.
Proof.
  intros Hgh. induction l as [|x l IH]; simpl; [done|].
  destruct (h x) eqn:Hh; simpl.
  - destruct (g x); [done | by rewrite IH].
  - destruct (g x) eqn:Hg; [|done]. apply Hgh in Hg. congruence.
Qed.

Lemma same_filter userId d d' (g : ActivityLog → bool) :
  (∀ e, g e = true → notBadgeEarned e = true) →
  sameEvidence userId d d' →
  List.filter g (activityLogs d) = List.filter g (activityLogs d').
Proof.
  intros Hg [_ Hl _ _].
  rewrite <- (filter_filter_sub g notBadgeEarned (activityLogs d)) by done.
  rewrite <- (filter_filter_sub g notBadgeEarned (activityLogs d')) by done.
  by rewrite Hl.
Qed.

Lemma same_find userId d d' (g : ActivityLog → bool) :
  (∀ e, g e = true → notBadgeEarned e = true) →
  sameEvidence userId d d' →
  List.find g (activityLogs d) = List.find g (activityLogs d').
Proof.
  intros Hg [_ Hl _ _].
  rewrite <- (find_filter_sub g notBadgeEarned (activityLogs d)) by done.
  rewrite <- (find_filter_sub g notBadgeEarned (activityLogs d')) by done.
  by rewrite Hl.
Qed.

Lemma typed_notBadgeEarned userId ty (rest : ActivityLog → bool) e :
  ty ≠ badge_earned →
  bool_decide (al_userId e = userId) && ActivityType_eqb (al_activityType e) ty && rest e
  = true →
  notBadgeEarned e = true.
Proof.
  intros Hty. unfold notBadgeEarned.
  destruct (al_activityType e), ty; simpl; rewrite ?andb_false_r; try done.
Qed.

(** In a quiet world [m] leaves the world as it is. *)
Definition quietly {A} (m : M A) : Prop := ∀ d t, (m (quiet d t)).2 = quiet d t.

(** In quiet worlds the result of [m] depends on the evidence and on the
    calendar day only. *)
Definition steady {A} (userId : UserId) (m : M A) : Prop :=
  ∀ d d' t t', sameEvidence userId d d' → startOfDay t = startOfDay t' →
               (m (quiet d t)).1 = (m (quiet d' t')).1.

Lemma quietly_ret {A} (a : A) : quietly (ret a).
Proof. by intros d t. Qed.
Lemma quietly_throw {A} e : quietly (@throw A e).
Proof. by intros d t. Qed.
Lemma quietly_query {A} (f : DB → A) : quietly (query f).
Proof. by intros d t. Qed.
Lemma quietly_newDate : quietly newDate.
Proof. by intros d t. Qed.
Lemma quietly_bind {A B} (m : M A) (k : A → M B) :
  quietly m → (∀ a, quietly (k a)) → quietly (bind m k).
Proof.
  intros Hm Hk d t. unfold bind. specialize (Hm d t).
  destruct (m (quiet d t)) as [[a|e] w1]; simpl in *; subst; [apply Hk | done].
Qed.

Lemma steady_ret {A} userId (a : A) : steady userId (ret a).
Proof. by intros d d' t t' _ _. Qed.
Lemma steady_throw {A} userId e : steady userId (@throw A e).
Proof. by intros d d' t t' _ _. Qed.
Lemma steady_query {A} userId (f : DB → A) :
  (∀ d d', sameEvidence userId d d' → f d = f d') → steady userId (query f).
Proof. intros Hf d d' t t' Hs _. simpl. f_equal. by apply Hf. Qed.

Lemma steady_bind {A B} userId (m : M A) (k : A → M B) :
  quietly m → steady userId m → (∀ a, steady userId (k a)) → steady userId (bind m k).
Proof.
  intros Hq Hm Hk d d' t t' Hs Ht. unfold bind.
  pose proof (Hq d t) as Hq1. pose proof (Hq d' t') as Hq2.
  specialize (Hm d d' t t' Hs Ht).
  destruct (m (quiet d t)) as [[a|e] w1], (m (quiet d' t')) as [[a'|e'] w2];
    simpl in *; subst; try congruence.
  injection Hm as <-. by apply Hk.
Qed.

(** A continuation of [User.findById] that only reads the current streak. *)
Lemma steady_findById {B} userId (k : option User → M B) (k' : option Z → M B) :
  (∀ o, k o = k' (currentWorkoutStreak <$> o)) →
  (∀ x, steady userId (k' x)) →
  steady userId (bind (User_findById userId) k).
Proof.
  intros Hk Hk' d d' t t' Hs Ht. unfold bind. simpl.
  rewrite !Hk, (same_streak _ _ _ Hs). by apply Hk'.
Qed.

(** A continuation of [new Date()] that only uses the calendar day. *)
Lemma steady_newDate {B} userId (k : Z → M B) :
  (∀ today, steady userId (k today)) →
  steady userId (bind newDate (λ now, k (startOfDay now))).
Proof. intros Hk d d' t t' Hs Ht. unfold bind. simpl. rewrite Ht. by apply Hk. Qed.

Lemma quietly_waterStreakLoop fuel userId checkDate streak :
  quietly (waterStreakLoop fuel userId checkDate streak).
Proof.
  revert checkDate streak. induction fuel as [|fuel IH]; intros; simpl.
  - apply quietly_ret.
  - apply quietly_bind; [apply quietly_query|]. intros [e|]; [|apply quietly_ret].
    destruct (2000 <=? bd_value e); [apply IH | apply quietly_ret].
Qed.

Lemma steady_waterStreakLoop fuel userId checkDate streak :
  steady userId (waterStreakLoop fuel userId checkDate streak).
Proof.
  revert checkDate streak. induction fuel as [|fuel IH]; intros; simpl.
  - apply steady_ret.
  - apply steady_bind; [apply quietly_query| |].
    + apply steady_query. intros d d' Hs. by rewrite (same_biometrics _ _ _ Hs).
    + intros [e|]; [|apply steady_ret].
      destruct (2000 <=? bd_value e); [apply IH | apply steady_ret].
Qed.

Lemma waterStreakLoop_returns fuel userId checkDate streak d t :
  ∃ r, (waterStreakLoop fuel userId checkDate streak (quiet d t)).1 = Ok r.
Proof.
  revert checkDate streak. induction fuel as [|fuel IH]; intros; simpl; [by eexists|].
  unfold bind, BiometricData_findWater. rewrite query_quiet.
  destruct (List.find _ _) as [e|]; [|by eexists].
  destruct (2000 <=? bd_value e); [apply IH | by eexists].
Qed.

Lemma run_quietly {A} (m : M A) d t r :
  quietly m → (m (quiet d t)).1 = r → m (quiet d t) = (r, quiet d t).
Proof. intros Hq Hr. specialize (Hq d t). destruct (m (quiet d t)). simpl in *. congruence. Qed.

Lemma calculateWaterStreak_unfold userId :
  calculateWaterStreak userId
  = bind (User_findById userId)
      (λ _, bind newDate
              (λ now, (λ today, waterStreakLoop 365 userId today 0) (startOfDay now))).
Proof. reflexivity. Qed.

Lemma quietly_calculateWaterStreak userId : quietly (calculateWaterStreak userId).
Proof.
  rewrite calculateWaterStreak_unfold.
  apply quietly_bind; [apply quietly_query|]. intros _.
  apply quietly_bind; [apply quietly_newDate|]. intros now.
  apply quietly_waterStreakLoop.
Qed.

Lemma steady_calculateWaterStreak userId : steady userId (calculateWaterStreak userId).
Proof.
  rewrite calculateWaterStreak_unfold.
  apply (steady_findById userId _ (λ _, bind newDate
           (λ now, (λ today, waterStreakLoop 365 userId today 0) (startOfDay now))));
    [done|]. intros _.
  apply (steady_newDate userId (λ today, waterStreakLoop 365 userId today 0)).
  intros today. apply steady_waterStreakLoop.
Qed.

Lemma calculateWaterStreak_returns userId d t :
  ∃ r, (calculateWaterStreak userId (quiet d t)).1 = Ok r.
Proof.
  rewrite calculateWaterStreak_unfold. unfold bind at 1. unfold User_findById.
  rewrite query_quiet. unfold bind at 1, newDate. cbn [clock quiet].
  apply waterStreakLoop_returns.
Qed.

Lemma quietly_checkStreakBadge userId badge : quietly (checkStreakBadge userId badge).
Proof.
  unfold checkStreakBadge.
  apply quietly_bind; [apply quietly_query|]. intros user.
  destruct (String.eqb _ _); [destruct user; [apply quietly_ret | apply quietly_throw]|].
  destruct (String.eqb _ _); [|apply quietly_ret].
  apply quietly_bind; [apply quietly_calculateWaterStreak|]. intros ?. apply quietly_ret.
Qed.

Lemma steady_checkStreakBadge userId badge : steady userId (checkStreakBadge userId badge).
Proof.
  unfold checkStreakBadge.
  apply (steady_findById userId _
    (λ x, if String.eqb (criteria_metric badge) "workout_streak"
          then match x with
               | Some c => ret (reaches c (criteria_target badge))
               | None => throw TypeError
               end
          else if String.eqb (criteria_metric badge) "water_goal_streak"
          then bind (calculateWaterStreak userId)
                 (λ waterStreak, ret (reaches waterStreak (criteria_target badge)))
          else ret false)).
  - intros [u|]; reflexivity.
  - intros x. destruct (String.eqb _ _);
      [destruct x; [apply steady_ret | apply steady_throw]|].
    destruct (String.eqb _ _); [|apply steady_ret].
    apply steady_bind;
      [apply quietly_calculateWaterStreak | apply steady_calculateWaterStreak|].
    intros ?. apply steady_ret.
Qed.

Lemma quietly_checkCountBadge userId badge : quietly (checkCountBadge userId badge).
Proof.
  unfold checkCountBadge.
  repeat (destruct (String.eqb _ _);
          [apply quietly_bind; [apply quietly_query | intros ?; apply quietly_ret]|]).
  apply quietly_ret.
Qed.

Lemma steady_checkCountBadge userId badge : steady userId (checkCountBadge userId badge).
Proof.
  unfold checkCountBadge.
  destruct (String.eqb _ _).
  { apply steady_bind; [apply quietly_query| |intros ?; apply steady_ret].
    apply steady_query. intros d d' Hs. f_equal. f_equal.
    apply (same_filter userId); [|done]. intros e He.
    apply (typed_notBadgeEarned userId workout_completed (λ _, true)); [done|].
    by rewrite andb_true_r. }
  destruct (String.eqb _ _).
  { apply steady_bind; [apply quietly_query| |intros ?; apply steady_ret].
    apply steady_query. intros d d' Hs. f_equal. f_equal.
    apply (same_filter userId); [|done]. intros e He.
    apply (typed_notBadgeEarned userId meal_logged (λ _, true)); [done|].
    by rewrite andb_true_r. }
  destruct (String.eqb _ _).
  { apply steady_bind; [apply quietly_query| |intros ?; apply steady_ret].
    apply steady_query. intros d d' Hs. by rewrite (same_goals _ _ _ Hs). }
  destruct (String.eqb _ _).
  { apply steady_bind; [apply quietly_query| |intros ?; apply steady_ret].
    apply steady_query. intros d d' Hs. f_equal. f_equal.
    apply (same_filter userId); [|done]. intros e He.
    by apply (typed_notBadgeEarned userId community_post al_motivation). }
  apply steady_ret.
Qed.

Lemma quietly_checkValueBadge userId badge : quietly (checkValueBadge userId badge).
Proof.
  unfold checkValueBadge.
  apply quietly_bind; [apply quietly_query|]. intros _.
  destruct (String.eqb _ _); [|apply quietly_ret].
  apply quietly_bind; [apply quietly_query|]. intros f.
  apply quietly_bind; [apply quietly_query|]. intros l.
  destruct f, l; apply quietly_ret.
Qed.

Lemma steady_checkValueBadge userId badge : steady userId (checkValueBadge userId badge).
Proof.
  unfold checkValueBadge.
  apply (steady_findById userId _
    (λ _, if String.eqb (criteria_metric badge) "weight_lost"
          then bind (BiometricData_firstWeight userId) (λ firstWeight,
               bind (BiometricData_getLatestWeight userId) (λ latestWeight,
                 match firstWeight, latestWeight with
                 | Some f, Some l =>
                     ret (reaches (bd_value f - bd_value l) (criteria_target badge))
                 | _, _ => ret false
                 end))
          else ret false)); [done|]. intros _.
  destruct (String.eqb _ _); [|apply steady_ret].
  apply steady_bind; [apply quietly_query| |].
  { apply steady_query. intros d d' Hs. by rewrite (same_biometrics _ _ _ Hs). }
  intros f.
  apply steady_bind; [apply quietly_query| |].
  { apply steady_query. intros d d' Hs. by rewrite (same_biometrics _ _ _ Hs). }
  intros l. destruct f, l; apply steady_ret.
Qed.

Lemma quietly_checkCustomBadge userId badge : quietly (checkCustomBadge userId badge).
Proof.
  unfold checkCustomBadge.
  apply quietly_bind; [apply quietly_query|]. intros _.
  repeat (destruct (String.eqb _ _);
          [apply quietly_bind; [apply quietly_query | intros ?; apply quietly_ret]|]).
  apply quietly_ret.
Qed.

Lemma steady_checkCustomBadge userId badge : steady userId (checkCustomBadge userId badge).
Proof.
  unfold checkCustomBadge.
  apply (steady_findById userId _
    (λ _, if String.eqb (criteria_metric badge) "goal_weight_reached"
          then bind (Goal_findOne userId gt_weight gs_completed)
                 (λ weightGoal, ret (isSome weightGoal))
          else if String.eqb (criteria_metric badge) "community_joined"
          then bind (ActivityLog_findOne userId community_post)
                 (λ hasPosted, ret (isSome hasPosted))
          else ret false)); [done|]. intros _.
  destruct (String.eqb _ _).
  { apply steady_bind; [apply quietly_query| |intros ?; apply steady_ret].
    apply steady_query. intros d d' Hs. by rewrite (same_goals _ _ _ Hs). }
  destruct (String.eqb _ _); [|apply steady_ret].
  apply steady_bind; [apply quietly_query| |intros ?; apply steady_ret].
  apply steady_query. intros d d' Hs.
  apply (same_find userId); [|done]. intros e He.
  apply (typed_notBadgeEarned userId community_post (λ _, true)); [done|].
  by rewrite andb_true_r.
Qed.

Lemma quietly_checkCriteria userId badge : quietly (checkCriteria userId badge).
Proof.
  unfold checkCriteria. destruct (criteria_type badge).
  - apply quietly_checkStreakBadge.
  - apply quietly_checkCountBadge.
  - apply quietly_checkValueBadge.
  - apply quietly_checkCustomBadge.
Qed.

Lemma steady_checkCriteria userId badge : steady userId (checkCriteria userId badge).
Proof.
  unfold checkCriteria. destruct (criteria_type badge).
  - apply steady_checkStreakBadge.
  - apply steady_checkCountBadge.
  - apply steady_checkValueBadge.
  - apply steady_checkCustomBadge.
Qed.

(** With the user on record and the store working, a criterion check
    returns. *)
Lemma checkCriteria_returns userId badge d t u :
  users d !! userId = Some u →
  ∃ r, (checkCriteria userId badge (quiet d t)).1 = Ok r.
Proof.
  intros Hu. unfold checkCriteria. destruct (criteria_type badge).
  - unfold checkStreakBadge, bind at 1, User_findById. rewrite query_quiet, Hu.
    destruct (String.eqb _ _); [by eexists|].
    destruct (String.eqb _ _); [|by eexists].
    destruct (calculateWaterStreak_returns userId d t) as [r Hr].
    unfold bind. rewrite (run_quietly _ _ _ _ (quietly_calculateWaterStreak userId) Hr).
    by eexists.
  - unfold checkCountBadge.
    repeat (destruct (String.eqb _ _); [by eexists|]). by eexists.
  - unfold checkValueBadge, bind at 1, User_findById. rewrite query_quiet.
    destruct (String.eqb _ _); [|by eexists].
    unfold bind, BiometricData_firstWeight, BiometricData_getLatestWeight.
    rewrite !query_quiet.
    repeat match goal with
           | |- context [firstBy ?f ?l] => destruct (firstBy f l)
           end; by eexists.
  - unfold checkCustomBadge, bind at 1, User_findById. rewrite query_quiet.
    repeat (destruct (String.eqb _ _); [by eexists|]). by eexists.
Qed.

(** Whether the criterion of [badge] holds for the user in store [d] on
    the day of [t]: the answer of the check, the store working. *)
Definition criterionMet (userId : UserId) (d : DB) (t : Z) (badge : Badge) : bool :=
  match (checkCriteria userId badge (quiet d t)).1 with
  | Ok r => r
  | Throw _ => false
  end.

Lemma checkCriteria_quiet userId badge d t u :
  users d !! userId = Some u →
  checkCriteria userId badge (quiet d t) = (Ok (criterionMet userId d t badge), quiet d t).
Proof.
  intros Hu. apply run_quietly; [apply quietly_checkCriteria|].
  unfold criterionMet.
  destruct (checkCriteria_returns userId badge d t u Hu) as [r Hr]. by rewrite Hr.
Qed.

Lemma criterionMet_same userId d d' t t' badge :
  sameEvidence userId d d' → startOfDay t = startOfDay t' →
  criterionMet userId d t badge = criterionMet userId d' t' badge.
Proof.
  intros Hs Ht. unfold criterionMet.
  by rewrite (steady_checkCriteria userId badge d d' t t' Hs Ht).
Qed.

(** The badges an evaluation picks from [allBadges]: those not among the
    ids earned before whose criterion holds. *)
Definition newlyEarned (userId : UserId) (d : DB) (t : Z) (earned : list BadgeId)
    (allBadges : list Badge) : list Badge :=
  List.filter (λ b, negb (includesId earned (b_id b)) && criterionMet userId d t b)
    allBadges.

(** One pass of the body of the loop on the in-memory document. *)
Definition awardOne (t : Z) (user : User) (badge : Badge) : User :=
  set_totalPoints (totalPoints user + b_points badge)
    (set_badges (badges user ++ [mkEarnedBadge (b_id badge) t]) user).

Definition badgeNotice (userId : UserId) (badge : Badge) : Notification :=
  mkNotification userId nt_badge_earned (BadgeEarnedText (b_name badge))
    (Some (b_id badge)) high.

Definition badgeEntry (userId : UserId) (t : Z) (badge : Badge) : ActivityLog :=
  mkActivityLog userId badge_earned (DescEarnedBadge (b_name badge))
    (Some (b_id badge)) false (b_points badge) t.

(** The store with the notifications and ledger entries of [picked]. *)
Definition announced (userId : UserId) (t : Z) (picked : list Badge) (d : DB) : DB :=
  with_activityLogs (activityLogs d ++ (badgeEntry userId t <$> picked))
    (with_notifications (notifications d ++ (badgeNotice userId <$> picked)) d).

Lemma announced_nil userId t d : announced userId t [] d = d.
Proof.
  destruct d. unfold announced, with_activityLogs, with_notifications. simpl.
  by rewrite !app_nil_r.
Qed.

Lemma announced_cons userId t b picked d :
  announced userId t picked (announced userId t [b] d) = announced userId t (b :: picked) d.
Proof.
  unfold announced, with_activityLogs, with_notifications. simpl.
  by rewrite <- !app_assoc.
Qed.

Lemma sameEvidence_announced userId t picked d :
  sameEvidence userId d (announced userId t picked d).
Proof.
  split; try done. unfold announced. simpl.
  rewrite List.filter_app.
  assert (H : List.filter notBadgeEarned (badgeEntry userId t <$> picked) = []).
  { induction picked as [|b l IH]; [done|]. simpl. exact IH. }
  by rewrite H, app_nil_r.
Qed.

Lemma awardLoop_quiet userId earned d0 t allBadges :
  ∀ user newBadgesEarned d,
    sameEvidence userId d0 d → is_Some (users d !! userId) →
    awardLoop userId earned allBadges user newBadgesEarned (quiet d t)
    = (Ok (foldl (awardOne t) user (newlyEarned userId d0 t earned allBadges),
           newBadgesEarned ++ newlyEarned userId d0 t earned allBadges),
       quiet (announced userId t (newlyEarned userId d0 t earned allBadges) d) t).
Proof.
  induction allBadges as [|badge rest IH]; intros user new d Hs [u Hu]; simpl.
  - by rewrite app_nil_r, announced_nil.
  - destruct (includesId earned (b_id badge)); simpl; [by apply IH; eauto|].
    unfold bind at 1. rewrite (checkCriteria_quiet _ _ _ _ _ Hu).
    rewrite <- (criterionMet_same userId d0 d t t badge Hs eq_refl).
    destruct (criterionMet userId d0 t badge); [|by apply IH; eauto].
    unfold bind at 1, newDate. cbn [clock quiet].
    unfold bind at 1, Notification_create. rewrite update_quiet.
    unfold bind at 1, ActivityLog_create. rewrite update_quiet.
    change (with_activityLogs _ (with_notifications _ d))
      with (announced userId t [badge] d).
    rewrite IH.
    + simpl. by rewrite announced_cons, <- app_assoc.
    + eapply sameEvidence_trans; [exact Hs | apply sameEvidence_announced].
    + by exists u.
Qed.

(** The store after an evaluation that picked [picked]: nothing is
    written when the list is empty. *)
Definition evaluatedDb (userId : UserId) (user : User) (t : Z) (picked : list Badge)
    (d : DB) : DB :=
  match picked with
  | [] => d
  | _ => with_users (<[userId := foldl (awardOne t) user picked]> (users d))
           (announced userId t picked d)
  end.

Lemma checkAndAwardBadges_quiet userId d t user :
  users d !! userId = Some user →
  checkAndAwardBadges userId (quiet d t)
  = (Ok (newlyEarned userId d t (badgeId <$> badges user)
           (List.filter isActive (badgeCatalog d))),
     quiet (evaluatedDb userId user t
              (newlyEarned userId d t (badgeId <$> badges user)
                 (List.filter isActive (badgeCatalog d))) d) t).
Proof.
  intros Hu. unfold checkAndAwardBadges, checkAndAwardBadges_try, try_catch.
  unfold bind at 1, User_findById. rewrite query_quiet, Hu.
  unfold bind at 1, Badge_find_active. rewrite query_quiet.
  unfold bind at 1.
  rewrite (awardLoop_quiet userId _ d t); [|apply sameEvidence_refl|by eexists].
  cbn [fst snd app].
  change (badgeId <$> badges user) with (map badgeId (badges user)).
  destruct (newlyEarned userId d t (map badgeId (badges user))
              (List.filter isActive (badgeCatalog d))) as [|b picked].
  - simpl. by rewrite announced_nil.
  - unfold bind at 1. cbn [length Nat.ltb Nat.leb].
    unfold User_save. rewrite update_quiet. reflexivity.
Qed.

Lemma elem_of_newlyEarned userId d t earned allBadges b :
  b ∈ newlyEarned userId d t earned allBadges
  ↔ (b ∈ allBadges ∧ (b_id b ∉ earned) ∧ criterionMet userId d t b = true).
Proof.
  unfold newlyEarned. rewrite !list_elem_of_In, filter_In, <- !list_elem_of_In.
  rewrite andb_true_iff, negb_true_iff, includesId_false. tauto.
Qed.

Lemma elem_of_active c b :
  b ∈ List.filter isActive c ↔ b ∈ c ∧ isActive b = true.
Proof. by rewrite !list_elem_of_In, filter_In. Qed.

Lemma foldl_awardOne_fields t picked : ∀ user,
  currentWorkoutStreak (foldl (awardOne t) user picked) = currentWorkoutStreak user
  ∧ badgeId <$> badges (foldl (awardOne t) user picked)
    = (badgeId <$> badges user) ++ (b_id <$> picked).
Proof.
  induction picked as [|b l IH]; intros user; simpl.
  - by rewrite app_nil_r.
  - destruct (IH (awardOne t user b)) as [-> ->]. simpl. split; [done|].
    by rewrite fmap_app, <- app_assoc.
Qed.

Lemma evaluatedDb_facts userId user t picked d :
  users d !! userId = Some user →
  sameEvidence userId d (evaluatedDb userId user t picked d)
  ∧ badgeCatalog (evaluatedDb userId user t picked d) = badgeCatalog d
  ∧ ∃ user', users (evaluatedDb userId user t picked d) !! userId = Some user'
             ∧ badgeId <$> badges user' = (badgeId <$> badges user) ++ (b_id <$> picked).
Proof.
  intros Hu. destruct picked as [|b l].
  - simpl. split; [apply sameEvidence_refl|]. split; [done|]. exists user.
    by rewrite app_nil_r.
  - change (evaluatedDb userId user t (b :: l) d)
      with (with_users (<[userId := foldl (awardOne t) user (b :: l)]> (users d))
              (announced userId t (b :: l) d)).
    generalize (b :: l). intros picked.
    destruct (foldl_awardOne_fields t picked user) as [Hc Hb].
    split; [|split; [done|]].
    + destruct (sameEvidence_announced userId t picked d) as [_ Hl Hg Hbio].
      split; try done. simpl. rewrite lookup_insert_eq, Hu. simpl. by rewrite Hc.
    + exists (foldl (awardOne t) user picked). simpl. by rewrite lookup_insert_eq.
Qed.

Lemma filter_nil_iff {A} (f : A → bool) l :
  (∀ x, x ∈ l → f x = false) → List.filter f l = [].
Proof.
  induction l as [|x l IH]; intros H; simpl; [done|].
  rewrite (H x) by left. apply IH. intros y Hy. apply H. by right.
Qed.

(** X9. With the store working, an evaluation for a user on record
    returns exactly the active catalog badges the user did not hold whose
    criterion holds on the store as it was before the call (awards made
    earlier in the same call change no later answer), and adds one
    notification and one ledger entry per returned badge, in that order. *)
Theorem checkAndAwardBadges_picks d t userId user :
  users d !! userId = Some user →
  ∃ l, (checkAndAwardBadges userId (quiet d t)).1 = Ok l
       ∧ (∀ b, b ∈ l ↔ b ∈ badgeCatalog d ∧ isActive b = true
                        ∧ (b_id b ∉ badgeId <$> badges user)
                        ∧ criterionMet userId d t b = true)
       ∧ notifications (db (checkAndAwardBadges userId (quiet d t)).2)
         = notifications d ++ (badgeNotice userId <$> l)
       ∧ activityLogs (db (checkAndAwardBadges userId (quiet d t)).2)
         = activityLogs d ++ (badgeEntry userId t <$> l).
Proof.
  intros Hu. rewrite (checkAndAwardBadges_quiet _ _ _ _ Hu). cbn [fst snd db quiet].
  eexists. split; [reflexivity|]. split.
  - intros b. rewrite elem_of_newlyEarned, elem_of_active. tauto.
  - destruct (newlyEarned _ _ _ _ _) as [|b l]; simpl; by rewrite ?app_nil_r.
Qed.

(** X10. With the store working, an evaluation run again on the same
    calendar day right after an evaluation returns [] and leaves the whole
    store as it was. *)
Theorem checkAndAwardBadges_twice d t t' userId user :
  users d !! userId = Some user →
  startOfDay t' = startOfDay t →
  checkAndAwardBadges userId (quiet (db (checkAndAwardBadges userId (quiet d t)).2) t')
  = (Ok [], quiet (db (checkAndAwardBadges userId (quiet d t)).2) t').
Proof.
  intros Hu Ht. rewrite (checkAndAwardBadges_quiet _ _ _ _ Hu). cbn [fst snd db quiet].
  set (picked := newlyEarned userId d t (badgeId <$> badges user)
                   (List.filter isActive (badgeCatalog d))).
  destruct (evaluatedDb_facts userId user t picked d Hu) as (Hs & Hc & user' & Hu' & Hb).
  rewrite (checkAndAwardBadges_quiet _ _ _ _ Hu'), Hc, Hb.
  assert (Hnone : newlyEarned userId (evaluatedDb userId user t picked d) t'
                    ((badgeId <$> badges user) ++ (b_id <$> picked))
                    (List.filter isActive (badgeCatalog d)) = []).
  { apply filter_nil_iff. intros b Hb'.
    destruct (includesId _ (b_id b)) eqn:Hin; [done|]. simpl.
    apply includesId_false in Hin.
    rewrite <- (criterionMet_same userId d _ t t' b Hs (eq_sym Ht)).
    destruct (criterionMet userId d t b) eqn:Hm; [|done].
    exfalso. apply Hin. apply elem_of_app. right.
    apply list_elem_of_fmap. exists b. split; [done|].
    apply elem_of_newlyEarned. split; [done|]. split; [|done].
    intros Hx. apply Hin, elem_of_app. by left. }
  by rewrite Hnone.
Qed.

(** The sample store after the streak update of the sample user. *)
Definition sevenDb : DB := db (updateWorkoutStreak 1 demoWorld).2.
Definition sevenUser : User := mkUser "a" 7 7 140 [] (Some (day 10 + 100)) active.

Lemma sevenDb_user : users sevenDb !! 1%nat = Some sevenUser.
Proof. vm_compute. reflexivity. Qed.

Lemma checkAndAwardBadges_picks_witness :
  ∃ l, (checkAndAwardBadges 1 (quiet sevenDb (day 10 + 200))).1 = Ok l
       ∧ (∀ b, b ∈ l ↔ b ∈ badgeCatalog sevenDb ∧ isActive b = true
                        ∧ (b_id b ∉ badgeId <$> badges sevenUser)
                        ∧ criterionMet 1 sevenDb (day 10 + 200) b = true)
       ∧ notifications (db (checkAndAwardBadges 1 (quiet sevenDb (day 10 + 200))).2)
         = notifications sevenDb ++ (badgeNotice 1 <$> l)
       ∧ activityLogs (db (checkAndAwardBadges 1 (quiet sevenDb (day 10 + 200))).2)
         = activityLogs sevenDb ++ (badgeEntry 1 (day 10 + 200) <$> l).
Proof.
  exact (checkAndAwardBadges_picks sevenDb (day 10 + 200) 1%nat sevenUser sevenDb_user).
Defined.

Lemma checkAndAwardBadges_twice_witness :
  checkAndAwardBadges 1
    (quiet (db (checkAndAwardBadges 1 (quiet sevenDb (day 10 + 200))).2) (day 10 + 900))
  = (Ok [],
     quiet (db (checkAndAwardBadges 1 (quiet sevenDb (day 10 + 200))).2) (day 10 + 900)).
Proof.
  exact (checkAndAwardBadges_twice sevenDb (day 10 + 200) (day 10 + 900) 1%nat sevenUser
           sevenDb_user eq_refl).
Defined.

Example sevenDb_evaluation :
  (checkAndAwardBadges 1 (quiet sevenDb (day 10 + 200))).1 = Ok demoCatalog.
Proof. vm_compute. reflexivity. Qed.

(** ** Completing workout days *)

Lemma startOfDay_le t : startOfDay t ≤ t.
Proof. unfold startOfDay. pose proof (Z.mul_div_le t msPerDay msPerDay_pos). lia. Qed.

Lemma le_endOfDay t : t ≤ endOfDay t.
Proof.
  unfold endOfDay, startOfDay.
  pose proof (Z.mod_pos_bound t msPerDay msPerDay_pos).
  pose proof (Z.div_mod t msPerDay). lia.
Qed.

(** [c] falls on the calendar day that starts at [s]. *)
Lemma startOfDay_iff s c :
  startOfDay s = s → (startOfDay c = s ↔ s ≤ c ≤ s + msPerDay - 1).
Proof.
  intros Hs. unfold startOfDay in *. pose proof msPerDay_pos.
  pose proof (Z.div_mod c msPerDay). pose proof (Z.mod_pos_bound c msPerDay).
  split.
  - intros <-. lia.
  - intros [Hl Hu]. f_equal.
    assert (s `div` msPerDay = c `div` msPerDay); [|lia].
    apply Z.le_antisymm.
    + apply Z.div_le_mono; lia.
    + assert (c `div` msPerDay < s `div` msPerDay + 1); [|lia].
      apply Z.div_lt_upper_bound; lia.
Qed.


Definition pointsEntry (userId : UserId) (points : Z) (reason : string) (t : Z)
    : ActivityLog :=
  mkActivityLog userId points_earned (DescEarnedPoints points reason) None false points t.

Definition creditedDb (userId : UserId) (user : User) (points : Z) (reason : string)
    (t : Z) (d : DB) : DB :=
  with_activityLogs (activityLogs d ++ [pointsEntry userId points reason t])
    (with_users (<[userId := set_totalPoints (totalPoints user + points) user]> (users d)) d).

Lemma awardPoints_quiet userId points reason d t user :
  users d !! userId = Some user →
  awardPoints userId points reason (quiet d t)
  = (Ok (totalPoints user + points), quiet (creditedDb userId user points reason t d) t).
Proof.
  intros Hu. unfold awardPoints. unfold_store. simpl. by rewrite Hu.
Qed.

Lemma awardPoints_unknown userId points reason d t :
  users d !! userId = None →
  awardPoints userId points reason (quiet d t) = (Throw UserNotFound, quiet d t).
Proof.
  intros Hu. unfold awardPoints. unfold_store. simpl. by rewrite Hu.
Qed.

Definition workoutLogged (userId : UserId) (planId : nat) (description : string)
    (t : Z) (d : DB) : DB :=
  with_activityLogs
    (activityLogs d
     ++ [mkActivityLog userId workout_completed (DescText description)
           (Some planId) false 15 t]) d.

(** The record after the streak step of the handler, the workout of
    today being in the ledger. *)
Definition streakUser (d : DB) (userId : UserId) (user : User) (t : Z) : User :=
  if loggedToday user (startOfDay t) then user else updatedUser d userId user t.

Definition streakDb (d : DB) (userId : UserId) (user : User) (t : Z) : DB :=
  if loggedToday user (startOfDay t) then d else updatedDb d userId user t.

(** The store after the scoring steps, the store working. *)
Definition scoredDb (userId : UserId) (planId : nat) (description : string)
    (user : User) (t : Z) (d : DB) : DB :=
  let u1 := set_totalPoints (totalPoints user + 15) user in
  let d2 := workoutLogged userId planId description t
              (creditedDb userId user 15 "Completed workout day" t d) in
  let u3 := streakUser d2 userId u1 t in
  let d3 := streakDb d2 userId u1 t in
  evaluatedDb userId u3 t
    (newlyEarned userId d3 t (badgeId <$> badges u3)
       (List.filter isActive (badgeCatalog d3))) d3.

Lemma workedOut_app d userId from to l :
  workedOut (with_activityLogs (activityLogs d ++ l) d) userId from to
  = workedOut d userId from to
    || existsb (loggedBetween userId workout_completed from to) l.
Proof. unfold workedOut. simpl. apply existsb_app. Qed.

Lemma workedOut_workoutLogged userId planId description t d from to :
  workedOut (workoutLogged userId planId description t d) userId from to
  = workedOut d userId from to || ((from <=? t) && (t <=? to)).
Proof.
  unfold workoutLogged. rewrite workedOut_app. f_equal. simpl.
  unfold loggedBetween. simpl. rewrite bool_decide_eq_true_2 by done.
  by rewrite orb_false_r.
Qed.

Lemma workedOut_creditedDb userId user points reason t d from to :
  workedOut (creditedDb userId user points reason t d) userId from to
  = workedOut d userId from to.
Proof.
  unfold creditedDb, workedOut. simpl. rewrite existsb_app. simpl.
  unfold loggedBetween at 2. simpl. by rewrite andb_false_r, !orb_false_r.
Qed.

Lemma workedOut_with_users us d userId from to :
  workedOut (with_users us d) userId from to = workedOut d userId from to.
Proof. reflexivity. Qed.

Lemma same_day_window t : (startOfDay t <=? t) && (t <=? endOfDay t) = true.
Proof.
  pose proof (startOfDay_le t). pose proof (le_endOfDay t).
  apply andb_true_iff. split; lia.
Qed.

Lemma completeWorkoutDay_scoring_quiet userId planId description d t user :
  users d !! userId = Some user →
  completeWorkoutDay_scoring userId planId description (quiet d t)
  = (Ok tt, quiet (scoredDb userId planId description user t d) t).
Proof.
  intros Hu. unfold completeWorkoutDay_scoring.
  unfold bind at 1. rewrite (awardPoints_quiet _ _ _ _ _ _ Hu).
  unfold bind at 1, ActivityLog_create. rewrite update_quiet.
  set (u1 := set_totalPoints (totalPoints user + 15) user).
  set (d2 := with_activityLogs _ _).
  change d2 with (workoutLogged userId planId description t
                    (creditedDb userId user 15 "Completed workout day" t d)).
  clear d2.
  set (d2 := workoutLogged userId planId description t
               (creditedDb userId user 15 "Completed workout day" t d)).
  assert (Hu2 : users d2 !! userId = Some u1) by apply lookup_insert_eq.
  assert (Hw : workedOutToday d2 userId t = true).
  { unfold workedOutToday, d2. rewrite workedOut_workoutLogged, same_day_window.
    apply orb_true_r. }
  unfold bind at 1. rewrite (updateWorkoutStreak_quiet _ _ _ _ Hu2), Hw.
  cbn [negb]. rewrite orb_false_r.
  unfold scoredDb. fold u1 d2. unfold streakUser, streakDb.
  destruct (loggedToday u1 (startOfDay t)).
  - unfold bind at 1. rewrite (checkAndAwardBadges_quiet _ _ _ _ Hu2). reflexivity.
  - assert (Hu3 : users (updatedDb d2 userId u1 t) !! userId
                  = Some (updatedUser d2 userId u1 t)) by apply lookup_insert_eq.
    unfold bind at 1. rewrite (checkAndAwardBadges_quiet _ _ _ _ Hu3). reflexivity.
Qed.

Lemma foldl_awardOne_user t picked : ∀ user,
  name (foldl (awardOne t) user picked) = name user
  ∧ accountStatus (foldl (awardOne t) user picked) = accountStatus user
  ∧ currentWorkoutStreak (foldl (awardOne t) user picked) = currentWorkoutStreak user
  ∧ longestWorkoutStreak (foldl (awardOne t) user picked) = longestWorkoutStreak user
  ∧ lastWorkoutDate (foldl (awardOne t) user picked) = lastWorkoutDate user
  ∧ totalPoints (foldl (awardOne t) user picked) = totalPoints user + pointsOf picked.
Proof.
  induction picked as [|b l IH]; intros user; simpl.
  - repeat split; lia.
  - destruct (IH (awardOne t user b)) as (-> & -> & -> & -> & -> & ->). simpl.
    repeat split; lia.
Qed.

Lemma evaluatedDb_user userId user t picked d :
  users d !! userId = Some user →
  users (evaluatedDb userId user t picked d) !! userId
  = Some (foldl (awardOne t) user picked).
Proof.
  intros Hu. destruct picked as [|b l]; [done|].
  unfold evaluatedDb. simpl. by rewrite lookup_insert_eq.
Qed.

Lemma workedOut_evaluatedDb userId user t picked d from to :
  workedOut (evaluatedDb userId user t picked d) userId from to
  = workedOut d userId from to.
Proof.
  assert (H : workedOut (announced userId t picked d) userId from to
              = workedOut d userId from to).
  { unfold workedOut, announced. simpl. rewrite existsb_app.
    assert (Hn : existsb (loggedBetween userId workout_completed from to)
                   (badgeEntry userId t <$> picked) = false).
    { induction picked as [|b l IH]; [done|].
      rewrite fmap_cons. cbn [existsb]. rewrite IH.
      unfold loggedBetween. simpl. by rewrite andb_false_r. }
    by rewrite Hn, orb_false_r. }
  destruct picked as [|b l]; [done|]. exact H.
Qed.

Lemma workedOut_streakDb d userId user t from to :
  workedOut (streakDb d userId user t) userId from to = workedOut d userId from to.
Proof.
  unfold streakDb. destruct (loggedToday user (startOfDay t)); [done|].
  apply workedOut_updatedDb.
Qed.

Lemma yesterday_window t :
  (yesterdayOf t <=? t) && (t <=? endOfDay (yesterdayOf t)) = false.
Proof.
  apply andb_false_iff. right. apply Z.leb_gt.
  unfold yesterdayOf, endOfDay.
  replace (startOfDay t - msPerDay) with ((t `div` msPerDay - 1) * msPerDay)
    by (unfold startOfDay; lia).
  rewrite startOfDay_mul. pose proof (startOfDay_le t). unfold startOfDay in *. lia.
Qed.

(** The record and the workout ledger after the scoring steps. *)
Lemma scoredDb_summary userId planId description d t user :
  users d !! userId = Some user →
  ∃ u' picked,
    users (scoredDb userId planId description user t d) !! userId = Some u'
    ∧ currentWorkoutStreak u'
      = (if loggedToday user (startOfDay t) then currentWorkoutStreak user
         else if workedOutYesterday d userId t || negb (isSome (lastWorkoutDate user))
              then currentWorkoutStreak user + 1 else 1)
    ∧ lastWorkoutDate u'
      = (if loggedToday user (startOfDay t) then lastWorkoutDate user else Some t)
    ∧ longestWorkoutStreak u'
      = (if loggedToday user (startOfDay t) then longestWorkoutStreak user
         else Z.max (longestWorkoutStreak user) (currentWorkoutStreak u'))
    ∧ totalPoints u'
      = totalPoints user + 15
        + (if loggedToday user (startOfDay t) then 0
           else milestoneBonus (currentWorkoutStreak u'))
        + pointsOf picked
    ∧ ∀ from to,
        workedOut (scoredDb userId planId description user t d) userId from to
        = workedOut d userId from to || ((from <=? t) && (t <=? to)).
Proof.
  intros Hu. unfold scoredDb.
  set (u1 := set_totalPoints (totalPoints user + 15) user).
  set (d2 := workoutLogged userId planId description t
               (creditedDb userId user 15 "Completed workout day" t d)).
  set (u3 := streakUser d2 userId u1 t). set (d3 := streakDb d2 userId u1 t).
  set (picked := newlyEarned userId d3 t (badgeId <$> badges u3)
                   (List.filter isActive (badgeCatalog d3))).
  assert (Hu3 : users d3 !! userId = Some u3).
  { unfold d3, u3, streakDb, streakUser.
    destruct (loggedToday u1 (startOfDay t)); apply lookup_insert_eq. }
  assert (Hy : workedOutYesterday d2 userId t = workedOutYesterday d userId t).
  { unfold workedOutYesterday, d2.
    by rewrite workedOut_workoutLogged, workedOut_creditedDb, yesterday_window,
      orb_false_r. }
  exists (foldl (awardOne t) u3 picked), picked.
  split; [by apply evaluatedDb_user|].
  destruct (foldl_awardOne_user t picked u3) as (_ & _ & -> & -> & -> & ->).
  assert (Hlt : loggedToday u1 (startOfDay t) = loggedToday user (startOfDay t)) by done.
  unfold u3, streakUser. rewrite Hlt.
  split; [|split; [|split; [|split]]].
  - destruct (loggedToday user (startOfDay t)); [done|].
    simpl. unfold nextStreak. by rewrite Hy.
  - by destruct (loggedToday user (startOfDay t)).
  - by destruct (loggedToday user (startOfDay t)).
  - destruct (loggedToday user (startOfDay t)); simpl; lia.
  - intros from to. rewrite workedOut_evaluatedDb. unfold d3.
    rewrite workedOut_streakDb. unfold d2.
    by rewrite workedOut_workoutLogged, workedOut_creditedDb.
Qed.

(** The store after the scoring steps of one completed workout day at
    clock reading [t], the store working. *)
Definition scoreDay (userId : UserId) (planId : nat) (description : string)
    (d : DB) (t : Z) : DB :=
  db (completeWorkoutDay_scoring userId planId description (quiet d t)).2.

(** [times], after [t], are clock readings on successive calendar days. *)
Fixpoint onSuccessiveDays (t : Z) (times : list Z) : Prop :=
  match times with
  | [] => True
  | t' :: rest => startOfDay t' = startOfDay t + msPerDay ∧ onSuccessiveDays t' rest
  end.

(** The user is [k] days into a streak whose last day is the day of [t]. *)
Definition onStreak (userId : UserId) (d : DB) (t k : Z) : Prop :=
  ∃ u, users d !! userId = Some u ∧ currentWorkoutStreak u = k
       ∧ startOfDay <$> lastWorkoutDate u = Some (startOfDay t)
       ∧ workedOutToday d userId t = true.

Lemma loggedToday_true user t :
  startOfDay <$> lastWorkoutDate user = Some (startOfDay t) →
  loggedToday user (startOfDay t) = true.
Proof.
  unfold loggedToday. destruct (lastWorkoutDate user) as [l|]; [|done].
  intros [= ->]. apply Z.eqb_refl.
Qed.

Lemma scoreDay_first userId planId description d t u :
  users d !! userId = Some u → lastWorkoutDate u = None →
  onStreak userId (scoreDay userId planId description d t) t (currentWorkoutStreak u + 1).
Proof.
  intros Hu Hl. unfold scoreDay.
  rewrite (completeWorkoutDay_scoring_quiet _ _ _ _ _ _ Hu). cbn [snd db quiet].
  destruct (scoredDb_summary userId planId description d t u Hu)
    as (u' & picked & Hu' & Hc & Hlast & _ & _ & Hw).
  exists u'. split; [done|].
  assert (Hlt : loggedToday u (startOfDay t) = false) by (unfold loggedToday; by rewrite Hl).
  rewrite Hlt in *. rewrite Hl, orb_true_r in Hc.
  split; [done|]. split; [by rewrite Hlast|].
  unfold workedOutToday. by rewrite Hw, same_day_window, orb_true_r.
Qed.

Lemma scoreDay_next userId planId description d t t' k :
  onStreak userId d t k → startOfDay t' = startOfDay t + msPerDay →
  onStreak userId (scoreDay userId planId description d t') t' (k + 1).
Proof.
  intros (u & Hu & Hk & Hl & Hwt) Ht. unfold scoreDay.
  rewrite (completeWorkoutDay_scoring_quiet _ _ _ _ _ _ Hu). cbn [snd db quiet].
  destruct (scoredDb_summary userId planId description d t' u Hu)
    as (u' & picked & Hu' & Hc & Hlast & _ & _ & Hw).
  exists u'. split; [done|].
  assert (Hlt : loggedToday u (startOfDay t') = false).
  { unfold loggedToday. destruct (lastWorkoutDate u) as [l|]; [|done].
    injection Hl as Hl. apply Z.eqb_neq. pose proof msPerDay_pos. lia. }
  assert (Hy : workedOutYesterday d userId t' = true).
  { unfold workedOutYesterday, yesterdayOf. rewrite Ht.
    replace (startOfDay t + msPerDay - msPerDay) with (startOfDay t) by lia.
    unfold workedOutToday in Hwt.
    by rewrite (endOfDay_same_day _ t (startOfDay_idem t)). }
  rewrite Hlt in *. rewrite Hy in Hc.
  split; [simpl in Hc; lia|]. split; [by rewrite Hlast|].
  unfold workedOutToday. by rewrite Hw, same_day_window, orb_true_r.
Qed.

Lemma scoreDays_streak userId planId description times : ∀ d t k,
  onStreak userId d t k → onSuccessiveDays t times →
  ∃ t', onStreak userId (foldl (scoreDay userId planId description) d times) t'
          (k + Z.of_nat (length times)).
Proof.
  induction times as [|t1 rest IH]; intros d t k Hs Hdays; cbn [foldl].
  - exists t. simpl. by rewrite Z.add_0_r.
  - destruct Hdays as [Ht Hrest].
    destruct (IH _ _ _ (scoreDay_next userId planId description d t t1 k Hs Ht) Hrest)
      as [t' Hs'].
    exists t'.
    replace (k + Z.of_nat (length (t1 :: rest))) with (k + 1 + Z.of_nat (length rest));
      [done | cbn [length]; lia].
Qed.

(** X11. With the store working, completing a workout day on each of n
    successive calendar days, starting with a user that has no last
    workout date, raises the current streak by n: the ledger entry
    written just before the streak step is what the step finds for today
    and, the next day, for yesterday. *)
Theorem workout_days_in_a_row userId planId description d t times u :
  users d !! userId = Some u →
  lastWorkoutDate u = None →
  onSuccessiveDays t times →
  ∃ u', users (foldl (scoreDay userId planId description) d (t :: times)) !! userId
        = Some u'
        ∧ currentWorkoutStreak u'
          = currentWorkoutStreak u + Z.of_nat (length (t :: times)).
Proof.
  intros Hu Hl Hdays. cbn [foldl].
  destruct (scoreDays_streak userId planId description times _ _ _
              (scoreDay_first userId planId description d t u Hu Hl) Hdays)
    as (t' & u' & Hu' & Hc & _).
  exists u'. split; [done|]. rewrite Hc. simpl length. lia.
Qed.


(** A newly registered user and the sample catalog. *)
Definition freshDb : DB := mkDB {[ 1%nat := newUser "a" ]} demoCatalog [] [] [] [].

Lemma workout_days_in_a_row_witness :
  ∃ u', users (foldl (scoreDay 1 5 "Completed day 1 of workout plan") freshDb
                 [day 10 + 100; day 11 + 50; day 12 + 7000]) !! 1%nat = Some u'
        ∧ currentWorkoutStreak u'
          = currentWorkoutStreak (newUser "a")
            + Z.of_nat (length [day 10 + 100; day 11 + 50; day 12 + 7000]).
Proof.
  exact (workout_days_in_a_row 1%nat 5%nat "Completed day 1 of workout plan" freshDb
           (day 10 + 100) [day 11 + 50; day 12 + 7000] (newUser "a")
           eq_refl eq_refl (conj eq_refl (conj eq_refl I))).
Defined.


(** Seven days in a row from registration: streak 7; 7 x 15 points, the
    50-point bonus of day 7, and the two sample badges (10 and 50). *)
Example seven_days_in_a_row :
  users (foldl (scoreDay 1 5 "Completed day 1 of workout plan") freshDb
           [day 10 + 1; day 11 + 1; day 12 + 1; day 13 + 1; day 14 + 1; day 15 + 1;
            day 16 + 1]) !! 1%nat
  = Some (mkUser "a" 7 7 215
            [mkEarnedBadge 1 (day 10 + 1); mkEarnedBadge 2 (day 16 + 1)]
            (Some (day 16 + 1)) active).
Proof. vm_compute. reflexivity. Qed.

(** ** The nightly streak check *)

(** What a sweep at [t] makes of one record. *)
Definition sweptUser (t : Z) (u : User) : User :=
  if decide (streakOverdue u t) then set_currentWorkoutStreak 0 u else u.

(** The notification a sweep at [t] sends for one record, if any. *)
Definition sweepNotice (t : Z) (p : UserId * User) : option Notification :=
  if decide (streakOverdue p.2 t)
  then Some (streakBrokenNotice p.1 (currentWorkoutStreak p.2)) else None.

Lemma checkAndResetStreak_quiet userId d t :
  checkAndResetStreak userId (quiet d t) = (Ok tt, quiet (sweepOf userId d t) t).
Proof.
  unfold sweepOf, checkAndResetStreak. unfold_store. simpl.
  destruct (users d !! userId) as [user|]; [|done].
  destruct (lastWorkoutDate user) as [lwd|]; [|done]. simpl.
  by destruct (1 <? _); destruct (0 <? _).
Qed.

Lemma sweepOf_known userId d t u :
  users d !! userId = Some u →
  sweepOf userId d t
  = with_notifications (notifications d ++ from_option (λ n, [n]) [] (sweepNotice t (userId, u)))
      (with_users (<[userId := sweptUser t u]> (users d)) d).
Proof.
  intros Hu. unfold sweptUser, sweepNotice. simpl.
  destruct (decide (streakOverdue u t)) as [Ho|Hn]; simpl.
  - by rewrite (sweep_overdue _ _ _ _ Hu Ho).
  - rewrite sweep_not_overdue by (intros u' Hu'; congruence).
    rewrite app_nil_r, insert_id by done. by destruct d.
Qed.

Lemma forEach_checkAndResetStreak_quiet t ids : ∀ d,
  forEach_checkAndResetStreak ids (quiet d t)
  = (Ok tt, quiet (foldl (λ d userId, sweepOf userId d t) d ids) t).
Proof.
  induction ids as [|userId rest IH]; intros d; simpl; [done|].
  unfold bind. by rewrite checkAndResetStreak_quiet, IH.
Qed.

(** Sweeping the listed users, each listed once with its record. *)
Lemma sweep_all t ps : ∀ d,
  NoDup ps.*1 → (∀ p, p ∈ ps → users d !! p.1 = Some p.2) →
  foldl (λ d userId, sweepOf userId d t) d ps.*1
  = with_notifications (notifications d ++ omap (sweepNotice t) ps)
      (with_users (foldr (λ p us, <[p.1 := sweptUser t p.2]> us) (users d) ps) d).
Proof.
  induction ps as [|[userId u] rest IH]; intros d Hnd Hps.
  - simpl. rewrite app_nil_r. by destruct d.
  - rewrite fmap_cons in Hnd. apply NoDup_cons in Hnd as [Hnotin Hnd].
    rewrite fmap_cons. cbn [foldl fst].
    assert (Hu : users d !! userId = Some u) by (apply (Hps (userId, u)); left).
    rewrite (sweepOf_known _ _ _ _ Hu). rewrite IH; [|done|].
    + cbn [notifications users with_notifications with_users omap foldr fst snd].
      unfold with_notifications, with_users. simpl. f_equal.
      * clear IH Hps Hnd. induction rest as [|[uid' u'] rest IH]; [done|].
        rewrite fmap_cons in Hnotin. apply not_elem_of_cons in Hnotin as [Hne Hnotin].
        simpl. rewrite IH by done. apply insert_insert_ne. simpl in Hne. congruence.
      * rewrite <- app_assoc. f_equal.
        by destruct (sweepNotice t (userId, u)).
    + intros [uid' u'] Hp. cbn [users with_notifications with_users fst snd].
      rewrite lookup_insert_ne.
      * apply (Hps (uid', u')). by right.
      * intros <-. apply Hnotin. apply list_elem_of_fmap. by exists (userId, u').
Qed.

Lemma lookup_foldr_insert (g : User → User) ps (m : gmap UserId User) userId :
  (∀ p, p ∈ ps → m !! p.1 = Some p.2) →
  foldr (λ p us, <[p.1 := g p.2]> us) m ps !! userId
  = if decide (userId ∈ ps.*1) then g <$> m !! userId else m !! userId.
Proof.
  intros Hps. induction ps as [|[uid u] rest IH]; [|rewrite fmap_cons]; cbn [foldr fst snd].
  - by rewrite decide_False by apply not_elem_of_nil.
  - assert (Hrest : ∀ p, p ∈ rest → m !! p.1 = Some p.2) by (intros p Hp; apply Hps; by right).
    specialize (IH Hrest).
    destruct (decide (uid = userId)) as [<-|Hne].
    + rewrite lookup_insert_eq, decide_True by left.
      pose proof (Hps (uid, u) ltac:(left)) as Hlk. simpl in Hlk. by rewrite Hlk.
    + rewrite lookup_insert_ne by done. rewrite IH.
      destruct (decide (userId ∈ rest.*1)) as [Hin|Hnin].
      * by rewrite decide_True by (by right).
      * rewrite decide_False; [done|]. intros Hin. apply elem_of_cons in Hin as [?|?]; congruence.
Qed.

Definition activeStreaking (p : UserId * User) : bool :=
  isActiveUser p && (0 <? currentWorkoutStreak p.2).

Lemma sweptUser_idle t u : ¬ 0 < currentWorkoutStreak u → sweptUser t u = u.
Proof.
  intros Hc. unfold sweptUser. destruct (decide (streakOverdue u t)) as [[Hpos _]|]; [lia|done].
Qed.

Lemma sweepNotice_idle t p : activeStreaking p = false → isActiveUser p = true →
  sweepNotice t p = None.
Proof.
  unfold activeStreaking. intros Hf Ha. rewrite Ha in Hf. simpl in Hf.
  apply Z.ltb_ge in Hf. unfold sweepNotice.
  destruct (decide (streakOverdue p.2 t)) as [[Hpos _]|]; [lia|done].
Qed.

Lemma omap_cons_Some {A B} (f : A → option B) x y l :
  f x = Some y → omap f (x :: l) = y :: omap f l.
Proof. intros H. simpl. by rewrite H. Qed.

Lemma omap_cons_None {A B} (f : A → option B) x l :
  f x = None → omap f (x :: l) = omap f l.
Proof. intros H. simpl. by rewrite H. Qed.

Lemma omap_sweepNotice_active t l :
  omap (sweepNotice t) (List.filter activeStreaking l)
  = omap (sweepNotice t) (List.filter isActiveUser l).
Proof.
  induction l as [|p l IH]; [done|]. cbn [List.filter].
  destruct (isActiveUser p) eqn:Ha.
  - destruct (activeStreaking p) eqn:Hs.
    + destruct (sweepNotice t p) as [n|] eqn:Hn.
      * by rewrite !(omap_cons_Some _ _ _ _ Hn), IH.
      * by rewrite !(omap_cons_None _ _ _ Hn), IH.
    + by rewrite (omap_cons_None _ _ _ (sweepNotice_idle t p Hs Ha)), IH.
  - unfold activeStreaking at 1. rewrite Ha. exact IH.
Qed.

(** X13. The nightly streak check, with the store working and whatever
    order the store lists users in: it ends normally; every active user's
    record is the swept one (streak 0 when it was positive and the last
    workout two or more calendar days back, untouched otherwise), suspended
    or deleted accounts are left alone even when overdue; and the
    notifications added are, up to order, one "Streak Broken" notice per
    active overdue user, carrying the streak that ended. *)
Theorem streakCheckJob_sweeps naturalOrder d t :
  scanOrder naturalOrder →
  (streakCheckJob naturalOrder (quiet d t)).1 = Ok tt
  ∧ (∀ userId,
       users (db (streakCheckJob naturalOrder (quiet d t)).2) !! userId
       = (λ u, if AccountStatus_eqb (accountStatus u) active then sweptUser t u else u)
           <$> users d !! userId)
  ∧ notifications (db (streakCheckJob naturalOrder (quiet d t)).2)
    ≡ₚ notifications d
       ++ omap (sweepNotice t) (List.filter isActiveUser (map_to_list (users d))).
Proof.
  intros Hscan. unfold streakCheckJob, try_catch, bind, User_find_active_streaking.
  rewrite query_quiet, forEach_checkAndResetStreak_quiet. cbn [fst snd db quiet].
  set (ps := List.filter activeStreaking (naturalOrder (map_to_list (users d)))).
  change (List.filter _ (naturalOrder (map_to_list (users d)))) with ps.
  assert (Hperm : ps ≡ₚ List.filter activeStreaking (map_to_list (users d))).
  { apply Permutation_List_filter, Hscan. }
  assert (Hin : ∀ p, p ∈ ps → users d !! p.1 = Some p.2 ∧ activeStreaking p = true).
  { intros [uid u] Hp. rewrite Hperm in Hp.
    apply list_elem_of_In, filter_In in Hp as [Hp Hf]. split; [|done].
    by apply list_elem_of_In, elem_of_map_to_list in Hp. }
  assert (Hnd : NoDup ps.*1).
  { rewrite Hperm. eapply sublist_NoDup; [exact (NoDup_fst_map_to_list (users d))|].
    apply fmap_sublist, sublist_List_filter. }
  rewrite sweep_all; [|done|intros p Hp; by apply Hin].
  cbn [users notifications with_notifications with_users].
  split; [done|]. split.
  - intros userId. rewrite lookup_foldr_insert by (intros p Hp; by apply Hin).
    destruct (users d !! userId) as [u|] eqn:Hu; simpl.
    + destruct (decide (userId ∈ ps.*1)) as [Hm|Hm].
      * apply list_elem_of_fmap in Hm as ([uid u'] & -> & Hp).
        destruct (Hin _ Hp) as [Hlk Hf]. simpl in *. rewrite Hu in Hlk.
        injection Hlk as <-. unfold activeStreaking, isActiveUser in Hf. simpl in Hf.
        apply andb_true_iff in Hf as [-> _]. done.
      * destruct (AccountStatus_eqb (accountStatus u) active) eqn:Ha; [|done].
        rewrite sweptUser_idle; [done|]. intros Hpos. apply Hm.
        apply list_elem_of_fmap. exists (userId, u). split; [done|].
        rewrite Hperm. apply list_elem_of_In, filter_In. split.
        -- by apply list_elem_of_In, elem_of_map_to_list.
        -- unfold activeStreaking, isActiveUser. simpl. rewrite Ha. simpl.
           by apply Z.ltb_lt.
    + by destruct (decide (userId ∈ ps.*1)).
  - apply Permutation_app_head. unfold ps.
    rewrite !omap_sweepNotice_active.
    apply omap_Permutation. apply Permutation_List_filter, Hscan.
Qed.

Lemma streakCheckJob_sweeps_witness :
  (streakCheckJob id (quiet gapDb (day 10 + 100))).1 = Ok tt
  ∧ users (db (streakCheckJob id (quiet gapDb (day 10 + 100))).2) !! 1%nat
    = (λ u, if AccountStatus_eqb (accountStatus u) active
            then sweptUser (day 10 + 100) u else u) <$> users gapDb !! 1%nat.
Proof.
  split.
  - exact (proj1 (streakCheckJob_sweeps id gapDb (day 10 + 100) scanOrder_id)).
  - exact (proj1 (proj2 (streakCheckJob_sweeps id gapDb (day 10 + 100) scanOrder_id)) 1%nat).
Defined.

(** Every record is as it was, or is the old one with the streak at 0. *)
Definition onlyReset (us us' : gmap UserId User) : Prop :=
  ∀ userId,
    us' !! userId = us !! userId
    ∨ ∃ u, us !! userId = Some u ∧ 0 < currentWorkoutStreak u
           ∧ us' !! userId = Some (set_currentWorkoutStreak 0 u).

Lemma onlyReset_refl us : onlyReset us us.
Proof. intros userId. by left. Qed.

Lemma onlyReset_step us us' userId u :
  onlyReset us us' → us' !! userId = Some u → 0 < currentWorkoutStreak u →
  onlyReset us (<[userId := set_currentWorkoutStreak 0 u]> us').
Proof.
  intros H Hu Hpos uid. destruct (decide (uid = userId)) as [->|Hne].
  - rewrite lookup_insert_eq. destruct (H userId) as [Heq|(u0 & H0 & Hp0 & Hset)].
    + right. exists u. by rewrite <- Heq.
    + rewrite Hu in Hset. injection Hset as ->. simpl in Hpos. lia.
  - rewrite lookup_insert_ne by done. apply H.
Qed.

Lemma hoare_forEach_checkAndResetStreak us c ids :
  hoare (λ d, onlyReset us (users d) ∧ badgeCatalog d = c)
    (forEach_checkAndResetStreak ids)
    (λ _ d, onlyReset us (users d) ∧ badgeCatalog d = c)
    (λ _, False).
Proof.
  induction ids as [|userId rest IH]; simpl.
  - apply hoare_ret. done.
  - eapply hoare_bind; [|intros ?; exact IH].
    intros w [Hr Hc].
    pose proof (hoare_checkAndResetStreak userId _ _ w (conj eq_refl Hc)) as H.
    destruct ((checkAndResetStreak userId w).1) as [[]|e]; [|done].
    destruct H as [[Hu Hc']|(u & Hlk & Hpos & Hu & Hc')]; rewrite Hu; split; try done.
    by apply onlyReset_step.
Qed.

(** X14. The nightly streak check under any fault plan and any listing
    order: it never throws (a failure while sweeping one user is swallowed
    by that sweep, and the loop goes on to the next user; a failure of the
    listing is swallowed by the job), it leaves the badge catalog alone, and
    every user record afterwards is the one before, or the one before with
    a positive current streak set to 0. *)
Theorem streakCheckJob_only_resets naturalOrder (w : World) :
  (streakCheckJob naturalOrder w).1 = Ok tt
  ∧ badgeCatalog (db (streakCheckJob naturalOrder w).2) = badgeCatalog (db w)
  ∧ ∀ userId,
      users (db (streakCheckJob naturalOrder w).2) !! userId = users (db w) !! userId
      ∨ ∃ u, users (db w) !! userId = Some u ∧ 0 < currentWorkoutStreak u
             ∧ users (db (streakCheckJob naturalOrder w).2) !! userId
               = Some (set_currentWorkoutStreak 0 u).
Proof.
  assert (H : hoare (λ d, onlyReset (users (db w)) (users d)
                          ∧ badgeCatalog d = badgeCatalog (db w))
                (streakCheckJob naturalOrder)
                (λ _ d, onlyReset (users (db w)) (users d)
                        ∧ badgeCatalog d = badgeCatalog (db w))
                (λ _, False)).
  { unfold streakCheckJob.
    eapply hoare_try; [|intros e; apply hoare_ret; intros d Hd; exact Hd].
    eapply hoare_bind.
    - eapply hoare_conseq; [apply hoare_query| | |].
      + intros d Hd. exact Hd.
      + intros a d [Hd _]. exact Hd.
      + intros d Hd. exact Hd.
    - intros ids. eapply hoare_conseq; [apply hoare_forEach_checkAndResetStreak| | |].
      + intros d Hd. exact Hd.
      + intros a d Hd. exact Hd.
      + intros d []. }
  specialize (H w (conj (onlyReset_refl _) eq_refl)).
  destruct ((streakCheckJob naturalOrder w).1) as [[]|e]; [|done].
  destruct H as [Hr Hc]. split; [done|]. split; [done|]. exact Hr.
Qed.

(** ** Streak statistics *)

Lemma startOfDay_shift t k : startOfDay (t + k * msPerDay) = startOfDay t + k * msPerDay.
Proof.
  unfold startOfDay. rewrite Z.div_add by discriminate. lia.
Qed.

Lemma startOfDay_subDays t k : startOfDay (subDays t k) = startOfDay t - k * msPerDay.
Proof.
  unfold subDays. replace (t - k * msPerDay) with (t + (- k) * msPerDay) by lia.
  rewrite startOfDay_shift. lia.
Qed.

Lemma length_filter_le {A} (f g : A → bool) l :
  (∀ x, f x = true → g x = true) →
  (length (List.filter f l) ≤ length (List.filter g l))%nat.
Proof.
  intros Hfg. induction l as [|x l IH]; simpl; [done|].
  destruct (f x) eqn:Hf.
  - rewrite (Hfg _ Hf). simpl. lia.
  - destruct (g x); simpl; lia.
Qed.

(** The least milestone above a streak, if any. *)
Lemma find_milestone_above s :
  match List.find (λ m, s <? m) milestones with
  | Some m => m ∈ milestones ∧ s < m ∧ ∀ m', m' ∈ milestones → s < m' → m ≤ m'
  | None => 365 ≤ s
  end.
Proof.
  unfold milestones. cbn [List.find].
  repeat match goal with
  | |- context [?a <? ?b] => destruct (Z.ltb_spec a b)
  end;
  try (split; [set_solver|split; [lia|]];
       intros m' Hm' Hlt; repeat (apply elem_of_cons in Hm' as [->|Hm']; [lia|]);
       by apply elem_of_nil in Hm').
  done.
Qed.

(** X15. With the store working, [getStreakStats] writes nothing; for an
    unknown user it throws 'User not found'; for a known one it reports the
    stored streaks and last workout date, a 30-day workout count that is
    never above the total count, status active exactly when the current
    streak is positive, and as next milestone the least of 3, 7, 14, 21,
    30, 50, 100, 365 strictly above the current streak, with the positive
    distance to it; both are null exactly from a streak of 365 on. *)
Theorem getStreakStats_quiet userId d t :
  match users d !! userId with
  | None => getStreakStats userId (quiet d t) = (Throw UserNotFound, quiet d t)
  | Some user =>
    ∃ s, getStreakStats userId (quiet d t) = (Ok s, quiet d t)
         ∧ st_currentStreak s = currentWorkoutStreak user
         ∧ st_longestStreak s = longestWorkoutStreak user
         ∧ st_lastWorkoutDate s = lastWorkoutDate user
         ∧ 0 ≤ recentWorkouts s ≤ totalWorkoutDays s
         ∧ (streakStatus s = streak_active ↔ 0 < currentWorkoutStreak user)
         ∧ match nextMilestone s with
           | Some m =>
             m ∈ milestones ∧ currentWorkoutStreak user < m
             ∧ (∀ m', m' ∈ milestones → currentWorkoutStreak user < m' → m ≤ m')
             ∧ daysToMilestone s = Some (m - currentWorkoutStreak user)
           | None => 365 ≤ currentWorkoutStreak user ∧ daysToMilestone s = None
           end
  end.
Proof.
  assert (Hfind : User_findById userId (quiet d t) = (Ok (users d !! userId), quiet d t))
    by reflexivity.
  destruct (users d !! userId) as [user|] eqn:Hu.
  2: { unfold getStreakStats, try_catch, bind. by rewrite Hfind. }
  unfold getStreakStats, try_catch. unfold bind at 1. rewrite Hfind.
  unfold bind at 1. unfold ActivityLog_countDocuments. rewrite query_quiet.
  unfold bind at 1. unfold newDate at 1. cbn [quiet clock].
  unfold bind at 1. unfold ActivityLog_countDocuments_since. rewrite query_quiet.
  unfold ret. eexists. split; [reflexivity|]. cbn -[milestones List.filter].
  split; [done|]. split; [done|]. split; [done|]. split.
  { split; [lia|]. apply Nat2Z.inj_le, length_filter_le.
    intros e He. by apply andb_true_iff in He as [-> _]. }
  split.
  { destruct (Z.ltb_spec 0 (currentWorkoutStreak user)); split; try done; lia. }
  pose proof (find_milestone_above (currentWorkoutStreak user)) as H.
  destruct (List.find _ milestones) as [m|]; cbn [orNull].
  - destruct H as (Hm & Hlt & Hleast).
    destruct (Z.eqb_spec m 0) as [->|_].
    + exfalso. unfold milestones in Hm.
      repeat (apply elem_of_cons in Hm as [Hm|Hm]; [discriminate|]).
      by apply elem_of_nil in Hm.
    + done.
  - done.
Qed.

(** ** Streak history *)

Lemma ActivityType_eqb_eq a b : ActivityType_eqb a b = true ↔ a = b.
Proof. destruct a, b; simpl; split; (done || discriminate). Qed.

Lemma weekdayShort_startOfDay t : weekdayShort (startOfDay t) = weekdayShort t.
Proof.
  unfold weekdayShort, startOfDay. by rewrite Z.div_mul by discriminate.
Qed.

(** The entry the loop builds for index [k] of [days], at clock reading [t]. *)
Definition historyEntry (workouts : list ActivityLog) (days t k : Z) : HistoryEntry :=
  mkHistoryEntry (startOfDay (subDays t (days - 1 - k)))
    (existsb (λ w, startOfDay (al_createdAt w) =? startOfDay (subDays t (days - 1 - k)))
       workouts)
    (weekdayShort (subDays t (days - 1 - k))).

Lemma historyLoop_run workouts days left : ∀ i history w,
  historyLoop workouts days left i history w
  = (Ok (history
         ++ map (λ j, historyEntry workouts days (clock w) (i + Z.of_nat j)) (seq 0 left)), w).
Proof.
  induction left as [|left IH]; intros i history w.
  - simpl. by rewrite app_nil_r.
  - cbn [historyLoop]. unfold bind at 1. unfold newDate at 1.
    rewrite IH. f_equal. f_equal. cbn [seq map]. rewrite <- app_assoc. f_equal.
    cbn [app]. f_equal.
    + unfold historyEntry. by rewrite Z.add_0_r.
    + rewrite <- seq_shift, map_map. apply map_ext. intros j. f_equal. lia.
Qed.

Lemma existsb_Permutation {A} (f : A → bool) l l' :
  l ≡ₚ l' → existsb f l = existsb f l'.
Proof.
  induction 1 as [|x l l' _ IH|x y l|l l' l'' _ IH1 _ IH2]; simpl.
  - done.
  - by rewrite IH.
  - by destruct (f x), (f y).
  - by etrans.
Qed.

Lemma existsb_filter {A} (f g : A → bool) l :
  existsb f (List.filter g l) = existsb (λ x, g x && f x) l.
Proof.
  induction l as [|x l IH]; simpl; [done|].
  destruct (g x); simpl; by rewrite IH.
Qed.

(** X16. With the store working, [getStreakHistory userId n] writes
    nothing and returns [n] entries for the [n] calendar days ending today,
    oldest first: entry [i] is dated at the start of the day [n - 1 - i]
    days back and names that day's weekday, and its [hasWorkout] flag is
    set exactly when the ledger holds a completed-workout entry of the user
    created on that calendar day (the window queried, which starts a day
    earlier than the first entry, loses none of them). *)
Theorem getStreakHistory_quiet userId (n : nat) d t :
  ∃ h, getStreakHistory userId n (quiet d t) = (Ok h, quiet d t)
       ∧ length h = n
       ∧ ∀ (i : nat) entry, h !! i = Some entry →
           h_date entry = startOfDay t - (Z.of_nat n - 1 - Z.of_nat i) * msPerDay
           ∧ dayOfWeek entry = weekdayShort (h_date entry)
           ∧ (hasWorkout entry = true
              ↔ ∃ e, e ∈ activityLogs d ∧ al_userId e = userId
                     ∧ al_activityType e = workout_completed
                     ∧ startOfDay (al_createdAt e) = h_date entry).
Proof.
  unfold getStreakHistory, try_catch. unfold bind at 1. unfold newDate at 1.
  unfold bind at 1. unfold newDate at 1. cbn [quiet clock].
  unfold bind at 1. unfold ActivityLog_find_between_sorted. rewrite query_quiet.
  rewrite historyLoop_run. cbn [quiet clock app].
  eexists. split; [reflexivity|]. split; [by rewrite length_map, length_seq|].
  intros i entry Hi. rewrite list_lookup_fmap in Hi.
  destruct (seq 0 n !! i) as [j|] eqn:Hj; [|done].
  apply lookup_seq in Hj as [-> Hlt]. injection Hi as <-.
  unfold historyEntry. cbn [h_date dayOfWeek hasWorkout]. rewrite Z.add_0_l.
  rewrite !startOfDay_subDays. split; [done|]. split.
  { rewrite <- weekdayShort_startOfDay, startOfDay_subDays. done. }
  set (s := startOfDay t - (Z.of_nat n - 1 - Z.of_nat i) * msPerDay).
  assert (Hs : startOfDay s = s).
  { unfold s. rewrite <- startOfDay_subDays. apply startOfDay_idem. }
  rewrite (existsb_Permutation _ _ _ (merge_sort_Permutation _ _)), existsb_filter.
  rewrite existsb_exists. pose proof msPerDay_pos as Hpos. split.
  - intros (e & He & Hb). exists e. apply list_elem_of_In in He.
    apply andb_true_iff in Hb as [Hw Heq]. apply Z.eqb_eq in Heq.
    unfold loggedBetween in Hw.
    apply andb_true_iff in Hw as [Hw _]. apply andb_true_iff in Hw as [Hw _].
    apply andb_true_iff in Hw as [Hu Hty].
    apply bool_decide_eq_true in Hu. apply ActivityType_eqb_eq in Hty. done.
  - intros (e & He & Hu & Hty & Heq). exists e. split; [by apply list_elem_of_In|].
    apply andb_true_iff. split; [|by apply Z.eqb_eq].
    apply (startOfDay_iff _ _ Hs) in Heq.
    pose proof (startOfDay_le t). pose proof (le_endOfDay t).
    unfold loggedBetween. rewrite !andb_true_iff. repeat split.
    + by apply bool_decide_eq_true.
    + by apply ActivityType_eqb_eq.
    + apply Z.leb_le. unfold s in Heq. nia.
    + apply Z.leb_le. unfold endOfDay in *. unfold s in Heq. nia.
Qed.

(** ** Date ranges *)

(** X17. [getDateRange days] touches no store and cannot fail. The range
    ends at the last millisecond of today, starts at a start of day, and
    spans exactly [days] whole days; it contains the present moment exactly
    when [days] is at least 1 (for 0 or less the start lies after the
    end). *)
Theorem getDateRange_window days w :
  ∃ start end_,
    getDateRange days w = (Ok (start, end_), w)
    ∧ end_ = endOfDay (clock w)
    ∧ startOfDay start = start
    ∧ end_ - start + 1 = days * msPerDay
    ∧ (start ≤ clock w ↔ 1 ≤ days)
    ∧ clock w ≤ end_.
Proof.
  unfold getDateRange, bind, newDate, ret. eexists _, _. split; [reflexivity|].
  pose proof msPerDay_pos. pose proof (startOfDay_le (clock w)).
  pose proof (le_endOfDay (clock w)).
  assert (He : startOfDay (endOfDay (clock w)) = startOfDay (clock w)).
  { apply startOfDay_iff; [apply startOfDay_idem|]. unfold endOfDay in *. lia. }
  rewrite startOfDay_subDays, He.
  split; [done|]. split.
  { rewrite <- startOfDay_subDays. apply startOfDay_idem. }
  unfold endOfDay in *. split; [lia|]. split; [|lia].
  split; intros; nia.
Qed.

(** ** Leaderboard position and rank *)

#[global] Instance descending_trans key : Transitive (descending key).
Proof. unfold descending. intros a b c. lia. Qed.

(** In a list sorted larger-first, the entries above a value are a prefix. *)
Lemma sorted_above key v l :
  StronglySorted (descending key) l →
  ∀ (j : nat) q, l !! j = Some q →
    ((v <? key q.2) = true
     ↔ (j < length (List.filter (λ q, (v <? key q.2)%Z) l))%nat).
Proof.
  induction l as [|x l IH]; intros Hs j q Hj; [done|].
  apply StronglySorted_cons in Hs as [Hx Hs]. cbn [List.filter].
  destruct (Z.ltb_spec v (key x.2)) as [Hlt|Hge].
  - destruct j as [|j]; simpl in Hj.
    + injection Hj as <-. cbn [length]. split; [lia|]. intros _. by apply Z.ltb_lt.
    + cbn [length]. rewrite (IH Hs j q Hj). lia.
  - assert (Hall : ∀ q', q' ∈ x :: l → (v <? key q'.2) = false).
    { intros q' Hq'. apply Z.ltb_ge. apply elem_of_cons in Hq' as [->|Hq']; [done|].
      rewrite Forall_forall in Hx. specialize (Hx _ Hq'). unfold descending in Hx. lia. }
    assert (Hnil : List.filter (λ q, v <? key q.2) l = []).
    { apply filter_nil_iff. intros q' Hq'. apply Hall. by right. }
    rewrite Hnil. cbn [length].
    rewrite (Hall q (list_elem_of_lookup_2 _ _ _ Hj)). split; [done|lia].
Qed.

Lemma sorted_lookup_le key l :
  StronglySorted (descending key) l →
  ∀ (i j : nat) p q, l !! i = Some p → l !! j = Some q → (i ≤ j)%nat → key q.2 ≤ key p.2.
Proof.
  induction l as [|x l IH]; intros Hs i j p q Hi Hj Hle; [done|].
  apply StronglySorted_cons in Hs as [Hx Hs].
  destruct i as [|i]; simpl in Hi.
  - injection Hi as <-. destruct j as [|j]; simpl in Hj.
    + injection Hj as <-. lia.
    + rewrite Forall_forall in Hx. apply (Hx q). by eapply list_elem_of_lookup_2.
  - destruct j as [|j]; [lia|]. simpl in Hj. eapply IH; eauto. lia.
Qed.

Lemma filter_filter_andb {A} (f g : A → bool) l :
  List.filter g (List.filter f l) = List.filter (λ x, f x && g x) l.
Proof.
  induction l as [|x l IH]; simpl; [done|].
  destruct (f x); simpl; [destruct (g x)|]; by rewrite IH.
Qed.

Lemma lookup_limited {A} limit (l : list A) i x :
  limited limit l !! i = Some x → l !! i = Some x.
Proof.
  destruct limit as [|n]; simpl; [done|].
  intros H. by apply lookup_take_Some in H as [? _].
Qed.

Lemma sortedActive_perm naturalOrder key d :
  scanOrder naturalOrder →
  sortedActive naturalOrder key d ≡ₚ List.filter isActiveUser (map_to_list (users d)).
Proof.
  intros Hscan. unfold sortedActive. rewrite merge_sort_Permutation.
  apply Permutation_List_filter, Hscan.
Qed.

Lemma sortedActive_sorted naturalOrder key d :
  StronglySorted (descending key) (sortedActive naturalOrder key d).
Proof. apply Sorted_StronglySorted; [apply _|]. apply Sorted_merge_sort, _. Qed.

Lemma sortCriteria_rankKey metric :
  metric ≠ "longestWorkoutStreak" →
  sortCriteria metric
  = if String.eqb metric "currentWorkoutStreak" then currentWorkoutStreak else totalPoints.
Proof.
  intros Hm. unfold sortCriteria.
  destruct (String.eqb_spec metric "totalPoints") as [->|_]; [done|].
  destruct (String.eqb_spec metric "currentWorkoutStreak"); [done|].
  by destruct (String.eqb_spec metric "longestWorkoutStreak").
Qed.

(** X18. The leaderboard and the rank agree up to ties. With the store
    working and any scan order, for a metric other than
    'longestWorkoutStreak', every row of [getLeaderboard] is an active
    stored user whose [getUserRank] on the same metric is at most the row's
    position; rows placed before that rank have strictly larger values, and
    the rows from that rank down to the row itself all tie with it. *)
Theorem leaderboard_position_and_rank naturalOrder limit metric d t rows row :
  scanOrder naturalOrder →
  metric ≠ "longestWorkoutStreak" →
  (getLeaderboard naturalOrder limit metric (quiet d t)).1 = Ok rows →
  row ∈ rows →
  ∃ user r,
    users d !! row_userId row = Some user
    ∧ accountStatus user = active
    ∧ getUserRank (row_userId row) metric (quiet d t) = (Ok r, quiet d t)
    ∧ 1 ≤ r ≤ rank row
    ∧ (∀ row', row' ∈ rows → rank row' < r →
         rowCriteria metric row < rowCriteria metric row')
    ∧ (∀ row', row' ∈ rows → r ≤ rank row' ≤ rank row →
         rowCriteria metric row' = rowCriteria metric row).
Proof.
  intros Hscan Hm Hrows Hrow.
  rewrite getLeaderboard_quiet in Hrows. cbn [fst] in Hrows. injection Hrows as <-.
  set (key := sortCriteria metric) in *.
  set (l := sortedActive naturalOrder key d) in *.
  pose proof (sortedActive_sorted naturalOrder key d) as Hs. fold l in Hs.
  pose proof (sortedActive_perm naturalOrder key d Hscan) as Hperm. fold l in Hperm.
  apply elem_of_lookup_imap in Hrow as (i & p & -> & Hi).
  apply lookup_limited in Hi.
  assert (Hp : users d !! p.1 = Some p.2 ∧ isActiveUser p = true).
  { pose proof (list_elem_of_lookup_2 _ _ _ Hi) as Hin. rewrite Hperm in Hin.
    apply list_elem_of_In, filter_In in Hin as [Hin Ha]. split; [|done].
    destruct p as [uid u]. by apply list_elem_of_In, elem_of_map_to_list in Hin. }
  destruct Hp as [Hu Ha].
  exists p.2. eexists. cbn [row_userId toRow rank].
  split; [done|]. split.
  { unfold isActiveUser in Ha. by destruct (accountStatus p.2). }
  split; [by rewrite (getUserRank_quiet _ _ _ _ _ Hu)|].
  rewrite <- (sortCriteria_rankKey _ Hm). fold key. unfold rankOf_spec.
  assert (Hk : length (List.filter (λ q, isActiveUser q && (key p.2 <? key q.2))
                         (map_to_list (users d)))
               = length (List.filter (λ q, key p.2 <? key q.2) l)).
  { rewrite <- filter_filter_andb. apply Permutation_length.
    symmetry. by apply Permutation_List_filter. }
  rewrite Hk. set (k := length (List.filter (λ q, key p.2 <? key q.2) l)).
  pose proof (sorted_above key (key p.2) l Hs) as Habove. fold k in Habove.
  assert (Hki : (k ≤ i)%nat).
  { destruct (decide (i < k)%nat) as [Hlt|]; [|lia].
    apply (Habove i p Hi) in Hlt. apply Z.ltb_lt in Hlt. lia. }
  split; [lia|]. split.
  - intros row' Hrow' Hr. apply elem_of_lookup_imap in Hrow' as (j & q & -> & Hj).
    apply lookup_limited in Hj. cbn [rank toRow] in Hr.
    rewrite !rowCriteria_toRow. fold key.
    apply Z.ltb_lt, (Habove j q Hj). lia.
  - intros row' Hrow' Hr. apply elem_of_lookup_imap in Hrow' as (j & q & -> & Hj).
    apply lookup_limited in Hj. cbn [rank toRow] in Hr.
    rewrite !rowCriteria_toRow. fold key.
    pose proof (sorted_lookup_le key l Hs j i q p Hj Hi ltac:(lia)).
    destruct (Z.ltb_spec (key p.2) (key q.2)) as [Hlt|Hge]; [|lia].
    apply Z.ltb_lt, (Habove j q Hj) in Hlt. lia.
Qed.

(** In [tieDb] user 1 is listed second, and ranked first with user 2. *)
Definition tieRows : list LeaderboardRow :=
  [mkLeaderboardRow 1 2 "b" 20 0 0; mkLeaderboardRow 2 1 "a" 20 0 0].

Lemma leaderboard_position_and_rank_witness :
  ∃ user r,
    users tieDb !! 1%nat = Some user
    ∧ accountStatus user = active
    ∧ getUserRank 1 "totalPoints" (quiet tieDb 0) = (Ok r, quiet tieDb 0)
    ∧ 1 ≤ r ≤ 2
    ∧ (∀ row', row' ∈ tieRows → rank row' < r → 20 < rowCriteria "totalPoints" row')
    ∧ (∀ row', row' ∈ tieRows → r ≤ rank row' ≤ 2 → rowCriteria "totalPoints" row' = 20).
Proof.
  refine (leaderboard_position_and_rank id 10%nat "totalPoints" tieDb 0 tieRows
            (mkLeaderboardRow 2 1 "a" 20 0 0) scanOrder_id _ _ _).
  - discriminate.
  - vm_compute. reflexivity.
  - right. left.
Defined.

Lemma sublist_limited {A} limit (l : list A) : limited limit l `sublist_of` l.
Proof. destruct limit; simpl; [done|]. apply sublist_take. Qed.

Lemma AccountStatus_eqb_active s : AccountStatus_eqb s active = true ↔ s = active.
Proof. by destruct s. Qed.

(** X19. With the store working and any scan order, the rows of
    [getLeaderboard] are distinct users; each row shows an active stored
    user with the name, points and streaks of the record; a positive limit
    bounds the number of rows; and when the limit is 0 or at least the
    number of active users, every active user has a row. *)
Theorem leaderboard_rows naturalOrder limit metric d t rows :
  scanOrder naturalOrder →
  (getLeaderboard naturalOrder limit metric (quiet d t)).1 = Ok rows →
  NoDup (row_userId <$> rows)
  ∧ (limit ≠ 0%nat → (length rows ≤ limit)%nat)
  ∧ (∀ row, row ∈ rows →
       ∃ user, users d !! row_userId row = Some user
               ∧ accountStatus user = active
               ∧ row_name row = name user
               ∧ row_totalPoints row = totalPoints user
               ∧ currentStreak row = currentWorkoutStreak user
               ∧ longestStreak row = longestWorkoutStreak user)
  ∧ (limit = 0%nat
     ∨ (length (List.filter isActiveUser (map_to_list (users d))) ≤ limit)%nat →
     ∀ userId user, users d !! userId = Some user → accountStatus user = active →
       ∃ row, row ∈ rows ∧ row_userId row = userId).
Proof.
  intros Hscan Hrows.
  rewrite getLeaderboard_quiet in Hrows. cbn [fst] in Hrows. injection Hrows as <-.
  set (key := sortCriteria metric).
  set (l := sortedActive naturalOrder key d).
  pose proof (sortedActive_perm naturalOrder key d Hscan) as Hperm. fold l in Hperm.
  assert (Hids : row_userId <$> imap toRow (limited limit l) = (limited limit l).*1).
  { rewrite fmap_imap, <- imap_const. by apply imap_ext. }
  split; [|split; [|split]].
  - rewrite Hids. eapply sublist_NoDup; [|apply fmap_sublist, sublist_limited].
    rewrite Hperm. eapply sublist_NoDup; [exact (NoDup_fst_map_to_list (users d))|].
    apply fmap_sublist, sublist_List_filter.
  - intros Hl. rewrite length_imap. destruct limit as [|n]; [done|]. simpl.
    rewrite length_take. lia.
  - intros row Hrow. apply elem_of_lookup_imap in Hrow as (i & p & -> & Hi).
    apply lookup_limited in Hi.
    pose proof (list_elem_of_lookup_2 _ _ _ Hi) as Hin. rewrite Hperm in Hin.
    apply list_elem_of_In, filter_In in Hin as [Hin Ha].
    destruct p as [uid u]. apply list_elem_of_In, elem_of_map_to_list in Hin.
    exists u. cbn. split; [done|]. split; [|done]. by apply AccountStatus_eqb_active.
  - intros Hl userId user Hu Ha.
    assert (Hfull : limited limit l = l).
    { destruct Hl as [->|Hl]; [done|]. destruct limit as [|n]; [done|]. simpl.
      apply take_ge. by rewrite Hperm. }
    assert (Hin : (userId, user) ∈ l).
    { rewrite Hperm. apply list_elem_of_In, filter_In. split.
      - by apply list_elem_of_In, elem_of_map_to_list.
      - by apply AccountStatus_eqb_active. }
    apply list_elem_of_lookup_1 in Hin as [i Hi].
    exists (toRow i (userId, user)). split; [|done].
    rewrite Hfull. by apply elem_of_lookup_imap_2.
Qed.

Lemma leaderboard_rows_witness :
  NoDup (row_userId <$> tieRows)
  ∧ (10%nat ≠ 0%nat → (length tieRows ≤ 10)%nat)
  ∧ (∀ row, row ∈ tieRows →
       ∃ user, users tieDb !! row_userId row = Some user
               ∧ accountStatus user = active
               ∧ row_name row = name user
               ∧ row_totalPoints row = totalPoints user
               ∧ currentStreak row = currentWorkoutStreak user
               ∧ longestStreak row = longestWorkoutStreak user)
  ∧ (10%nat = 0%nat
     ∨ (length (List.filter isActiveUser (map_to_list (users tieDb))) ≤ 10)%nat →
     ∀ userId user, users tieDb !! userId = Some user → accountStatus user = active →
       ∃ row, row ∈ tieRows ∧ row_userId row = userId).
Proof.
  refine (leaderboard_rows id 10%nat "totalPoints" tieDb 0 tieRows scanOrder_id _).
  vm_compute. reflexivity.
Defined.

(** ** The water streak *)

(** The water record the store yields first for the user on the day
    starting at [s] reaches the 2000 ml goal. The query has no sort: which
    record comes first is the store's choice, here the order of the
    collection. *)
Definition waterGoalMet (userId : UserId) (d : DB) (s : Z) : bool :=
  match List.find
          (λ e, bool_decide (bd_userId e = userId) && isWaterIntake (bd_type e)
                && (s <=? bd_date e) && (bd_date e <? s + msPerDay))
          (biometrics d) with
  | Some e => 2000 <=? bd_value e
  | None => false
  end.

Lemma waterStreakLoop_quiet userId d t fuel : ∀ checkDate streak,
  ∃ r, waterStreakLoop fuel userId checkDate streak (quiet d t) = (Ok r, quiet d t)
       ∧ streak ≤ r ≤ streak + Z.of_nat fuel
       ∧ (∀ i, 0 ≤ i < r - streak →
            waterGoalMet userId d (checkDate - i * msPerDay) = true)
       ∧ (r < streak + Z.of_nat fuel →
            waterGoalMet userId d (checkDate - (r - streak) * msPerDay) = false).
Proof.
  induction fuel as [|fuel IH]; intros checkDate streak.
  - exists streak. split; [done|]. split; [lia|]. split; intros; lia.
  - cbn [waterStreakLoop]. unfold bind at 1. unfold BiometricData_findWater.
    rewrite query_quiet.
    assert (Hmet : waterGoalMet userId d checkDate
                   = match List.find
                             (λ e, bool_decide (bd_userId e = userId)
                                   && isWaterIntake (bd_type e)
                                   && (checkDate <=? bd_date e)
                                   && (bd_date e <? checkDate + msPerDay))
                             (biometrics d) with
                     | Some e => 2000 <=? bd_value e
                     | None => false
                     end) by reflexivity.
    destruct (List.find _ (biometrics d)) as [e|].
    + destruct (2000 <=? bd_value e) eqn:Hv.
      * destruct (IH (checkDate - msPerDay) (streak + 1)) as (r & Hr & Hb & Hall & Hstop).
        exists r. split; [exact Hr|]. split; [lia|]. split.
        -- intros i Hi. destruct (decide (i = 0)) as [->|Hne].
           ++ by rewrite Z.mul_0_l, Z.sub_0_r.
           ++ replace (checkDate - i * msPerDay)
                with (checkDate - msPerDay - (i - 1) * msPerDay) by lia.
              apply Hall. lia.
        -- intros Hlt.
           replace (checkDate - (r - streak) * msPerDay)
             with (checkDate - msPerDay - (r - (streak + 1)) * msPerDay) by lia.
           apply Hstop. lia.
      * exists streak. split; [done|]. split; [lia|]. split; [intros; lia|].
        intros _. by rewrite Z.sub_diag, Z.mul_0_l, Z.sub_0_r.
    + exists streak. split; [done|]. split; [lia|]. split; [intros; lia|].
      intros _. by rewrite Z.sub_diag, Z.mul_0_l, Z.sub_0_r.
Qed.

(** X20. With the store working, [calculateWaterStreak] returns, writes
    nothing, and its result [r] lies between 0 and 365: on each of the [r]
    calendar days back from today the one water record the store yields
    for the user's day ([findOne], unsorted) is at least 2000, and unless
    [r] is 365 the day before those has none, or yields one below 2000:
    the other records of a day are not looked at. The user record itself
    plays no part. *)
Theorem calculateWaterStreak_counts userId d t :
  ∃ r, calculateWaterStreak userId (quiet d t) = (Ok r, quiet d t)
       ∧ 0 ≤ r ≤ 365
       ∧ (∀ i, 0 ≤ i < r →
            waterGoalMet userId d (startOfDay t - i * msPerDay) = true)
       ∧ (r < 365 → waterGoalMet userId d (startOfDay t - r * msPerDay) = false).
Proof.
  rewrite calculateWaterStreak_unfold. unfold bind at 1. unfold User_findById.
  rewrite query_quiet. unfold bind at 1. unfold newDate at 1. cbn [quiet clock].
  destruct (waterStreakLoop_quiet userId d t 365 (startOfDay t) 0)
    as (r & Hr & Hb & Hall & Hstop).
  exists r. split; [exact Hr|]. split; [lia|]. split.
  - intros i Hi. apply Hall. lia.
  - intros Hlt. specialize (Hstop ltac:(lia)). by rewrite Z.sub_0_r in Hstop.
Qed.

(** ** Criteria that can never be met *)











(** ** Completing the days of a plan *)

(** The counter of a plan is the number of its days marked completed. *)
Definition planCounted (plan : WorkoutPlan) : Prop :=
  completedDays plan = Z.of_nat (length (List.filter completed (days plan))).

Definition allCompleted (plan : WorkoutPlan) : Prop :=
  Forall (λ d, completed d = true) (days plan).

Lemma find_markDay n now ds day :
  List.find (λ d, dayNumber d =? n) ds = Some day →
  List.find (λ d, dayNumber d =? n) (markDay n now ds)
  = Some (mkDayPlan (dayNumber day) true (Some now)).
Proof.
  induction ds as [|d ds IH]; simpl; [done|].
  destruct (dayNumber d =? n) eqn:Hn.
  - intros [= <-]. simpl. by rewrite Hn.
  - intros H. simpl. rewrite Hn. by apply IH.
Qed.

Lemma count_markDay n now ds day :
  List.find (λ d, dayNumber d =? n) ds = Some day → completed day = false →
  length (List.filter completed (markDay n now ds))
  = S (length (List.filter completed ds)).
Proof.
  induction ds as [|d ds IH]; simpl; [done|].
  destruct (dayNumber d =? n) eqn:Hn.
  - intros [= <-] Hc. simpl. by rewrite Hc.
  - intros H Hc. simpl. destruct (completed d); simpl; by rewrite (IH H Hc).
Qed.

Lemma numbers_markDay n now ds : dayNumber <$> markDay n now ds = dayNumber <$> ds.
Proof.
  induction ds as [|d ds IH]; [done|]. cbn [markDay].
  destruct (dayNumber d =? n); [by rewrite !fmap_cons|]. by rewrite !fmap_cons, IH.
Qed.

Lemma length_filter_all {A} (f : A → bool) l :
  length (List.filter f l) = length l ↔ Forall (λ x, f x = true) l.
Proof.
  induction l as [|x l IH]; simpl; [split; [constructor|done]|].
  pose proof (filter_length_le f l) as Hle.
  destruct (f x) eqn:Hf; simpl; rewrite Forall_cons.
  - rewrite <- IH. split; [intros [= ->]; done|intros [_ ->]; done].
  - split; [lia|]. intros [? _]. congruence.
Qed.

(** X22. [completeDay] on a plan whose counter equals the number of days
    marked completed: the counter still does afterwards; completing the
    same day number again changes nothing; the day numbers are untouched;
    and when the call changes the plan at all, the counter went up by
    exactly one, and the plan turns 'completed' with [endDate] set to the
    time of the call exactly when every day is then completed, keeping
    status and end date otherwise. *)
Theorem completeDay_counts n now now' plan :
  planCounted plan →
  planCounted (completeDay n now plan)
  ∧ completeDay n now' (completeDay n now plan) = completeDay n now plan
  ∧ dayNumber <$> days (completeDay n now plan) = dayNumber <$> days plan
  ∧ (completeDay n now plan ≠ plan →
       completedDays (completeDay n now plan) = completedDays plan + 1
       ∧ (allCompleted (completeDay n now plan) →
            wp_status (completeDay n now plan) = plan_completed
            ∧ endDate (completeDay n now plan) = Some now)
       ∧ (¬ allCompleted (completeDay n now plan) →
            wp_status (completeDay n now plan) = wp_status plan
            ∧ endDate (completeDay n now plan) = endDate plan)).
Proof.
  intros Hc.
  destruct (List.find (λ d, dayNumber d =? n) (days plan)) as [day|] eqn:Hfind.
  2: { assert (E : completeDay n now plan = plan) by (unfold completeDay; by rewrite Hfind).
       rewrite E. unfold completeDay. rewrite Hfind. done. }
  destruct (completed day) eqn:Hday.
  { assert (E : completeDay n now plan = plan)
      by (unfold completeDay; by rewrite Hfind, Hday).
    rewrite E. unfold completeDay. rewrite Hfind, Hday. done. }
  pose proof (count_markDay n now _ _ Hfind Hday) as Hcount.
  pose proof (find_markDay n now _ _ Hfind) as Hfind'.
  pose proof (numbers_markDay n now (days plan)) as Hnum.
  pose proof (filter_length_le completed (markDay n now (days plan))) as Hle.
  unfold planCounted, allCompleted in *.
  destruct (Z.leb_spec (Z.of_nat (length (markDay n now (days plan))))
              (completedDays plan + 1)) as [Hfull|Hpart].
  - assert (E : completeDay n now plan
                = mkWorkoutPlan (wp_userId plan) (markDay n now (days plan))
                    plan_completed (Some now) (completedDays plan + 1)).
    { unfold completeDay. rewrite Hfind, Hday. cbn [negb].
      by destruct (Z.leb_spec (Z.of_nat (length (markDay n now (days plan))))
                     (completedDays plan + 1)); [|lia]. }
    rewrite E. cbn [days completedDays wp_status endDate].
    split; [lia|]. split.
    { unfold completeDay. cbn [days]. by rewrite Hfind'. }
    split; [done|]. intros _. split; [done|]. split; [done|].
    intros Hnot. exfalso. apply Hnot, length_filter_all. lia.
  - assert (E : completeDay n now plan
                = mkWorkoutPlan (wp_userId plan) (markDay n now (days plan))
                    (wp_status plan) (endDate plan) (completedDays plan + 1)).
    { unfold completeDay. rewrite Hfind, Hday. cbn [negb].
      by destruct (Z.leb_spec (Z.of_nat (length (markDay n now (days plan))))
                     (completedDays plan + 1)); [lia|]. }
    rewrite E. cbn [days completedDays wp_status endDate].
    split; [lia|]. split.
    { unfold completeDay. cbn [days]. by rewrite Hfind'. }
    split; [done|]. intros _. split; [done|]. split; [|done].
    intros Hall. apply length_filter_all in Hall. lia.
Qed.

(** A two-day plan with day 1 done. *)
Definition twoDayPlan : WorkoutPlan :=
  mkWorkoutPlan 1 [mkDayPlan 1 true (Some (day 9)); mkDayPlan 2 false None]
    plan_active None 1.

Lemma completeDay_counts_witness :
  planCounted (completeDay 2 (day 10) twoDayPlan)
  ∧ completeDay 2 (day 11) (completeDay 2 (day 10) twoDayPlan)
    = completeDay 2 (day 10) twoDayPlan
  ∧ dayNumber <$> days (completeDay 2 (day 10) twoDayPlan) = dayNumber <$> days twoDayPlan
  ∧ (completeDay 2 (day 10) twoDayPlan ≠ twoDayPlan →
       completedDays (completeDay 2 (day 10) twoDayPlan) = completedDays twoDayPlan + 1
       ∧ (allCompleted (completeDay 2 (day 10) twoDayPlan) →
            wp_status (completeDay 2 (day 10) twoDayPlan) = plan_completed
            ∧ endDate (completeDay 2 (day 10) twoDayPlan) = Some (day 10))
       ∧ (¬ allCompleted (completeDay 2 (day 10) twoDayPlan) →
            wp_status (completeDay 2 (day 10) twoDayPlan) = wp_status twoDayPlan
            ∧ endDate (completeDay 2 (day 10) twoDayPlan) = endDate twoDayPlan)).
Proof.
  exact (completeDay_counts 2 (day 10) (day 11) twoDayPlan eq_refl).
Defined.

(** ** The ledger and the points *)

(** The points the ledger books for a user. *)
Definition ledgerPoints (userId : UserId) (logs : list ActivityLog) : Z :=
  foldr (λ e acc, if bool_decide (al_userId e = userId)
                  then al_pointsEarned e + acc else acc) 0 logs.

(** The points the record of the user holds; nothing for an unknown user. *)
Definition pointsHeld (userId : UserId) (d : DB) : Z :=
  from_option totalPoints 0 (users d !! userId).

(** By how much the ledger is ahead of the record. *)
Definition overbooked (userId : UserId) (d : DB) : Z :=
  ledgerPoints userId (activityLogs d) - pointsHeld userId d.

Lemma ledgerPoints_cons userId e l :
  ledgerPoints userId (e :: l)
  = (if bool_decide (al_userId e = userId) then al_pointsEarned e else 0)
    + ledgerPoints userId l.
Proof. unfold ledgerPoints. simpl. destruct (bool_decide _); lia. Qed.

Lemma ledgerPoints_app userId l l' :
  ledgerPoints userId (l ++ l') = ledgerPoints userId l + ledgerPoints userId l'.
Proof.
  induction l as [|e l IH]; simpl; [done|].
  destruct (bool_decide (al_userId e = userId)); lia.
Qed.

Lemma ledgerPoints_badgeEntries userId uid t picked :
  ledgerPoints userId (badgeEntry uid t <$> picked)
  = if bool_decide (uid = userId) then pointsOf picked else 0.
Proof.
  induction picked as [|b l IH]; [by destruct (bool_decide _)|].
  rewrite fmap_cons, ledgerPoints_cons, IH. cbn [badgeEntry al_userId al_pointsEarned].
  destruct (bool_decide (uid = userId)); [|done]. done.
Qed.

(** A write of one record and some ledger entries of that user. *)
Lemma overbooked_write userId uid user user' entries d d' :
  users d !! uid = Some user →
  users d' = <[uid := user']> (users d) →
  activityLogs d' = activityLogs d ++ entries →
  ledgerPoints userId entries
  = (if bool_decide (uid = userId) then totalPoints user' - totalPoints user else 0) →
  overbooked userId d' = overbooked userId d.
Proof.
  intros Hu Hus Hlogs Hsum. unfold overbooked, pointsHeld.
  rewrite Hus, Hlogs, ledgerPoints_app, Hsum.
  destruct (bool_decide_reflect (uid = userId)) as [->|Hne].
  - rewrite lookup_insert_eq, Hu. simpl. lia.
  - rewrite lookup_insert_ne by done. lia.
Qed.

Lemma updateWorkoutStreak_unknown userId d t :
  users d !! userId = None →
  updateWorkoutStreak userId (quiet d t) = (Throw UserNotFound, quiet d t).
Proof. intros Hu. unfold updateWorkoutStreak. unfold_store. simpl. by rewrite Hu. Qed.

Lemma checkAndAwardBadges_unknown userId d t :
  users d !! userId = None →
  checkAndAwardBadges userId (quiet d t) = (Ok [], quiet d t).
Proof.
  intros Hu. unfold checkAndAwardBadges, checkAndAwardBadges_try. unfold_store. simpl.
  by rewrite Hu.
Qed.

Lemma overbooked_creditedDb userId uid user points reason t d :
  users d !! uid = Some user →
  overbooked userId (creditedDb uid user points reason t d) = overbooked userId d.
Proof.
  intros Hu. eapply (overbooked_write _ _ _ _ _ _ _ Hu); [reflexivity|reflexivity|].
  cbn. destruct (bool_decide (uid = userId)); lia.
Qed.

Lemma overbooked_updatedDb userId uid user t d :
  users d !! uid = Some user →
  overbooked userId (updatedDb d uid user t) = overbooked userId d.
Proof.
  intros Hu. eapply (overbooked_write _ _ _ _ _ _ _ Hu); [reflexivity|reflexivity|].
  cbn [updatedUser totalPoints].
  destruct (includes [7; 30; 100] (nextStreak d uid user t)) eqn:Hi.
  - cbn. destruct (bool_decide (uid = userId)); lia.
  - rewrite (milestoneBonus_includes _ Hi). cbn. destruct (bool_decide (uid = userId)); lia.
Qed.

Lemma overbooked_evaluatedDb userId uid user t picked d :
  users d !! uid = Some user →
  overbooked userId (evaluatedDb uid user t picked d) = overbooked userId d.
Proof.
  intros Hu. destruct picked as [|b l]; [done|].
  eapply (overbooked_write _ _ _ _ _ _ _ Hu); [reflexivity|reflexivity|].
  rewrite ledgerPoints_badgeEntries.
  destruct (foldl_awardOne_user t (b :: l) user) as (_ & _ & _ & _ & _ & ->).
  destruct (bool_decide (uid = userId)); lia.
Qed.

Lemma overbooked_sweepOf userId uid t d :
  overbooked userId (sweepOf uid d t) = overbooked userId d.
Proof.
  destruct (users d !! uid) as [user|] eqn:Hu.
  - rewrite (sweepOf_known _ _ _ _ Hu).
    eapply (overbooked_write _ _ _ _ [] _ _ Hu); [reflexivity|by rewrite app_nil_r|].
    unfold sweptUser. destruct (decide _); simpl; destruct (bool_decide _); lia.
  - rewrite sweep_not_overdue; [done|]. intros user. congruence.
Qed.

(** X23. With the store working, each engine operation (streak update,
    sweep, credit, badge evaluation) leaves, for every user, the difference
    between the points the ledger books for the user and the points the
    record holds as it was: whatever an operation adds to [totalPoints]
    it also books, and the other way round. *)
Theorem engine_keeps_ledger_balance (o : EngineOp) d t userId :
  ∃ d', runOp o (quiet d t) = quiet d' t
        ∧ ledgerPoints userId (activityLogs d') - pointsHeld userId d'
          = ledgerPoints userId (activityLogs d) - pointsHeld userId d.
Proof.
  fold (overbooked userId d).
  destruct o as [uid|uid|uid points reason|uid]; cbn [runOp];
    destruct (users d !! uid) as [user|] eqn:Hu.
  - rewrite (updateWorkoutStreak_quiet _ _ _ _ Hu).
    destruct (_ || _); eexists; (split; [reflexivity|]); [done|].
    by apply overbooked_updatedDb.
  - rewrite (updateWorkoutStreak_unknown _ _ _ Hu). by eexists.
  - rewrite checkAndResetStreak_quiet. eexists. split; [reflexivity|].
    apply overbooked_sweepOf.
  - rewrite checkAndResetStreak_quiet. eexists. split; [reflexivity|].
    apply overbooked_sweepOf.
  - rewrite (awardPoints_quiet _ _ _ _ _ _ Hu). eexists. split; [reflexivity|].
    by apply overbooked_creditedDb.
  - rewrite (awardPoints_unknown _ _ _ _ _ Hu). by eexists.
  - rewrite (checkAndAwardBadges_quiet _ _ _ _ Hu). eexists. split; [reflexivity|].
    by apply overbooked_evaluatedDb.
  - rewrite (checkAndAwardBadges_unknown _ _ _ Hu). by eexists.
Qed.

Lemma overbooked_workoutLogged userId uid planId description t d :
  overbooked userId (workoutLogged uid planId description t d)
  = overbooked userId d + if bool_decide (uid = userId) then 15 else 0.
Proof.
  unfold overbooked, workoutLogged, pointsHeld. cbn [activityLogs users with_activityLogs].
  rewrite ledgerPoints_app. cbn. destruct (bool_decide (uid = userId)); lia.
Qed.

(** X24. The scoring steps of [completeWorkoutDay], the store working,
    put the ledger 15 points further ahead of the record on every call: the
    15 points are credited once but booked twice, by the entry [awardPoints]
    writes and by the handler's own 'workout_completed' entry. *)
Theorem completeWorkoutDay_books_twice userId planId description d t user :
  users d !! userId = Some user →
  ∃ d', completeWorkoutDay_scoring userId planId description (quiet d t) = (Ok tt, quiet d' t)
        ∧ ledgerPoints userId (activityLogs d') - pointsHeld userId d'
          = ledgerPoints userId (activityLogs d) - pointsHeld userId d + 15.
Proof.
  intros Hu. rewrite (completeWorkoutDay_scoring_quiet _ _ _ _ _ _ Hu).
  eexists. split; [reflexivity|]. fold (overbooked userId d).
  unfold scoredDb.
  set (u1 := set_totalPoints (totalPoints user + 15) user).
  set (d1 := creditedDb userId user 15 "Completed workout day" t d).
  set (d2 := workoutLogged userId planId description t d1).
  set (u3 := streakUser d2 userId u1 t). set (d3 := streakDb d2 userId u1 t).
  assert (Hu2 : users d2 !! userId = Some u1) by apply lookup_insert_eq.
  assert (Hu3 : users d3 !! userId = Some u3).
  { unfold d3, u3, streakDb, streakUser.
    destruct (loggedToday u1 (startOfDay t)); [done|apply lookup_insert_eq]. }
  match goal with |- ?l - ?p = _ =>
    change (l - p)
      with (overbooked userId
              (evaluatedDb userId u3 t
                 (newlyEarned userId d3 t (badgeId <$> badges u3)
                    (List.filter isActive (badgeCatalog d3))) d3))
  end.
  rewrite (overbooked_evaluatedDb _ _ _ _ _ _ Hu3).
  assert (H3 : overbooked userId d3 = overbooked userId d2).
  { unfold d3, streakDb. destruct (loggedToday u1 (startOfDay t)); [done|].
    by apply overbooked_updatedDb. }
  rewrite H3. unfold d2. rewrite overbooked_workoutLogged.
  rewrite bool_decide_eq_true_2 by done. unfold d1.
  by rewrite (overbooked_creditedDb _ _ _ _ _ _ _ Hu).
Qed.

Lemma completeWorkoutDay_books_twice_witness :
  ∃ d', completeWorkoutDay_scoring 1 5 "Completed day 1 of workout plan"
          (quiet freshDb (day 10 + 100)) = (Ok tt, quiet d' (day 10 + 100))
        ∧ ledgerPoints 1 (activityLogs d') - pointsHeld 1 d'
          = ledgerPoints 1 (activityLogs freshDb) - pointsHeld 1 freshDb + 15.
Proof.
  exact (completeWorkoutDay_books_twice 1%nat 5%nat "Completed day 1 of workout plan"
           freshDb (day 10 + 100) (newUser "a") eq_refl).
Defined.

(** ** Reads *)

Lemma readonly_historyLoop workouts days left : ∀ i history,
  readonly (historyLoop workouts days left i history).
Proof.
  induction left as [|left IH]; intros i history; cbn [historyLoop].
  - apply readonly_ret.
  - apply readonly_bind; [apply readonly_newDate|]. intros now. apply IH.
Qed.

Lemma readonly_getStreakStats userId : readonly (getStreakStats userId).
Proof.
  unfold getStreakStats. apply readonly_try; [|intros e; apply readonly_throw].
  apply readonly_bind; [apply readonly_query|]. intros [user|]; [|apply readonly_throw].
  apply readonly_bind; [apply readonly_query|]. intros total.
  apply readonly_bind; [apply readonly_newDate|]. intros now.
  apply readonly_bind; [apply readonly_query|]. intros recent. apply readonly_ret.
Qed.

Lemma readonly_getStreakHistory userId n : readonly (getStreakHistory userId n).
Proof.
  unfold getStreakHistory. apply readonly_try; [|intros e; apply readonly_throw].
  apply readonly_bind; [apply readonly_newDate|]. intros now.
  apply readonly_bind; [apply readonly_newDate|]. intros now1.
  apply readonly_bind; [apply readonly_query|]. intros workouts.
  apply readonly_historyLoop.
Qed.

Lemma readonly_getLeaderboard naturalOrder limit metric :
  readonly (getLeaderboard naturalOrder limit metric).
Proof.
  unfold getLeaderboard. apply readonly_try; [|intros e; apply readonly_throw].
  apply readonly_bind; [apply readonly_query|]. intros l. apply readonly_ret.
Qed.

Lemma readonly_getUserRank userId metric : readonly (getUserRank userId metric).
Proof.
  unfold getUserRank. apply readonly_try; [|intros e; apply readonly_throw].
  apply readonly_bind; [apply readonly_query|]. intros [user|]; [|apply readonly_throw].
  apply readonly_bind; [|intros c; apply readonly_ret].
  repeat (destruct (String.eqb _ _)); apply readonly_query.
Qed.

(** The errors a computation can end in. *)
Definition throwsOnly {A} (m : M A) (ok : World → Error → Prop) : Prop :=
  ∀ w e, (m w).1 = Throw e → ok w e.

Definition storeError : World → Error → Prop := λ _ e, e = PersistenceError.

Lemma throwsOnly_query {A} (f : DB → A) : throwsOnly (query f) storeError.
Proof.
  intros [d t fs] e. unfold query, bind, dbop. simpl.
  destruct fs as [|[|] fs]; simpl; intros [=]; done.
Qed.

Lemma throwsOnly_ret {A} (a : A) ok : throwsOnly (ret a) ok.
Proof. intros w e [=]. Qed.

Lemma throwsOnly_newDate ok : throwsOnly newDate ok.
Proof. intros w e [=]. Qed.

Lemma throwsOnly_rethrow {A} (m : M A) ok :
  throwsOnly m ok → throwsOnly (try_catch m (λ error, throw error)) ok.
Proof.
  intros Hm w e. unfold try_catch. specialize (Hm w).
  destruct (m w) as [[a|e'] w']; [done|]. simpl in *. intros [= <-]. by apply Hm.
Qed.

(** Reading leaves the part of the world [ok] looks at alone. *)
Definition stable (ok : World → Error → Prop) : Prop :=
  ∀ w w' e, db w' = db w → ok w' e → ok w e.

Lemma throwsOnly_bind {A B} (m : M A) (k : A → M B) ok :
  stable ok → readonly m → throwsOnly m ok → (∀ a, throwsOnly (k a) ok) →
  throwsOnly (bind m k) ok.
Proof.
  intros Hst Hro Hm Hk w e. unfold bind. specialize (Hm w). specialize (Hro w).
  destruct (m w) as [[a|e'] w'] eqn:E; simpl in *.
  - intros H. apply (Hst w w' e Hro). exact (Hk a w' e H).
  - intros [= <-]. by apply Hm.
Qed.

Lemma throwsOnly_weaken {A} (m : M A) (ok ok' : World → Error → Prop) :
  (∀ w e, ok w e → ok' w e) → throwsOnly m ok → throwsOnly m ok'.
Proof. intros H Hm w e He. apply H. exact (Hm w e He). Qed.

Definition storeOrUnknown (userId : UserId) : World → Error → Prop :=
  λ w e, e = PersistenceError ∨ (e = UserNotFound ∧ users (db w) !! userId = None).

Lemma stable_storeError : stable storeError.
Proof. by intros w w' e _. Qed.

Lemma stable_storeOrUnknown userId : stable (storeOrUnknown userId).
Proof. intros w w' e Hd [?|[? Hu]]; [by left|right]. by rewrite <- Hd. Qed.

Lemma throwsOnly_findById_then {A} userId (k : option User → M A) :
  (∀ user, throwsOnly (k (Some user)) (storeOrUnknown userId)) →
  (∀ w e, (k None w).1 = Throw e → e = UserNotFound) →
  throwsOnly (bind (User_findById userId) k) (storeOrUnknown userId).
Proof.
  intros Hsome Hnone w e. unfold bind.
  destruct (User_findById userId w) as [[o|e'] w'] eqn:E; simpl.
  - apply query_inv in E as (Hd & _ & Ho). specialize (Ho o eq_refl). subst o.
    destruct (users (db w) !! userId) as [user|] eqn:Hu.
    + intros H. apply (stable_storeOrUnknown userId w w' e Hd). exact (Hsome user w' e H).
    + intros H. right. split; [by eapply Hnone|done].
  - intros [= <-]. left. apply (throwsOnly_query (λ d, users d !! userId) w e').
    unfold User_findById in E. by rewrite E.
Qed.

Lemma throwsOnly_historyLoop workouts days left : ∀ i history,
  throwsOnly (historyLoop workouts days left i history) storeError.
Proof.
  induction left as [|left IH]; intros i history; cbn [historyLoop].
  - apply throwsOnly_ret.
  - apply throwsOnly_bind;
      [apply stable_storeError|apply readonly_newDate|apply throwsOnly_newDate|].
    intros now. apply IH.
Qed.

Lemma throwsOnly_getStreakStats userId :
  throwsOnly (getStreakStats userId) (storeOrUnknown userId).
Proof.
  unfold getStreakStats. apply throwsOnly_rethrow, throwsOnly_findById_then.
  - intros user.
    apply throwsOnly_weaken with (ok := storeError); [by left|].
    apply throwsOnly_bind;
      [apply stable_storeError|apply readonly_query|apply throwsOnly_query|].
    intros total. apply throwsOnly_bind;
      [apply stable_storeError|apply readonly_newDate|apply throwsOnly_newDate|].
    intros now. apply throwsOnly_bind;
      [apply stable_storeError|apply readonly_query|apply throwsOnly_query|].
    intros recent. apply throwsOnly_ret.
  - by intros w e [= <-].
Qed.

Lemma throwsOnly_getUserRank userId metric :
  throwsOnly (getUserRank userId metric) (storeOrUnknown userId).
Proof.
  unfold getUserRank. apply throwsOnly_rethrow, throwsOnly_findById_then.
  - intros user.
    apply throwsOnly_weaken with (ok := storeError); [by left|].
    apply throwsOnly_bind; [apply stable_storeError| | |intros c; apply throwsOnly_ret].
    + repeat (destruct (String.eqb _ _)); apply readonly_query.
    + repeat (destruct (String.eqb _ _)); apply throwsOnly_query.
  - by intros w e [= <-].
Qed.

Lemma throwsOnly_getStreakHistory userId n :
  throwsOnly (getStreakHistory userId n) storeError.
Proof.
  unfold getStreakHistory. apply throwsOnly_rethrow.
  apply throwsOnly_bind;
    [apply stable_storeError|apply readonly_newDate|apply throwsOnly_newDate|].
  intros now. apply throwsOnly_bind;
    [apply stable_storeError|apply readonly_newDate|apply throwsOnly_newDate|].
  intros now1. apply throwsOnly_bind;
    [apply stable_storeError|apply readonly_query|apply throwsOnly_query|].
  intros workouts. apply throwsOnly_historyLoop.
Qed.

Lemma throwsOnly_getLeaderboard naturalOrder limit metric :
  throwsOnly (getLeaderboard naturalOrder limit metric) storeError.
Proof.
  unfold getLeaderboard. apply throwsOnly_rethrow.
  apply throwsOnly_bind;
    [apply stable_storeError|apply readonly_query|apply throwsOnly_query|].
  intros l. apply throwsOnly_ret.
Qed.

(** X25. Whatever the store does, the read operations write nothing:
    [getStreakStats], [getStreakHistory], [getLeaderboard] and
    [getUserRank] leave every collection as it was, whether they return or
    throw. What they throw is what the store threw, except that
    [getStreakStats] and [getUserRank] may throw 'User not found', and
    then the user is indeed not in the store. *)
Theorem reads_write_nothing naturalOrder userId metric limit (n : nat) (w : World) :
  db (getStreakStats userId w).2 = db w
  ∧ db (getStreakHistory userId n w).2 = db w
  ∧ db (getLeaderboard naturalOrder limit metric w).2 = db w
  ∧ db (getUserRank userId metric w).2 = db w
  ∧ (∀ e, (getStreakStats userId w).1 = Throw e ∨ (getUserRank userId metric w).1 = Throw e →
          e = PersistenceError ∨ (e = UserNotFound ∧ users (db w) !! userId = None))
  ∧ (∀ e, (getStreakHistory userId n w).1 = Throw e
          ∨ (getLeaderboard naturalOrder limit metric w).1 = Throw e →
          e = PersistenceError).
Proof.
  split; [apply readonly_getStreakStats|].
  split; [apply readonly_getStreakHistory|].
  split; [apply readonly_getLeaderboard|].
  split; [apply readonly_getUserRank|].
  split.
  - intros e [H|H].
    + exact (throwsOnly_getStreakStats userId w e H).
    + exact (throwsOnly_getUserRank userId metric w e H).
  - intros e [H|H].
    + exact (throwsOnly_getStreakHistory userId n w e H).
    + exact (throwsOnly_getLeaderboard naturalOrder limit metric w e H).
Qed.

(** ** Achievements *)

Lemma find_badge_id (c : list Badge) i b :
  List.find (λ c, Nat.eqb (b_id c) i) c = Some b → b ∈ c ∧ b_id b = i.
Proof.
  intros H. apply find_some in H as [Hin Heq]. split; [by apply list_elem_of_In|].
  by apply Nat.eqb_eq.
Qed.

Lemma find_badge_none (c : list Badge) i :
  List.find (λ c, Nat.eqb (b_id c) i) c = None → i ∉ b_id <$> c.
Proof.
  intros H Hin. apply list_elem_of_fmap in Hin as (b & -> & Hb).
  apply list_elem_of_In in Hb. pose proof (find_none _ _ H b Hb) as Hf. simpl in Hf.
  by rewrite Nat.eqb_refl in Hf.
Qed.

(** X26. With the store working, [getUserAchievements] writes nothing.
    For an unknown user it fails with a TypeError (it reads
    [user.totalPoints] of [null]), not with 'User not found'. For a known
    user it reports the stored points and streaks, the rank [getUserRank]
    gives on total points (at least 1), a workout count that never exceeds
    the activity count, and one entry per earned badge, in order and with
    its date, holding the catalog badge of that id, or [null] when the
    catalog has none. *)
Theorem getUserAchievements_quiet userId d t :
  match users d !! userId with
  | None => getUserAchievements userId (quiet d t) = (Throw TypeError, quiet d t)
  | Some user =>
    ∃ a, getUserAchievements userId (quiet d t) = (Ok a, quiet d t)
         ∧ a_totalPoints a = totalPoints user
         ∧ a_currentStreak a = currentWorkoutStreak user
         ∧ a_longestStreak a = longestWorkoutStreak user
         ∧ (getUserRank userId "totalPoints" (quiet d t)).1 = Ok (a_rank a)
         ∧ 1 ≤ a_rank a
         ∧ 0 ≤ totalWorkouts a ≤ totalActivities a
         ∧ a_earnedAt <$> a_badges a = earnedAt <$> badges user
         ∧ ∀ (i : nat) e x, badges user !! i = Some e → a_badges a !! i = Some x →
             match a_badge x with
             | Some b => b ∈ badgeCatalog d ∧ b_id b = badgeId e
             | None => badgeId e ∉ b_id <$> badgeCatalog d
             end
  end.
Proof.
  assert (Hfind : User_findById userId (quiet d t) = (Ok (users d !! userId), quiet d t))
    by reflexivity.
  destruct (users d !! userId) as [user|] eqn:Hu.
  2: { unfold getUserAchievements, try_catch, User_findById_populated.
       unfold bind at 1. unfold bind at 1. rewrite Hfind. reflexivity. }
  unfold getUserAchievements, try_catch, User_findById_populated.
  unfold bind at 1. unfold bind at 1. rewrite Hfind.
  unfold bind at 1. unfold populate_badges. rewrite query_quiet. unfold ret at 1.
  unfold bind at 1. unfold ActivityLog_countDocuments. rewrite query_quiet.
  unfold bind at 1. unfold Goal_countDocuments. rewrite query_quiet.
  unfold bind at 1. unfold ActivityLog_countDocuments_all. rewrite query_quiet.
  unfold bind at 1. rewrite (getUserRank_quiet _ _ _ _ _ Hu). unfold ret.
  eexists. split; [reflexivity|]. cbn [a_totalPoints a_currentStreak a_longestStreak
    a_rank totalWorkouts totalActivities a_badges fst].
  split; [done|]. split; [done|]. split; [done|]. split; [done|].
  split; [unfold rankOf_spec; lia|]. split.
  { split; [lia|]. apply Nat2Z.inj_le, length_filter_le.
    intros e He. by apply andb_true_iff in He as [-> _]. }
  split.
  { change (map ?f ?l) with (f <$> l). rewrite <- list_fmap_compose. done. }
  intros i e x He Hx. change (map ?f ?l) with (f <$> l) in Hx.
  rewrite list_lookup_fmap, He in Hx. injection Hx as <-. cbn [a_badge].
  destruct (List.find _ (badgeCatalog d)) as [b|] eqn:Hb.
  - by apply find_badge_id.
  - by apply find_badge_none.
Qed.

(** ** Logging a measurement *)







Lemma activityLogs_evaluatedDb userId user t picked d :
  activityLogs (evaluatedDb userId user t picked d)
  = activityLogs d ++ (badgeEntry userId t <$> picked).
Proof. destruct picked; simpl; [by rewrite app_nil_r|done]. Qed.




(** *** The weight badge *)









(** ** A save that fails after the announcements *)

(** From any store, [m] makes a fixed number of store calls when none of
    them fails, and behaves the same under any fault plan that lets that
    many calls through. *)
Definition counted {A} (m : M A) : Prop :=
  ∀ d t, ∃ (n : nat) r d',
    m (quiet d t) = (r, quiet d' t)
    ∧ ∀ fs, m (mkWorld d t (replicate n false ++ fs)) = (r, mkWorld d' t fs).

Lemma counted_ret {A} (a : A) : counted (ret a).
Proof. intros d t. by exists 0%nat, (Ok a), d. Qed.

Lemma counted_throw {A} e : counted (@throw A e).
Proof. intros d t. by exists 0%nat, (Throw e), d. Qed.

Lemma counted_newDate : counted newDate.
Proof. intros d t. by exists 0%nat, (Ok t), d. Qed.

Lemma counted_query {A} (f : DB → A) : counted (query f).
Proof. intros d t. by exists 1%nat, (Ok (f d)), d. Qed.

Lemma counted_update f : counted (update f).
Proof. intros d t. by exists 1%nat, (Ok tt), (f d t). Qed.

Lemma counted_bind {A B} (m : M A) (k : A → M B) :
  counted m → (∀ a, counted (k a)) → counted (bind m k).
Proof.
  intros Hm Hk d t. destruct (Hm d t) as (n1 & r1 & d1 & Hq1 & Hc1).
  destruct r1 as [a|e].
  - destruct (Hk a d1 t) as (n2 & r2 & d2 & Hq2 & Hc2).
    exists (n1 + n2)%nat, r2, d2. unfold bind. rewrite Hq1. split; [done|].
    intros fs. by rewrite replicate_add, <- app_assoc, Hc1.
  - exists n1, (Throw e), d1. unfold bind. rewrite Hq1. split; [done|].
    intros fs. by rewrite Hc1.
Qed.

Lemma counted_try {A} (m : M A) h :
  counted m → (∀ e, counted (h e)) → counted (try_catch m h).
Proof.
  intros Hm Hh d t. destruct (Hm d t) as (n1 & r1 & d1 & Hq1 & Hc1).
  destruct r1 as [a|e].
  - exists n1, (Ok a), d1. unfold try_catch. rewrite Hq1. split; [done|].
    intros fs. by rewrite Hc1.
  - destruct (Hh e d1 t) as (n2 & r2 & d2 & Hq2 & Hc2).
    exists (n1 + n2)%nat, r2, d2. unfold try_catch. rewrite Hq1. split; [done|].
    intros fs. by rewrite replicate_add, <- app_assoc, Hc1.
Qed.

Lemma counted_waterStreakLoop fuel userId : ∀ checkDate streak,
  counted (waterStreakLoop fuel userId checkDate streak).
Proof.
  induction fuel as [|fuel IH]; intros checkDate streak; cbn [waterStreakLoop].
  - apply counted_ret.
  - apply counted_bind; [apply counted_query|]. intros [e|]; [|apply counted_ret].
    destruct (2000 <=? bd_value e); [apply IH|apply counted_ret].
Qed.

Lemma counted_calculateWaterStreak userId : counted (calculateWaterStreak userId).
Proof.
  rewrite calculateWaterStreak_unfold.
  apply counted_bind; [apply counted_query|]. intros _.
  apply counted_bind; [apply counted_newDate|]. intros now.
  apply counted_waterStreakLoop.
Qed.

Lemma counted_checkCriteria userId badge : counted (checkCriteria userId badge).
Proof.
  unfold checkCriteria. destruct (criteria_type badge).
  - unfold checkStreakBadge. apply counted_bind; [apply counted_query|]. intros user.
    destruct (String.eqb _ _); [destruct user; [apply counted_ret|apply counted_throw]|].
    destruct (String.eqb _ _); [|apply counted_ret].
    apply counted_bind; [apply counted_calculateWaterStreak|]. intros r. apply counted_ret.
  - unfold checkCountBadge.
    repeat (destruct (String.eqb _ _);
            [apply counted_bind; [apply counted_query|]; intros r; apply counted_ret|]).
    apply counted_ret.
  - unfold checkValueBadge. apply counted_bind; [apply counted_query|]. intros user.
    destruct (String.eqb _ _); [|apply counted_ret].
    apply counted_bind; [apply counted_query|]. intros f.
    apply counted_bind; [apply counted_query|]. intros l.
    destruct f, l; apply counted_ret.
  - unfold checkCustomBadge. apply counted_bind; [apply counted_query|]. intros user.
    repeat (destruct (String.eqb _ _);
            [apply counted_bind; [apply counted_query|]; intros r; apply counted_ret|]).
    apply counted_ret.
Qed.

Lemma counted_awardLoop userId earned allBadges : ∀ user newBadgesEarned,
  counted (awardLoop userId earned allBadges user newBadgesEarned).
Proof.
  induction allBadges as [|badge rest IH]; intros user new; cbn [awardLoop].
  - apply counted_ret.
  - destruct (includesId earned (b_id badge)); [apply IH|].
    apply counted_bind; [apply counted_checkCriteria|]. intros [|]; [|apply IH].
    apply counted_bind; [apply counted_newDate|]. intros now.
    apply counted_bind; [apply counted_update|]. intros _.
    apply counted_bind; [apply counted_update|]. intros _. apply IH.
Qed.

Lemma newlyEarned_same userId d d' t t' earned allBadges :
  sameEvidence userId d d' → startOfDay t = startOfDay t' →
  newlyEarned userId d t earned allBadges = newlyEarned userId d' t' earned allBadges.
Proof.
  intros Hs Ht. unfold newlyEarned. apply List.filter_ext. intros b.
  by rewrite (criterionMet_same userId d d' t t' b Hs Ht).
Qed.

(** X29. When an evaluation would award badges, there is a failure of the
    store, that of the final [user.save()] alone, under which
    [checkAndAwardBadges] returns [] with the user record untouched
    although the 'badge earned' notification and the ledger entry of every
    such badge are already stored. The next evaluation, the store working,
    then awards the same badges and announces them again: each notification
    is stored twice. *)
Theorem checkAndAwardBadges_save_fails d t userId user picked :
  users d !! userId = Some user →
  (checkAndAwardBadges userId (quiet d t)).1 = Ok picked →
  picked ≠ [] →
  ∃ fs d1,
    checkAndAwardBadges userId (mkWorld d t fs) = (Ok [], quiet d1 t)
    ∧ users d1 = users d
    ∧ notifications d1 = notifications d ++ (badgeNotice userId <$> picked)
    ∧ activityLogs d1 = activityLogs d ++ (badgeEntry userId t <$> picked)
    ∧ (checkAndAwardBadges userId (quiet d1 t)).1 = Ok picked
    ∧ notifications (db (checkAndAwardBadges userId (quiet d1 t)).2)
      = notifications d ++ (badgeNotice userId <$> picked)
        ++ (badgeNotice userId <$> picked).
Proof.
  intros Hu Hpicked Hne.
  rewrite (checkAndAwardBadges_quiet _ _ _ _ Hu) in Hpicked. cbn [fst] in Hpicked.
  injection Hpicked as Hpicked.
  destruct (counted_awardLoop userId (map badgeId (badges user))
              (List.filter isActive (badgeCatalog d)) user [] d t)
    as (n & r & d' & Hq & Hc).
  rewrite (awardLoop_quiet userId _ d t) in Hq; [|apply sameEvidence_refl|by eexists].
  change (map badgeId (badges user)) with (badgeId <$> badges user) in Hq.
  rewrite Hpicked in Hq. cbn [app] in Hq. injection Hq as <- <-.
  exists (false :: false :: replicate n false ++ [true]), (announced userId t picked d).
  split; [|split; [done|split; [done|split; [done|]]]].
  - unfold checkAndAwardBadges, checkAndAwardBadges_try, try_catch.
    unfold bind at 1. unfold User_findById. rewrite query_passes, Hu.
    unfold bind at 1. unfold Badge_find_active. rewrite query_passes.
    unfold bind at 1. rewrite Hc. cbn [fst snd].
    destruct picked as [|b l]; [done|].
    unfold bind at 1. cbn [length Nat.ltb Nat.leb]. unfold User_save.
    by rewrite update_fails.
  - assert (Hu1 : users (announced userId t picked d) !! userId = Some user) by done.
    rewrite (checkAndAwardBadges_quiet _ _ _ _ Hu1). cbn [fst snd db quiet].
    change (badgeCatalog (announced userId t picked d)) with (badgeCatalog d).
    rewrite <- (newlyEarned_same userId d (announced userId t picked d) t t _ _
                  (sameEvidence_announced userId t picked d) eq_refl).
    rewrite Hpicked. split; [done|].
    destruct picked as [|b l]; [done|]. cbn [evaluatedDb].
    cbn [notifications with_users announced with_notifications with_activityLogs].
    by rewrite <- app_assoc.
Qed.

Lemma checkAndAwardBadges_save_fails_witness :
  ∃ fs d1,
    checkAndAwardBadges 1 (mkWorld sevenDb (day 10 + 200) fs)
    = (Ok [], quiet d1 (day 10 + 200))
    ∧ users d1 = users sevenDb
    ∧ notifications d1 = notifications sevenDb ++ (badgeNotice 1 <$> demoCatalog)
    ∧ activityLogs d1
      = activityLogs sevenDb ++ (badgeEntry 1 (day 10 + 200) <$> demoCatalog)
    ∧ (checkAndAwardBadges 1 (quiet d1 (day 10 + 200))).1 = Ok demoCatalog
    ∧ notifications (db (checkAndAwardBadges 1 (quiet d1 (day 10 + 200))).2)
      = notifications sevenDb ++ (badgeNotice 1 <$> demoCatalog)
        ++ (badgeNotice 1 <$> demoCatalog).
Proof.
  refine (checkAndAwardBadges_save_fails sevenDb (day 10 + 200) 1%nat sevenUser demoCatalog
            sevenDb_user _ _).
  - vm_compute. reflexivity.
  - discriminate.
Defined.

(** ** What the reads show after days in a row *)








